(** * LedgerPro: the double-entry accounting engine

    A shallow embedding of the bookkeeping core of LedgerPro (the balance
    engine of [db.js], the statement views and the PDF report generator, the
    posting operation and the document classifier of the main script), with
    the properties of its specification stated and settled against it. The
    operations of the pages that maintain the books (the record
    collections, the chart of accounts, the entry form, the import of
    candidates, the dashboard) are embedded as well, with the properties
    their code shows.

    Conventions of the embedding.
    - A record collection is the array the [localStorage] code path of
      [db.js] keeps: the records in the order they were first put.
    - A JavaScript number is an exact rational ([Q]) wherever a statement
      is about sums and comparisons of amounts in exact arithmetic;
      equality of amounts is then [==]. The sums of the balance engine, of
      the trial balance and of the PDF statements are embedded a second
      time on IEEE 754 binary64 numbers (module [Binary64]), to state what
      the program computes when every addition rounds.
    - A JavaScript string is a [string] of 8-bit code units.
    - An object used as a map is the list of its own properties in creation
      order ([Js.obj]); [Js.values] enumerates it the way [Object.values]
      does.
    - [localeCompare], which depends on the host's collation, is a
      parameter of every view that sorts. *)

From Stdlib Require Import List String Ascii Bool Arith ZArith NArith QArith.
From Stdlib Require Import Qabs Permutation Sorted Lia Lqa Morphisms Floats.
Import ListNotations.

Set Warnings "-inexact-float".

Local Open Scope string_scope.
Local Open Scope list_scope.
Local Open Scope Q_scope.

(* ================================================================== *)
(** * Numbers *)

(** [x || 0] on a number: zero is falsy, every other number is itself. *)
Definition or0 (x : Q) : Q := if Qeq_bool x 0 then 0 else x.

(** [x < y], [x > y] and [x !== y] on numbers. *)
Definition Qltb (x y : Q) : bool := negb (Qle_bool y x).
Definition Qgtb (x y : Q) : bool := Qltb y x.
Definition Qneb (x y : Q) : bool := negb (Qeq_bool x y).

(** The sum of a list of amounts. *)
Definition sumQ (l : list Q) : Q := fold_right Qplus 0 l.

(* ================================================================== *)
(** * JavaScript objects used as maps *)

Module Js.

Definition is_digit (c : ascii) : bool :=
  (48 <=? N_of_ascii c)%N && (N_of_ascii c <=? 57)%N.

Definition digit_value (c : ascii) : N := (N_of_ascii c - 48)%N.

Fixpoint all_digits (s : string) : bool :=
  match s with
  | EmptyString => true
  | String c r => is_digit c && all_digits r
  end.

Fixpoint decimal_value (acc : N) (s : string) : N :=
  match s with
  | EmptyString => acc
  | String c r => decimal_value (10 * acc + digit_value c)%N r
  end.

(** A property key is an array index when it is the canonical decimal
    text of an integer between 0 and 2^32 - 2. *)
Definition array_index (k : string) : option N :=
  match k with
  | EmptyString => None
  | String c r =>
      if all_digits k
         && (negb (Ascii.eqb c "0"%char) || String.eqb r EmptyString)
         && (decimal_value 0 k <? 4294967295)%N
      then Some (decimal_value 0 k)
      else None
  end.

Section Obj.
Context {V : Type}.

(** The own properties of an object, in creation order. *)
Definition obj : Type := list (string * V).

(** [o[k]] restricted to own properties. *)
Fixpoint get (o : obj) (k : string) : option V :=
  match o with
  | [] => None
  | (k', v) :: r => if String.eqb k' k then Some v else get r k
  end.

(** Defining or overwriting an own property: an existing key keeps its
    place, a new key goes last. *)
Fixpoint define (o : obj) (k : string) (v : V) : obj :=
  match o with
  | [] => [(k, v)]
  | (k', v') :: r =>
      if String.eqb k' k then (k, v) :: r else (k', v') :: define r k v
  end.

(** [o[k] = v] for an object value [v]: the key [__proto__] reaches the
    accessor of [Object.prototype] and replaces the prototype instead of
    creating a property. What the object then inherits from its new
    prototype is not modelled: the program looks up ids, never the field
    names of its records. *)
Definition set (o : obj) (k : string) (v : V) : obj :=
  if String.eqb k "__proto__" then o else define o k v.

Fixpoint insert_index (p : N * V) (l : list (N * V)) : list (N * V) :=
  match l with
  | [] => [p]
  | q :: r =>
      if (fst p <=? fst q)%N then p :: l else q :: insert_index p r
  end.

Definition index_props (o : obj) : list (N * V) :=
  flat_map (fun kv => match array_index (fst kv) with
                      | Some n => [(n, snd kv)]
                      | None => []
                      end) o.

Definition named_props (o : obj) : list V :=
  flat_map (fun kv => match array_index (fst kv) with
                      | Some _ => []
                      | None => [snd kv]
                      end) o.

(** [Object.values(o)]: array-index keys in ascending numeric order,
    then the other keys in creation order. *)
Definition values (o : obj) : list V :=
  map snd (fold_right insert_index [] (index_props o)) ++ named_props o.

Definition keys_of (o : obj) : list string := map fst o.
End Obj.

Arguments obj V : clear implicits.

(** The names every object inherits from [Object.prototype]; a lookup of
    one of them on an object without such an own property is truthy. *)
Definition prototype_names : list string :=
  [ "constructor"; "hasOwnProperty"; "isPrototypeOf";
    "propertyIsEnumerable"; "toLocaleString"; "toString"; "valueOf";
    "__proto__"; "__defineGetter__"; "__defineSetter__";
    "__lookupGetter__"; "__lookupSetter__" ].

Definition inherited (k : string) : bool :=
  existsb (String.eqb k) prototype_names.

(** What reading [o[k]] finds: an own property, something inherited from
    [Object.prototype] (truthy, with none of the fields the program
    stores), or nothing. *)
Inductive lookup (V : Type) :=
| Own (v : V)
| Inherited
| Absent.
Arguments Own {V} v.
Arguments Inherited {V}.
Arguments Absent {V}.

Definition read {V : Type} (o : obj V) (k : string) : lookup V :=
  match get o k with
  | Some v => Own v
  | None => if inherited k then Inherited else Absent
  end.

End Js.

(* ================================================================== *)
(** * Sorting with a comparator *)

Section Sort.
Context {A : Type} (cmp : A -> A -> Z).

Fixpoint insert_sorted (x : A) (l : list A) : list A :=
  match l with
  | [] => [x]
  | y :: r =>
      if (cmp x y <=? 0)%Z then x :: l else y :: insert_sorted x r
  end.

(** [Array.prototype.sort(cmp)]: a stable sort. *)
Definition sort (l : list A) : list A := fold_right insert_sorted [] l.
End Sort.

(* ================================================================== *)
(** * Ledger data model *)

Inductive AccountType := Asset | Liability | Equity | Revenue | Expense.

Inductive NormalSide := Debit | Credit.

Definition AccountType_eqb (x y : AccountType) : bool :=
  match x, y with
  | Asset, Asset | Liability, Liability | Equity, Equity
  | Revenue, Revenue | Expense, Expense => true
  | _, _ => false
  end.

Record Account := mkAccount {
  a_id : string;
  a_code : string;
  a_name : string;
  a_type : AccountType;
  a_normal : NormalSide;
  a_balance : Q
}.

Record JournalEntry := mkEntry {
  e_id : string;
  e_date : string;
  e_description : string;
  e_reference : string;
  e_status : string;
  e_createdAt : string
}.

Record JournalLine := mkLine {
  l_id : string;
  l_entryId : string;
  l_accountId : string;
  l_description : string;
  l_debit : Q;
  l_credit : Q;
  l_seq : Z
}.

(** [{ ...a, balance: b }]. *)
Definition with_balance (a : Account) (b : Q) : Account :=
  mkAccount (a_id a) (a_code a) (a_name a) (a_type a) (a_normal a) b.

(** The display sign rule: [normal === 'Credit' ? -x : x]. *)
Definition signed (n : NormalSide) (x : Q) : Q :=
  match n with Credit => - x | Debit => x end.

(* ================================================================== *)
(** * The database layer ([db.js]) *)

Module DB.

Definition SEED_ACCOUNTS : list Account :=
  [ mkAccount "acc_1000" "1000" "Cash & Cash Equivalents" Asset Debit 0;
    mkAccount "acc_1100" "1100" "Accounts Receivable" Asset Debit 0;
    mkAccount "acc_1200" "1200" "Notes Receivable" Asset Debit 0;
    mkAccount "acc_1300" "1300" "Inventory" Asset Debit 0;
    mkAccount "acc_1400" "1400" "Prepaid Expenses" Asset Debit 0;
    mkAccount "acc_1500" "1500" "Short-term Investments" Asset Debit 0;
    mkAccount "acc_1600" "1600" "Property & Equipment" Asset Debit 0;
    mkAccount "acc_1700" "1700" "Accumulated Depreciation" Asset Credit 0;
    mkAccount "acc_1800" "1800" "Intangible Assets" Asset Debit 0;
    mkAccount "acc_2000" "2000" "Accounts Payable" Liability Credit 0;
    mkAccount "acc_2100" "2100" "Notes Payable" Liability Credit 0;
    mkAccount "acc_2200" "2200" "Accrued Liabilities" Liability Credit 0;
    mkAccount "acc_2300" "2300" "Deferred Revenue" Liability Credit 0;
    mkAccount "acc_2400" "2400" "Income Tax Payable" Liability Credit 0;
    mkAccount "acc_2500" "2500" "Long-term Debt" Liability Credit 0;
    mkAccount "acc_3000" "3000" "Common Stock" Equity Credit 0;
    mkAccount "acc_3100" "3100" "Additional Paid-in Capital" Equity Credit 0;
    mkAccount "acc_3200" "3200" "Retained Earnings" Equity Credit 0;
    mkAccount "acc_3300" "3300" "Owner's Drawings" Equity Debit 0;
    mkAccount "acc_4000" "4000" "Sales Revenue" Revenue Credit 0;
    mkAccount "acc_4100" "4100" "Service Revenue" Revenue Credit 0;
    mkAccount "acc_4200" "4200" "Interest Income" Revenue Credit 0;
    mkAccount "acc_4300" "4300" "Other Income" Revenue Credit 0;
    mkAccount "acc_5000" "5000" "Cost of Goods Sold" Expense Debit 0;
    mkAccount "acc_5100" "5100" "Salaries & Wages Expense" Expense Debit 0;
    mkAccount "acc_5200" "5200" "Rent Expense" Expense Debit 0;
    mkAccount "acc_5300" "5300" "Utilities Expense" Expense Debit 0;
    mkAccount "acc_5400" "5400" "Depreciation Expense" Expense Debit 0;
    mkAccount "acc_5500" "5500" "Insurance Expense" Expense Debit 0;
    mkAccount "acc_5600" "5600" "Advertising Expense" Expense Debit 0;
    mkAccount "acc_5700" "5700" "Interest Expense" Expense Debit 0;
    mkAccount "acc_5800" "5800" "Income Tax Expense" Expense Debit 0;
    mkAccount "acc_5900" "5900" "Miscellaneous Expense" Expense Debit 0 ].

(** The three record collections. *)
Record Store := mkStore {
  ACCOUNTS : list Account;
  ENTRIES : list JournalEntry;
  LINES : list JournalLine
}.

Section Records.
Context {R : Type} (key : R -> string).

(** [put]: replace the record with the same id in place, else append. *)
Fixpoint put (all : list R) (record : R) : list R :=
  match all with
  | [] => [record]
  | r :: rest =>
      if String.eqb (key r) (key record) then record :: rest
      else r :: put rest record
  end.

(** [del]: drop the record with the given id. *)
Definition del (all : list R) (id : string) : list R :=
  filter (fun r => negb (String.eqb (key r) id)) all.
End Records.

Definition saveAccount (s : Store) (a : Account) : Store :=
  mkStore (put a_id (ACCOUNTS s) a) (ENTRIES s) (LINES s).
Definition deleteAccount (s : Store) (id : string) : Store :=
  mkStore (del a_id (ACCOUNTS s) id) (ENTRIES s) (LINES s).
Definition saveEntry (s : Store) (e : JournalEntry) : Store :=
  mkStore (ACCOUNTS s) (put e_id (ENTRIES s) e) (LINES s).
Definition saveLine (s : Store) (l : JournalLine) : Store :=
  mkStore (ACCOUNTS s) (ENTRIES s) (put l_id (LINES s) l).

(** A record of [balanceMap]: [{ ...a, computed }]; in the result the
    [balance] field of [acct] holds the derived balance. *)
Record BalanceRow := mkRow {
  acct : Account;
  computed : Q
}.

Definition balanceMap_init (accounts : list Account) : Js.obj BalanceRow :=
  fold_left (fun m a => Js.set m (a_id a) (mkRow a 0)) accounts [].

(** One step of [lines.forEach]: a line whose account is not in the map
    is skipped, otherwise its record is updated in place. *)
Definition balanceMap_add (m : Js.obj BalanceRow) (l : JournalLine)
  : Js.obj BalanceRow :=
  match Js.get m (l_accountId l) with
  | None => m
  | Some r =>
      Js.define m (l_accountId l)
        (mkRow (acct r) (computed r + (or0 (l_debit l) - or0 (l_credit l))))
  end.

Definition normalize (r : BalanceRow) : BalanceRow :=
  mkRow (with_balance (acct r) (signed (a_normal (acct r)) (computed r)))
        (computed r).

Definition getAccountBalances (accounts : list Account)
    (lines : list JournalLine) : list BalanceRow :=
  let balanceMap := fold_left balanceMap_add lines (balanceMap_init accounts) in
  map normalize (Js.values balanceMap).

Section Lookup.
Context {R : Type} (key : R -> string).

(** [get]: the first record with the id, [null] when there is none. *)
Definition get (all : list R) (id : string) : option R :=
  find (fun r => String.eqb (key r) id) all.
End Lookup.

Definition getAccount (s : Store) (id : string) : option Account :=
  get a_id (ACCOUNTS s) id.
Definition getEntry (s : Store) (id : string) : option JournalEntry :=
  get e_id (ENTRIES s) id.
Definition deleteEntry (s : Store) (id : string) : Store :=
  mkStore (ACCOUNTS s) (del e_id (ENTRIES s) id) (LINES s).
Definition deleteLine (s : Store) (id : string) : Store :=
  mkStore (ACCOUNTS s) (ENTRIES s) (del l_id (LINES s) id).

(** [getLinesForEntry]: the lines of the entry, sorted with
    [(a, b) => a.seq - b.seq]. *)
Definition getLinesForEntry (s : Store) (entryId : string)
  : list JournalLine :=
  sort (fun a b => (l_seq a - l_seq b)%Z)
       (filter (fun l => String.eqb (l_entryId l) entryId) (LINES s)).

(** [deleteLinesForEntry]: the lines of the entry are collected first,
    then deleted one by one, each by its own id. *)
Definition deleteLinesForEntry (s : Store) (entryId : string) : Store :=
  let toDelete :=
    filter (fun l => String.eqb (l_entryId l) entryId) (LINES s) in
  fold_left (fun s l => deleteLine s (l_id l)) toDelete s.

End DB.

(* ================================================================== *)
(** * The PDF report generator *)

Module PDFReport.

(** [_getBalance(account, lines)]. *)
Definition _getBalance (account : Account) (lines : list JournalLine) : Q :=
  let accLines :=
    filter (fun l => String.eqb (l_accountId l) (a_id account)) lines in
  let computed :=
    fold_left (fun s l => s + or0 (l_debit l) - or0 (l_credit l)) accLines 0 in
  signed (a_normal account) computed.

(** A call of [dataRow]: the label and the amount handed to
    [Utils.fmtCurrency]. *)
Definition DataRow : Type := (string * Q)%type.

(** The rows a [forEach] prints: accounts whose balance is not zero. *)
Definition printed (accts : list DB.BalanceRow) (lines : list JournalLine)
  : list DataRow :=
  flat_map (fun a =>
              let bal := _getBalance (DB.acct a) lines in
              if Qneb bal 0 then [(a_name (DB.acct a), bal)] else [])
           accts.

(** The total the same [forEach] accumulates, from [start]. *)
Definition accumulated (start : Q) (accts : list DB.BalanceRow)
    (lines : list JournalLine) : Q :=
  fold_left (fun total a =>
               let bal := _getBalance (DB.acct a) lines in
               if Qneb bal 0 then total + bal else total)
            accts start.

Definition of_type (t : AccountType) (accounts : list DB.BalanceRow)
  : list DB.BalanceRow :=
  filter (fun a => AccountType_eqb (a_type (DB.acct a)) t) accounts.

Definition has_code (c : string) (a : DB.BalanceRow) : bool :=
  String.eqb (a_code (DB.acct a)) c.



(** [generate('balance')]. *)
Record BalanceReport := mkBalanceReport {
  bal_assetRows : list DataRow;
  bal_totalAssets : Q;
  bal_liabRows : list DataRow;
  bal_totalLiab : Q;
  bal_equityRows : list DataRow;
  bal_netInc : Q;
  bal_totalEq : Q;
  bal_totalLiabEq : Q
}.

Definition generate_balance (accounts : list DB.BalanceRow)
    (lines : list JournalLine) : BalanceReport :=
  let assets := of_type Asset accounts in
  let liabs := of_type Liability accounts in
  let equity := of_type Equity accounts in
  let totalAssets := accumulated 0 assets lines in
  let totalLiab := accumulated 0 liabs lines in
  let totalEq0 := accumulated 0 equity lines in
  let revenues := of_type Revenue accounts in
  let expenses := of_type Expense accounts in
  let netInc1 :=
    fold_left (fun n a => n + _getBalance (DB.acct a) lines) revenues 0 in
  let netInc :=
    fold_left (fun n a => n - _getBalance (DB.acct a) lines) expenses netInc1 in
  let totalEq := if Qneb netInc 0 then totalEq0 + netInc else totalEq0 in
  mkBalanceReport (printed assets lines) totalAssets
    (printed liabs lines) totalLiab
    (printed equity lines
       ++ (if Qneb netInc 0 then [("Net Income (Current)", netInc)] else []))
    netInc totalEq (totalLiab + totalEq).

(** [generate('trial')]: the per-account totals are created on demand,
    keyed by the account id of each line. *)
Definition acctTotals_add (m : Js.obj (Q * Q)) (l : JournalLine)
  : Js.obj (Q * Q) :=
  match Js.read m (l_accountId l) with
  | Js.Own (dr, cr) =>
      Js.define m (l_accountId l) (dr + or0 (l_debit l), cr + or0 (l_credit l))
  | Js.Inherited => m
  | Js.Absent =>
      Js.define m (l_accountId l) (0 + or0 (l_debit l), 0 + or0 (l_credit l))
  end.

Record TrialRow := mkTrialRow {
  tr_account : Account;
  tr_debit : option Q;
  tr_credit : option Q
}.

Record TrialReport := mkTrialReport {
  trial_rows : list TrialRow;
  trial_totalDr : Q;
  trial_totalCr : Q
}.

(** What [acctTotals[a.id] || { dr: 0, cr: 0 }] holds for an account:
    its totals, or an inherited object without them. *)
Definition trial_totals (acctTotals : Js.obj (Q * Q)) (a : DB.BalanceRow)
  : option (Q * Q) :=
  match Js.read acctTotals (a_id (DB.acct a)) with
  | Js.Own t => Some t
  | _ => None
  end.

(** The debit and the credit printed for an account, and added to the
    grand totals: only a total above zero. *)
Definition shown_debit (acctTotals : Js.obj (Q * Q)) (a : DB.BalanceRow)
  : option Q :=
  match trial_totals acctTotals a with
  | Some (dr, _) => if Qgtb dr 0 then Some dr else None
  | None => None
  end.

Definition shown_credit (acctTotals : Js.obj (Q * Q)) (a : DB.BalanceRow)
  : option Q :=
  match trial_totals acctTotals a with
  | Some (_, cr) => if Qgtb cr 0 then Some cr else None
  | None => None
  end.

(** [accounts.filter(a => acctTotals[a.id])]. *)
Definition listed (acctTotals : Js.obj (Q * Q)) (a : DB.BalanceRow) : bool :=
  match Js.read acctTotals (a_id (DB.acct a)) with
  | Js.Absent => false
  | _ => true
  end.

(** [total += amount] when the amount is printed. *)
Definition add_shown (total : Q) (amount : option Q) : Q :=
  match amount with
  | Some x => total + x
  | None => total
  end.

Section Trial.
Variable localeCompare : string -> string -> Z.

Definition generate_trial (accounts : list DB.BalanceRow)
    (lines : list JournalLine) : TrialReport :=
  let acctTotals := fold_left acctTotals_add lines [] in
  let shown :=
    sort (fun a b => localeCompare (a_code (DB.acct a)) (a_code (DB.acct b)))
      (filter (listed acctTotals) accounts) in
  mkTrialReport
    (map (fun a => mkTrialRow (DB.acct a) (shown_debit acctTotals a)
                              (shown_credit acctTotals a)) shown)
    (fold_left (fun t a => add_shown t (shown_debit acctTotals a)) shown 0)
    (fold_left (fun t a => add_shown t (shown_credit acctTotals a)) shown 0).
End Trial.



End PDFReport.


(* ================================================================== *)
(** * The statement views *)

Record IncomeStatement := mkIncomeStatement {
  is_revRows : list PDFReport.DataRow;
  is_totalRev : Q;
  is_cogsRows : list PDFReport.DataRow;
  is_totalCOGS : Q;
  is_grossProfit : Q;
  is_opExRows : list PDFReport.DataRow;
  is_totalOpEx : Q;
  is_netIncome : Q
}.

Record BalanceSheet := mkBalanceSheet {
  bs_assetRows : list PDFReport.DataRow;
  bs_liabRows : list PDFReport.DataRow;
  bs_eqRows : list PDFReport.DataRow;
  bs_netInc : Q;
  bs_totalAssets : Q;
  bs_totalLiab : Q;
  bs_totalEquity : Q;
  bs_totalLiabEquity : Q;
  bs_balanced : bool
}.

(** A record of [acctTotals] in the trial balance:
    [{ ...a, totalDr, totalCr }]. *)
Record AcctTotals := mkTotals {
  t_account : Account;
  totalDr : Q;
  totalCr : Q
}.

Record TrialBalance := mkTrialBalance {
  tb_activeAccounts : list AcctTotals;
  tb_totalDr : Q;
  tb_totalCr : Q;
  tb_balanced : bool
}.

(** A row of the general ledger: the line, the fields read from its entry
    and the balance handed to [Utils.fmtCurrency]. *)
Record GLRow := mkGLRow {
  g_line : JournalLine;
  g_date : string;
  g_reference : string;
  g_dispBal : Q
}.

Record GLSection := mkGLSection {
  gl_account : Account;
  gl_rows : list GLRow;
  gl_totalDr : Q;
  gl_totalCr : Q
}.

Definition acctTotals_init (accounts : list Account) : Js.obj AcctTotals :=
  fold_left (fun m a => Js.set m (a_id a) (mkTotals a 0 0)) accounts [].

Definition acctTotals_add (m : Js.obj AcctTotals) (l : JournalLine)
  : Js.obj AcctTotals :=
  match Js.get m (l_accountId l) with
  | None => m
  | Some t =>
      Js.define m (l_accountId l)
        (mkTotals (t_account t) (totalDr t + or0 (l_debit l))
                  (totalCr t + or0 (l_credit l)))
  end.

(** The date of the entry a line belongs to, as the ledger's date filter
    and its first column read it. *)
Definition entryMap_of (entries : list JournalEntry) : Js.obj JournalEntry :=
  fold_left (fun m e => Js.set m (e_id e) e) entries [].

(** The rows of one account in the on-screen ledger, from the running
    balance [runBal]. *)
Fixpoint gl_rows_from (entryMap : Js.obj JournalEntry) (acc : Account)
    (runBal : Q) (accLines : list JournalLine) : list GLRow :=
  match accLines with
  | [] => []
  | l :: rest =>
      let runBal' := runBal + (or0 (l_debit l) - or0 (l_credit l)) in
      let dispBal := signed (a_normal acc) runBal' in
      let date :=
        match Js.read entryMap (l_entryId l) with
        | Js.Own e => e_date e
        | _ => ""
        end in
      let reference :=
        match Js.read entryMap (l_entryId l) with
        | Js.Own e => e_reference e
        | _ => ""
        end in
      mkGLRow l date reference dispBal :: gl_rows_from entryMap acc runBal' rest
  end.

Section Views.
Variable localeCompare : string -> string -> Z.

Definition byCode (a b : Account) : Z :=
  localeCompare (a_code a) (a_code b).

Definition rowByCode (a b : DB.BalanceRow) : Z :=
  byCode (DB.acct a) (DB.acct b).

Definition balance_rows (accts : list DB.BalanceRow)
    (lines : list JournalLine) : list PDFReport.DataRow :=
  map (fun a => (a_name (DB.acct a),
                 PDFReport._getBalance (DB.acct a) lines)) accts.

Definition balance_total (accts : list DB.BalanceRow)
    (lines : list JournalLine) : Q :=
  fold_left (fun total a => total + PDFReport._getBalance (DB.acct a) lines)
            accts 0.

Definition renderIncomeStatement (accounts : list DB.BalanceRow)
    (lines : list JournalLine) : IncomeStatement :=
  let revenues := sort rowByCode (PDFReport.of_type Revenue accounts) in
  let expenses := sort rowByCode (PDFReport.of_type Expense accounts) in
  let totalRev := balance_total revenues lines in
  let cogs := find (PDFReport.has_code "5000") expenses in
  let totalCOGS :=
    match cogs with
    | Some c => PDFReport._getBalance (DB.acct c) lines
    | None => 0
    end in
  let cogsRows :=
    match cogs with
    | Some c => [(a_name (DB.acct c), totalCOGS)]
    | None => []
    end in
  let grossProfit := totalRev - totalCOGS in
  let operating :=
    filter (fun a => negb (PDFReport.has_code "5000" a)) expenses in
  let totalOpEx := balance_total operating lines in
  mkIncomeStatement (balance_rows revenues lines) totalRev cogsRows totalCOGS
    grossProfit (balance_rows operating lines) totalOpEx
    (totalRev - totalCOGS - totalOpEx).

Definition renderBalanceSheet (accounts : list DB.BalanceRow)
    (lines : list JournalLine) : BalanceSheet :=
  let assets := sort rowByCode (PDFReport.of_type Asset accounts) in
  let liabs := sort rowByCode (PDFReport.of_type Liability accounts) in
  let equity := sort rowByCode (PDFReport.of_type Equity accounts) in
  let totalAssets := balance_total assets lines in
  let totalLiab := balance_total liabs lines in
  let totalEquity0 := balance_total equity lines in
  let revenues := PDFReport.of_type Revenue accounts in
  let expenses := PDFReport.of_type Expense accounts in
  let netInc1 :=
    fold_left (fun n a => n + PDFReport._getBalance (DB.acct a) lines)
              revenues 0 in
  let netInc :=
    fold_left (fun n a => n - PDFReport._getBalance (DB.acct a) lines)
              expenses netInc1 in
  let totalEquity := totalEquity0 + netInc in
  let totalLiabEquity := totalLiab + totalEquity in
  let balanced := Qltb (Qabs (totalAssets - totalLiabEquity)) 0.01 in
  mkBalanceSheet (balance_rows assets lines) (balance_rows liabs lines)
    (balance_rows equity lines) netInc totalAssets totalLiab totalEquity
    totalLiabEquity balanced.

Definition renderTrialBalance (accounts : list Account)
    (allLines : list JournalLine) : TrialBalance :=
  let acctTotals :=
    fold_left acctTotals_add allLines (acctTotals_init accounts) in
  let activeAccounts :=
    sort (fun a b => byCode (t_account a) (t_account b))
      (filter (fun a => Qgtb (totalDr a) 0 || Qgtb (totalCr a) 0)
              (Js.values acctTotals)) in
  let totalDr := fold_left (fun s a => s + totalDr a) activeAccounts 0 in
  let totalCr := fold_left (fun s a => s + totalCr a) activeAccounts 0 in
  let balanced := Qltb (Qabs (totalDr - totalCr)) 0.01 in
  mkTrialBalance activeAccounts totalDr totalCr balanced.

(** The date filter of the ledger, on one line. *)
Definition in_range (entryMap : Js.obj JournalEntry)
    (fromDate toDate : string) (l : JournalLine) : bool :=
  match Js.read entryMap (l_entryId l) with
  | Js.Absent => false
  | Js.Inherited => true
  | Js.Own entry =>
      negb (negb (String.eqb fromDate "") && String.ltb (e_date entry) fromDate)
      && negb (negb (String.eqb toDate "") && String.ltb toDate (e_date entry))
  end.

Definition renderGLData (filterAcct fromDate toDate : string)
    (accounts : list Account) (entries : list JournalEntry)
    (allLines : list JournalLine) : list GLSection :=
  let entryMap := entryMap_of entries in
  let sorted := sort byCode accounts in
  let filteredAccounts :=
    if String.eqb filterAcct "" then sorted
    else filter (fun a => String.eqb (a_id a) filterAcct) sorted in
  flat_map
    (fun acc =>
       let accLines0 :=
         filter (fun l => String.eqb (l_accountId l) (a_id acc)) allLines in
       let accLines :=
         if negb (String.eqb fromDate "") || negb (String.eqb toDate "")
         then filter (in_range entryMap fromDate toDate) accLines0
         else accLines0 in
       match accLines0, accLines with
       | [], _ => []
       | _, [] => []
       | _, _ =>
           [ mkGLSection acc (gl_rows_from entryMap acc 0 accLines)
               (fold_left (fun s l => s + or0 (l_debit l)) accLines 0)
               (fold_left (fun s l => s + or0 (l_credit l)) accLines 0) ]
       end)
    filteredAccounts.
End Views.

(* ================================================================== *)
(** * Text *)

Module Text.

(** The white space of [trim], [\s] and the numeric-string grammar, among
    8-bit code units: TAB, LF, VT, FF, CR, SP and NBSP. *)
Definition is_space (c : ascii) : bool :=
  let n := N_of_ascii c in
  ((9 <=? n)%N && (n <=? 13)%N) || (n =? 32)%N || (n =? 160)%N.

Fixpoint drop_while (p : ascii -> bool) (s : list ascii) : list ascii :=
  match s with
  | [] => []
  | c :: r => if p c then drop_while p r else s
  end.

Fixpoint take_while (p : ascii -> bool) (s : list ascii) : list ascii :=
  match s with
  | [] => []
  | c :: r => if p c then c :: take_while p r else []
  end.

Definition trim_start (s : list ascii) : list ascii := drop_while is_space s.

Definition trim_end (s : list ascii) : list ascii :=
  rev (drop_while is_space (rev s)).

(** [s.trim()]. *)
Definition trim (s : list ascii) : list ascii := trim_end (trim_start s).

Definition trim_string (s : string) : string :=
  string_of_list_ascii (trim (list_ascii_of_string s)).

Definition digits_value (ds : list ascii) : N :=
  fold_left (fun acc c => (10 * acc + Js.digit_value c)%N) ds 0%N.

(** The value of [ip.fp], both digit strings. *)
Definition decimal (ip fp : list ascii) : Q :=
  inject_Z (Z.of_N (digits_value ip))
  + Qmake (Z.of_N (digits_value fp)) (Z.to_pos (10 ^ Z.of_nat (List.length fp))).

Definition sign_of (s : list ascii) : bool * list ascii :=
  match s with
  | "-"%char :: r => (true, r)
  | "+"%char :: r => (false, r)
  | _ => (false, s)
  end.

(** An exponent part at the head of [s], if there is a complete one:
    its value and what follows it. *)
Definition exponent_of (s : list ascii) : Z * list ascii :=
  match s with
  | c :: r =>
      if Ascii.eqb c "e"%char || Ascii.eqb c "E"%char then
        let (neg, r1) := sign_of r in
        match take_while Js.is_digit r1 with
        | [] => (0%Z, s)
        | ds => (if neg then (- Z.of_N (digits_value ds))%Z
                 else Z.of_N (digits_value ds),
                 drop_while Js.is_digit r1)
        end
      else (0%Z, s)
  | [] => (0%Z, [])
  end.

(** The longest prefix of [s] that is a decimal literal
    ([StrDecimalLiteral]): its value and the rest of [s]. Numbers are
    finite in this development: the literal [Infinity] has no value
    here. *)
Definition decimal_prefix (s : list ascii) : option (Q * list ascii) :=
  let (neg, s1) := sign_of s in
  let ip := take_while Js.is_digit s1 in
  let s2 := drop_while Js.is_digit s1 in
  let fp :=
    match s2 with
    | "."%char :: r => take_while Js.is_digit r
    | _ => []
    end in
  let s3 :=
    match s2 with
    | "."%char :: r => drop_while Js.is_digit r
    | _ => s2
    end in
  match ip, fp with
  | [], [] => None
  | _, _ =>
      let (e, rest) := exponent_of s3 in
      let v := decimal ip fp * Qpower 10 e in
      Some (if neg then - v else v, rest)
  end.

(** [parseFloat(s)]; [None] is [NaN]. *)
Definition parseFloat (input : string) : option Q :=
  option_map fst (decimal_prefix (trim_start (list_ascii_of_string input))).

(** [parseFloat(s) || 0] and [parseFloat(s) > 0]. *)
Definition parsed_or0 (s : string) : Q :=
  match parseFloat s with
  | Some q => or0 q
  | None => 0
  end.

Definition parsed_positive (s : string) : bool :=
  match parseFloat s with
  | Some q => Qgtb q 0
  | None => false
  end.

End Text.

(* ================================================================== *)
(** * Posting a journal entry *)

(** A line of the entry form; the amounts are the text of the inputs. *)
Record DraftLine := mkDraftLine {
  d_accountId : string;
  d_description : string;
  d_debit : string;
  d_credit : string
}.

(** The entry form: the three fields and the working lines. *)
Record Draft := mkDraft {
  je_date : string;
  je_ref : string;
  je_desc : string;
  journalLines : list DraftLine
}.

(** What the operation tells the user. *)
Inductive Outcome :=
| Rejected (message : string)
| Posted.

(** What [Utils.uid], [Date.now] and [new Date()] give during one call. *)
Record Fresh := mkFresh {
  fresh_entryId : string;
  fresh_lineId : nat -> string;
  fresh_now : string;
  fresh_createdAt : string
}.

Definition draft_totalDr (ls : list DraftLine) : Q :=
  fold_left (fun s l => s + Text.parsed_or0 (d_debit l)) ls 0.

Definition draft_totalCr (ls : list DraftLine) : Q :=
  fold_left (fun s l => s + Text.parsed_or0 (d_credit l)) ls 0.

Definition validLines_of (ls : list DraftLine) : list DraftLine :=
  filter (fun l => negb (String.eqb (d_accountId l) "")
                   && (Text.parsed_positive (d_debit l)
                       || Text.parsed_positive (d_credit l))) ls.

Fixpoint save_lines (s : DB.Store) (f : Fresh) (i : nat)
    (validLines : list DraftLine) : DB.Store :=
  match validLines with
  | [] => s
  | l :: rest =>
      save_lines
        (DB.saveLine s
           (mkLine (fresh_lineId f i) (fresh_entryId f) (d_accountId l)
                   (d_description l) (Text.parsed_or0 (d_debit l))
                   (Text.parsed_or0 (d_credit l)) (Z.of_nat i + 1)))
        f (S i) rest
  end.

Definition postJournalEntry (f : Fresh) (s : DB.Store) (d : Draft)
  : DB.Store * Outcome :=
  let date := je_date d in
  let ref := Text.trim_string (je_ref d) in
  let desc := Text.trim_string (je_desc d) in
  if String.eqb date "" || String.eqb desc "" then
    (s, Rejected "Please fill in date and description")
  else
    let totalDr := draft_totalDr (journalLines d) in
    let totalCr := draft_totalCr (journalLines d) in
    if Qgtb (Qabs (totalDr - totalCr)) 0.001 then
      (s, Rejected "Entry not balanced! Debits must equal Credits")
    else if Qeq_bool totalDr 0 then
      (s, Rejected "Entry has no amounts")
    else
      let validLines := validLines_of (journalLines d) in
      if (List.length validLines <? 2)%nat then
        (s, Rejected "At least 2 lines with accounts and amounts required")
      else
        let entry :=
          mkEntry (fresh_entryId f) date desc
            (if String.eqb ref "" then String.append "JE-" (fresh_now f) else ref)
            "Posted" (fresh_createdAt f) in
        (save_lines (DB.saveEntry s entry) f 0 validLines, Posted).

(** The balance status the entry form shows while typing
    ([updateJournalTotals]). *)
Definition updateJournalTotals (ls : list DraftLine) : bool :=
  let totalDr := draft_totalDr ls in
  let totalCr := draft_totalCr ls in
  let diff := Qabs (totalDr - totalCr) in
  Qltb diff 0.001 && Qgtb totalDr 0.

(* ================================================================== *)
(** * The document classifier *)

(** The category of a classified line: one of the four the classifier
    knows. *)
Inductive Category := ItemAsset | ItemLiability | ItemRevenue | ItemExpense.

Record ClassifiedItem := mkItem {
  c_description : string;
  c_amount : Q;
  c_category : Category;
  c_originalLine : string
}.

Record CandidateEntry := mkCandidate {
  ce_description : string;
  ce_amount : Q;
  ce_category : Category;
  debitAccount : option Account;
  creditAccount : option Account;
  selected : bool
}.

Module PDFParser.

(** The class [[\d,]]. *)
Definition tokchar (c : ascii) : bool :=
  Js.is_digit c || Ascii.eqb c ","%char.

(** [[\d,]+(?:\.\d{2})?] at the head of [s], which starts with a
    character of the class: the longest run, then two decimals if they
    follow. *)
Definition amount_token (s : list ascii) : list ascii :=
  let run := Text.take_while tokchar s in
  match Text.drop_while tokchar s with
  | dot :: d1 :: d2 :: _ =>
      if Ascii.eqb dot "."%char && Js.is_digit d1 && Js.is_digit d2
      then run ++ [dot; d1; d2]
      else run
  | _ => run
  end.

(** A match of [\$?\s*([\d,]+(?:\.\d{2})?)] starting at the head of [s]:
    the captured group and the length of the whole match. *)
Definition match_amount (s : list ascii) : option (list ascii * nat) :=
  let dollar :=
    match s with
    | c :: _ => if Ascii.eqb c "$"%char then 1%nat else 0%nat
    | [] => 0%nat
    end in
  let s1 := skipn dollar s in
  let ws := Text.take_while Text.is_space s1 in
  let s2 := Text.drop_while Text.is_space s1 in
  match s2 with
  | c :: _ =>
      if tokchar c then
        let tok := amount_token s2 in
        Some (tok, (dollar + List.length ws + List.length tok)%nat)
      else None
  | [] => None
  end.

(** The loop [while ((m = patt.exec(line)) !== null)]: the groups of the
    successive leftmost matches; [skip] counts the characters of the
    current match still to pass. *)
Fixpoint exec_all (skip : nat) (s : list ascii) : list (list ascii) :=
  match s with
  | [] => []
  | _ :: rest =>
      match skip with
      | S k => exec_all k rest
      | O =>
          match match_amount s with
          | Some (group, len) => group :: exec_all (len - 1) rest
          | None => exec_all 0 rest
          end
      end
  end.

(** [line.replace(/\$?\s*[\d,]+(?:\.\d{2})?/g, '')]. *)
Fixpoint strip_amounts (skip : nat) (s : list ascii) : list ascii :=
  match s with
  | [] => []
  | c :: rest =>
      match skip with
      | S k => strip_amounts k rest
      | O =>
          match match_amount s with
          | Some (_, len) => strip_amounts (len - 1) rest
          | None => c :: strip_amounts 0 rest
          end
      end
  end.

(** [s.replace(/\s+/g, ' ')]. *)
Fixpoint collapse (in_space : bool) (s : list ascii) : list ascii :=
  match s with
  | [] => []
  | c :: rest =>
      if Text.is_space c then
        if in_space then collapse true rest
        else " "%char :: collapse true rest
      else c :: collapse false rest
  end.

(** [m[1].replace(/,/g, '')]. *)
Definition remove_commas (s : list ascii) : list ascii :=
  filter (fun c => negb (Ascii.eqb c ","%char)) s.

(** The values pushed to [amounts]: the positive ones, in order. *)
Definition amounts_of (line : list ascii) : list Q :=
  flat_map (fun group =>
              match Text.parseFloat
                      (string_of_list_ascii (remove_commas group)) with
              | Some val => if Qgtb val 0 then [val] else []
              | None => []
              end)
           (exec_all 0 line).

(** Matching a keyword regardless of case. *)
Definition upper (c : ascii) : ascii :=
  let n := N_of_ascii c in
  if (97 <=? n)%N && (n <=? 122)%N then ascii_of_N (n - 32) else c.

Fixpoint prefix_ci (kw s : list ascii) : bool :=
  match kw, s with
  | [], _ => true
  | _ :: _, [] => false
  | k :: kw', c :: s' => Ascii.eqb (upper k) (upper c) && prefix_ci kw' s'
  end.

Fixpoint contains_ci (kw s : list ascii) : bool :=
  prefix_ci kw s
  || match s with
     | [] => false
     | _ :: s' => contains_ci kw s'
     end.

(** [/k1|k2|.../i.test(line)]. *)
Definition test (keywords : list string) (line : list ascii) : bool :=
  existsb (fun kw => contains_ci (list_ascii_of_string kw) line) keywords.

Definition assetKw : list string :=
  [ "cash"; "bank"; "receivable"; "inventory"; "equipment"; "asset";
    "prepaid"; "investment"; "property" ].
Definition liabKw : list string :=
  [ "payable"; "loan"; "debt"; "liability"; "liabilities"; "credit";
    "note payable"; "mortgage" ].
Definition revKw : list string :=
  [ "revenue"; "income"; "sales"; "service"; "earning"; "gain" ].
Definition expKw : list string :=
  [ "expense"; "cost"; "salary"; "salaries"; "wages"; "rent"; "utility";
    "utilities"; "depreciation"; "insurance"; "advertising"; "fee" ].

Definition category_of (line : list ascii) : option Category :=
  if test assetKw line then Some ItemAsset
  else if test liabKw line then Some ItemLiability
  else if test revKw line then Some ItemRevenue
  else if test expKw line then Some ItemExpense
  else None.

Definition description_of (line : list ascii) : list ascii :=
  firstn 60 (collapse false (Text.trim (strip_amounts 0 line))).

(** The body of [lines.forEach]: the item a line yields, if any. *)
Definition classify_line (line : list ascii) : option ClassifiedItem :=
  match amounts_of line with
  | [] => None
  | first :: others =>
      let amount := last (first :: others) 0 in
      match category_of line with
      | Some category =>
          if Qle_bool 1 amount then
            let desc := description_of line in
            if (3 <? List.length desc)%nat then
              Some (mkItem (string_of_list_ascii desc) amount category
                           (string_of_list_ascii line))
            else None
          else None
      | None => None
      end
  end.

(** [text.split(/\n/)]. *)
Fixpoint split_lines (cur : list ascii) (s : list ascii)
  : list (list ascii) :=
  match s with
  | [] => [rev cur]
  | c :: rest =>
      if Ascii.eqb c "010"%char then rev cur :: split_lines [] rest
      else split_lines (c :: cur) rest
  end.

Definition classify (text : string) : list ClassifiedItem :=
  let lines :=
    filter (fun l => negb (Nat.eqb (List.length l) 0))
           (map Text.trim (split_lines [] (list_ascii_of_string text))) in
  flat_map (fun line => match classify_line line with
                        | Some item => [item]
                        | None => []
                        end) lines.

(** [X || accounts[0]]. *)
Definition or_first (found : option Account) (accounts : list Account)
  : option Account :=
  match found with
  | Some a => Some a
  | None => hd_error accounts
  end.

Definition code_is (c : string) (a : Account) : bool :=
  String.eqb (a_code a) c.

Definition type_is (t : AccountType) (a : Account) : bool :=
  AccountType_eqb (a_type a) t.

(** The two accounts chosen for an item of the given category. *)
Definition default_accounts (category : Category)
    (accounts : list Account) : option Account * option Account :=
  match category with
  | ItemAsset =>
      (or_first (find (fun a => type_is Asset a && negb (code_is "1000" a))
                      accounts) accounts,
       find (code_is "1000") accounts)
  | ItemLiability =>
      (find (code_is "1000") accounts,
       or_first (find (type_is Liability) accounts) accounts)
  | ItemRevenue =>
      (find (code_is "1000") accounts,
       or_first (find (type_is Revenue) accounts) accounts)
  | ItemExpense =>
      (or_first (find (type_is Expense) accounts) accounts,
       find (code_is "1000") accounts)
  end.

Definition mapToJournalEntries (classified : list ClassifiedItem)
    (accounts : list Account) : list CandidateEntry :=
  map (fun item =>
         let (drAcct, crAcct) := default_accounts (c_category item) accounts in
         mkCandidate (c_description item) (c_amount item) (c_category item)
                     drAcct crAcct true)
      classified.

End PDFParser.
(* ================================================================== *)
(** * The balance engine on records of any shape

    The store holds whatever was written to it. This module embeds
    [getAccountBalances] once more, on lines whose [debit] and [credit] are
    arbitrary values, to state what the coercions [|| 0] and [-] do with
    them, and when they throw. *)

Module Loose.

(** A number: finite, an infinity or [NaN]. *)
Inductive num :=
| Fin (q : Q)
| Inf (negative : bool)
| NaN.

(** A numeric value: a number or a BigInt. *)
Inductive numeric :=
| IsNumber (n : num)
| IsBigInt (z : Z).

(** A field value. An object is given by what its conversion to a numeric
    value yields, [None] when that conversion throws. *)
Inductive value :=
| Undefined
| Null
| Boolean (b : bool)
| Number (n : num)
| Str (s : string)
| BigInt (z : Z)
| Symbol
| Object (conversion : option numeric).

Definition truthy (v : value) : bool :=
  match v with
  | Undefined | Null => false
  | Boolean b => b
  | Number (Fin q) => negb (Qeq_bool q 0)
  | Number (Inf _) => true
  | Number NaN => false
  | Str s => negb (String.eqb s "")
  | BigInt z => negb (Z.eqb z 0)
  | Symbol => true
  | Object _ => true
  end.

(** [v || 0]. *)
Definition or_zero (v : value) : value :=
  if truthy v then v else Number (Fin 0).

Definition radix_digit (radix : N) (c : ascii) : option N :=
  let n := N_of_ascii c in
  let d :=
    if (48 <=? n)%N && (n <=? 57)%N then Some (n - 48)%N
    else if (97 <=? n)%N && (n <=? 102)%N then Some (n - 87)%N
    else if (65 <=? n)%N && (n <=? 70)%N then Some (n - 55)%N
    else None in
  match d with
  | Some v => if (v <? radix)%N then Some v else None
  | None => None
  end.

Fixpoint radix_value (radix : N) (acc : N) (s : list ascii) : option N :=
  match s with
  | [] => Some acc
  | c :: r =>
      match radix_digit radix c with
      | Some d => radix_value radix (radix * acc + d)%N r
      | None => None
      end
  end.

(** [0x..], [0o..] and [0b..] literals. *)
Definition non_decimal (s : list ascii) : option N :=
  match s with
  | "0"%char :: p :: d :: rest =>
      let radix :=
        if Ascii.eqb p "x"%char || Ascii.eqb p "X"%char then Some 16%N
        else if Ascii.eqb p "o"%char || Ascii.eqb p "O"%char then Some 8%N
        else if Ascii.eqb p "b"%char || Ascii.eqb p "B"%char then Some 2%N
        else None in
      match radix with
      | Some r => radix_value r 0 (d :: rest)
      | None => None
      end
  | _ => None
  end.

Definition infinity_text : list ascii := list_ascii_of_string "Infinity".

Definition same_text (a b : list ascii) : bool :=
  String.eqb (string_of_list_ascii a) (string_of_list_ascii b).

(** [StringToNumber]. *)
Definition StringToNumber (s : string) : num :=
  let t := Text.trim (list_ascii_of_string s) in
  match t with
  | [] => Fin 0
  | _ =>
      let (neg, body) := Text.sign_of t in
      if same_text body infinity_text then Inf neg
      else
        match non_decimal t with
        | Some n => Fin (inject_Z (Z.of_N n))
        | None =>
            match Text.decimal_prefix t with
            | Some (q, []) => Fin q
            | _ => NaN
            end
        end
  end.

(** [ToNumeric]: [None] is a [TypeError]. *)
Definition ToNumeric (v : value) : option numeric :=
  match v with
  | Undefined => Some (IsNumber NaN)
  | Null => Some (IsNumber (Fin 0))
  | Boolean b => Some (IsNumber (Fin (if b then 1 else 0)))
  | Number n => Some (IsNumber n)
  | Str s => Some (IsNumber (StringToNumber s))
  | BigInt z => Some (IsBigInt z)
  | Symbol => None
  | Object conversion => conversion
  end.

Definition add (a b : num) : num :=
  match a, b with
  | NaN, _ | _, NaN => NaN
  | Fin x, Fin y => Fin (x + y)
  | Fin _, Inf n | Inf n, Fin _ => Inf n
  | Inf n, Inf m => if Bool.eqb n m then Inf n else NaN
  end.

Definition neg (a : num) : num :=
  match a with
  | Fin x => Fin (- x)
  | Inf n => Inf (negb n)
  | NaN => NaN
  end.

(** [a - b] on two values: both are converted to numeric values; two
    numbers and two BigInts subtract, a number and a BigInt do not mix. *)
Definition minus (a b : value) : option numeric :=
  match ToNumeric a, ToNumeric b with
  | Some (IsNumber x), Some (IsNumber y) => Some (IsNumber (add x (neg y)))
  | Some (IsBigInt x), Some (IsBigInt y) => Some (IsBigInt (x - y))
  | _, _ => None
  end.

(** [computed + v], where [computed] is a number. *)
Definition plus (computed : num) (v : numeric) : option num :=
  match v with
  | IsNumber y => Some (add computed y)
  | IsBigInt _ => None
  end.

Record RawLine := mkRawLine {
  r_accountId : string;
  r_debit : value;
  r_credit : value
}.

Record Row := mkRow {
  acct : Account;
  computed : num;
  balance : num
}.

Definition balanceMap_init (accounts : list Account) : Js.obj Row :=
  fold_left (fun m a => Js.set m (a_id a) (mkRow a (Fin 0) (Fin (a_balance a))))
            accounts [].

(** [computed + ((l.debit || 0) - (l.credit || 0))]. *)
Definition bumped (computed : num) (l : RawLine) : option num :=
  match minus (or_zero (r_debit l)) (or_zero (r_credit l)) with
  | Some v => plus computed v
  | None => None
  end.

(** One step of [lines.forEach], [None] when it throws. A line whose
    account id is an own key of the map updates that record; an id that
    the map inherits from [Object.prototype] is truthy as well, so the
    amounts are computed (the sum is stored on the inherited object, of
    which the result holds nothing); any other line is skipped unread. *)
Definition balanceMap_add (m : Js.obj Row) (l : RawLine)
  : option (Js.obj Row) :=
  match Js.read m (r_accountId l) with
  | Js.Absent => Some m
  | Js.Inherited =>
      match bumped NaN l with
      | Some _ => Some m
      | None => None
      end
  | Js.Own r =>
      match bumped (computed r) l with
      | Some c => Some (Js.define m (r_accountId l) (mkRow (acct r) c (balance r)))
      | None => None
      end
  end.

(** [lines.forEach]: the first line that throws ends the loop. *)
Fixpoint forEach (lines : list RawLine) (m : Js.obj Row)
  : option (Js.obj Row) :=
  match lines with
  | [] => Some m
  | l :: rest =>
      match balanceMap_add m l with
      | Some m' => forEach rest m'
      | None => None
      end
  end.

Definition normalize (r : Row) : Row :=
  mkRow (acct r) (computed r)
        (match a_normal (acct r) with
         | Credit => neg (computed r)
         | Debit => computed r
         end).

(** [getAccountBalances]: the records, or [None] when it throws. *)
Definition getAccountBalances (accounts : list Account)
    (lines : list RawLine) : option (list Row) :=
  match forEach lines (balanceMap_init accounts) with
  | Some balanceMap => Some (map normalize (Js.values balanceMap))
  | None => None
  end.

(** A stored line whose amounts are finite numbers, as the program
    writes them. *)
Definition of_line (l : JournalLine) : RawLine :=
  mkRawLine (l_accountId l) (Number (Fin (l_debit l)))
            (Number (Fin (l_credit l))).

End Loose.

(* ================================================================== *)
(** * The sums on binary64 numbers

    A number of the program is an IEEE 754 binary64 value. This module
    embeds the sums of the balance engine, of the trial balance and of the
    PDF income statement once more, on [float], to state what they are
    when every addition rounds. *)

Module Binary64.

(** A number is falsy when it is [0], [-0] or [NaN]; [x || 0]. *)
Definition falsy (x : float) : bool :=
  PrimFloat.eqb x 0%float || PrimFloat.is_nan x.

Definition or0 (x : float) : float := if falsy x then 0%float else x.

(** [x !== y] and [x > y] on numbers. *)
Definition neb (x y : float) : bool := negb (PrimFloat.eqb x y).
Definition gtb (x y : float) : bool := PrimFloat.ltb y x.

(** [normal === 'Credit' ? -x : x]. *)
Definition signed (n : NormalSide) (x : float) : float :=
  match n with Credit => PrimFloat.opp x | Debit => x end.

(** The fields of a journal line the sums read. *)
Record Line := mkLine {
  l_entryId : string;
  l_accountId : string;
  l_debit : float;
  l_credit : float
}.

(** A record of the result of [getAccountBalances]:
    [{ ...a, computed, balance }]. *)
Record Row := mkRow {
  acct : Account;
  computed : float;
  balance : float
}.

(** [balanceMap]: each account with its [computed]. *)
Definition balanceMap_init (accounts : list Account)
  : Js.obj (Account * float) :=
  fold_left (fun m a => Js.set m (a_id a) (a, 0%float)) accounts [].

Definition balanceMap_add (m : Js.obj (Account * float)) (l : Line)
  : Js.obj (Account * float) :=
  match Js.get m (l_accountId l) with
  | None => m
  | Some r =>
      Js.define m (l_accountId l)
        (fst r, (snd r + (or0 (l_debit l) - or0 (l_credit l)))%float)
  end.

Definition normalize (r : Account * float) : Row :=
  mkRow (fst r) (snd r) (signed (a_normal (fst r)) (snd r)).

Definition getAccountBalances (accounts : list Account) (lines : list Line)
  : list Row :=
  let balanceMap := fold_left balanceMap_add lines (balanceMap_init accounts) in
  map normalize (Js.values balanceMap).

(** [_getBalance(account, lines)] of the PDF generator and the views. *)
Definition _getBalance (account : Account) (lines : list Line) : float :=
  let accLines :=
    filter (fun l => String.eqb (l_accountId l) (a_id account)) lines in
  let computed :=
    fold_left (fun s l => (s + or0 (l_debit l) - or0 (l_credit l))%float)
              accLines 0%float in
  signed (a_normal account) computed.

(** The rows a [forEach] of the PDF statements prints: the accounts whose
    balance is [!== 0]. *)
Definition printed (accts : list Account) (lines : list Line)
  : list (string * float) :=
  flat_map (fun a =>
              let bal := _getBalance a lines in
              if neb bal 0%float then [(a_name a, bal)] else [])
           accts.

(** A record of [acctTotals] in the trial balance. *)
Record AcctTotals := mkTotals {
  t_account : Account;
  totalDr : float;
  totalCr : float
}.

Record TrialBalance := mkTrialBalance {
  tb_activeAccounts : list AcctTotals;
  tb_totalDr : float;
  tb_totalCr : float;
  tb_balanced : bool
}.

Definition acctTotals_init (accounts : list Account) : Js.obj AcctTotals :=
  fold_left (fun m a => Js.set m (a_id a) (mkTotals a 0%float 0%float))
            accounts [].

Definition acctTotals_add (m : Js.obj AcctTotals) (l : Line)
  : Js.obj AcctTotals :=
  match Js.get m (l_accountId l) with
  | None => m
  | Some t =>
      Js.define m (l_accountId l)
        (mkTotals (t_account t) (totalDr t + or0 (l_debit l))%float
                  (totalCr t + or0 (l_credit l))%float)
  end.

Section Views.
Variable localeCompare : string -> string -> Z.

Definition renderTrialBalance (accounts : list Account)
    (allLines : list Line) : TrialBalance :=
  let acctTotals :=
    fold_left acctTotals_add allLines (acctTotals_init accounts) in
  let activeAccounts :=
    sort (fun a b => byCode localeCompare (t_account a) (t_account b))
      (filter (fun a => gtb (totalDr a) 0%float || gtb (totalCr a) 0%float)
              (Js.values acctTotals)) in
  let totalDr :=
    fold_left (fun s a => (s + totalDr a)%float) activeAccounts 0%float in
  let totalCr :=
    fold_left (fun s a => (s + totalCr a)%float) activeAccounts 0%float in
  let balanced :=
    PrimFloat.ltb (PrimFloat.abs (totalDr - totalCr)%float) 0.01%float in
  mkTrialBalance activeAccounts totalDr totalCr balanced.
End Views.

End Binary64.

(* ================================================================== *)
(** * The pages that maintain the books *)

(** What an operation tells the user through [Toast]. *)
Inductive Toast :=
| ToastSuccess (message : string)
| ToastError (message : string)
| ToastWarning (message : string).

(** [saveNewAccount]: the four inputs of the dialog; [id] is what
    [Utils.uid('acc')] returns. *)
Definition saveNewAccount (id : string) (acc_code acc_name : string)
    (acc_type : AccountType) (acc_normal : NormalSide) (s : DB.Store)
  : DB.Store * Toast :=
  let code := Text.trim_string acc_code in
  let name := Text.trim_string acc_name in
  if String.eqb code "" || String.eqb name "" then
    (s, ToastError "Please fill in all fields")
  else
    (DB.saveAccount s (mkAccount id code name acc_type acc_normal 0),
     ToastSuccess "Account created successfully").

(** [saveEditAccount]: the stored account takes the four inputs and is
    saved again; without a stored account the assignment to [acc.code]
    throws, which is [None] here. *)
Definition saveEditAccount (id : string) (edit_code edit_name : string)
    (edit_type : AccountType) (edit_normal : NormalSide) (s : DB.Store)
  : option (DB.Store * Toast) :=
  match DB.getAccount s id with
  | None => None
  | Some acc =>
      Some (DB.saveAccount s
              (mkAccount (a_id acc) (Text.trim_string edit_code)
                         (Text.trim_string edit_name) edit_type edit_normal
                         (a_balance acc)),
            ToastSuccess "Account updated")
  end.

(** [deleteAccount] of the chart page; [confirmed] is the answer to the
    confirmation dialog. *)
Definition deleteAccount (confirmed : bool) (id : string) (s : DB.Store)
  : DB.Store * option Toast :=
  if existsb (fun l => String.eqb (l_accountId l) id) (DB.LINES s) then
    (s, Some (ToastError "Cannot delete: account has journal entries"))
  else if confirmed then
    (DB.deleteAccount s id, Some (ToastSuccess "Account deleted"))
  else (s, None).

(** [deleteEntry] of the journal page. *)
Definition deleteEntry (confirmed : bool) (id : string) (s : DB.Store)
  : DB.Store * option Toast :=
  if confirmed then
    (DB.deleteEntry (DB.deleteLinesForEntry s id) id,
     Some (ToastSuccess "Entry deleted"))
  else (s, None).

(* ================================================================== *)
(** * The lines of the entry form *)

(** A line as [renderJournal], [addJournalLine] and [clearJournal] create
    it. *)
Definition empty_line : DraftLine := mkDraftLine "" "" "" "".

Inductive LineField :=
| FieldAccountId
| FieldDescription
| FieldDebit
| FieldCredit.

Definition set_field (field : LineField) (value : string) (l : DraftLine)
  : DraftLine :=
  match field with
  | FieldAccountId =>
      mkDraftLine value (d_description l) (d_debit l) (d_credit l)
  | FieldDescription =>
      mkDraftLine (d_accountId l) value (d_debit l) (d_credit l)
  | FieldDebit =>
      mkDraftLine (d_accountId l) (d_description l) value (d_credit l)
  | FieldCredit =>
      mkDraftLine (d_accountId l) (d_description l) (d_debit l) value
  end.

(** [journalLines[idx][field] = value]; there must be a line at [idx]. *)
Fixpoint updateJournalLine (idx : nat) (field : LineField) (value : string)
    (journalLines : list DraftLine) {struct journalLines}
  : option (list DraftLine) :=
  match journalLines, idx with
  | [], _ => None
  | l :: rest, O => Some (set_field field value l :: rest)
  | l :: rest, S k =>
      option_map (cons l) (updateJournalLine k field value rest)
  end.

Definition addJournalLine (journalLines : list DraftLine) : list DraftLine :=
  journalLines ++ [empty_line].

(** [removeJournalLine]: nothing happens at two lines or fewer, else
    [splice(idx, 1)]. *)
Definition removeJournalLine (idx : nat) (journalLines : list DraftLine)
  : list DraftLine :=
  if (List.length journalLines <=? 2)%nat then journalLines
  else firstn idx journalLines ++ skipn (S idx) journalLines.

(** [clearJournal] on the form: two empty lines, today's date and an empty
    description; the reference stays. *)
Definition clearJournal (today : string) (d : Draft) : Draft :=
  mkDraft today (je_ref d) "" [empty_line; empty_line].

(* ================================================================== *)
(** * Importing the candidates of a document *)

(** What [Utils.uid], [Utils.today], [Date.now] and [new Date()] give
    while the [k]-th selected candidate is imported. *)
Record ImportFresh := mkImportFresh {
  imp_entryId : nat -> string;
  imp_debitLineId : nat -> string;
  imp_creditLineId : nat -> string;
  imp_today : nat -> string;
  imp_now : nat -> string;
  imp_createdAt : nat -> string
}.

(** [s.slice(0, n)]. *)
Definition slice0 (n : nat) (s : string) : string :=
  string_of_list_ascii (firstn n (list_ascii_of_string s)).

(** The candidates whose check box is ticked. *)
Fixpoint ticked (checked : nat -> bool) (idx : nat)
    (pdfPreviewData : list CandidateEntry) : list CandidateEntry :=
  match pdfPreviewData with
  | [] => []
  | e :: rest =>
      if checked idx then e :: ticked checked (S idx) rest
      else ticked checked (S idx) rest
  end.

(** One turn of the loop over the selected candidates. *)
Definition import_one (f : ImportFresh) (s : DB.Store) (k : nat)
    (e : CandidateEntry) : DB.Store :=
  match debitAccount e, creditAccount e with
  | Some dr, Some cr =>
      let entryId := imp_entryId f k in
      let s1 :=
        DB.saveEntry s
          (mkEntry entryId (imp_today f k) (slice0 80 (ce_description e))
                   (String.append "PDF-" (imp_now f k)) "Posted"
                   (imp_createdAt f k)) in
      let s2 :=
        DB.saveLine s1
          (mkLine (imp_debitLineId f k) entryId (a_id dr) (ce_description e)
                  (ce_amount e) 0 1) in
      DB.saveLine s2
        (mkLine (imp_creditLineId f k) entryId (a_id cr) (ce_description e)
                0 (ce_amount e) 2)
  | _, _ => s
  end.

Fixpoint import_loop (f : ImportFresh) (s : DB.Store) (k : nat)
    (selected : list CandidateEntry) : DB.Store :=
  match selected with
  | [] => s
  | e :: rest => import_loop f (import_one f s k e) (S k) rest
  end.

(** What [importSelectedEntries] leaves: the store, the number its
    success message reports ([None] for the warning that nothing is
    selected) and the preview data. *)
Record Imported := mkImported {
  imported_store : DB.Store;
  imported_count : option nat;
  imported_preview : list CandidateEntry
}.

Definition importSelectedEntries (f : ImportFresh) (checked : nat -> bool)
    (pdfPreviewData : list CandidateEntry) (s : DB.Store) : Imported :=
  match ticked checked 0 pdfPreviewData with
  | [] => mkImported s None pdfPreviewData
  | selected =>
      mkImported (import_loop f s 0 selected) (Some (List.length selected)) []
  end.

(* ================================================================== *)
(** * The dashboard and the chart page *)

Record Dashboard := mkDashboard {
  dash_totalAssets : Q;
  dash_totalLiab : Q;
  dash_totalRev : Q;
  dash_totalExp : Q;
  dash_netIncome : Q;
  dash_equity : Q;
  dash_recentEntries : list JournalEntry;
  dash_activeAccounts : nat;
  dash_highlight : bool;
  dash_balanced : bool
}.

(** [accounts.filter(a => a.type === t).reduce((s, a) => s + a.balance, 0)]. *)
Definition stored_total (t : AccountType) (accounts : list DB.BalanceRow)
  : Q :=
  fold_left (fun s a => s + a_balance (DB.acct a))
            (PDFReport.of_type t accounts) 0.

Section Pages.
Variable localeCompare : string -> string -> Z.

(** [renderDashboard]: the figures of the cards, the recent entries and
    the two tests of the balance line (the highlight and the label). *)
Definition renderDashboard (accounts : list DB.BalanceRow)
    (entries : list JournalEntry) : Dashboard :=
  let entries :=
    sort (fun a b => localeCompare (e_date b) (e_date a)) entries in
  let totalAssets := stored_total Asset accounts in
  let totalLiab := stored_total Liability accounts in
  let totalRev := stored_total Revenue accounts in
  let totalExp := stored_total Expense accounts in
  let netIncome := totalRev - totalExp in
  let equity := totalAssets - totalLiab in
  mkDashboard totalAssets totalLiab totalRev totalExp netIncome equity
    (firstn 7 entries)
    (List.length
       (filter (fun a => Qneb (a_balance (DB.acct a)) 0) accounts))
    (Qltb (Qabs (totalAssets - totalLiab - equity)) 0.01)
    (Qltb (Qabs (totalAssets - (totalLiab + equity))) 1).

(** [renderCOA]: one group for each type that has accounts, in the order
    of the page, each sorted by code. *)
Definition renderCOA (accounts : list DB.BalanceRow)
  : list (AccountType * list DB.BalanceRow) :=
  flat_map
    (fun type =>
       match sort (rowByCode localeCompare)
                  (PDFReport.of_type type accounts) with
       | [] => []
       | typeAccts => [(type, typeAccts)]
       end)
    [Asset; Liability; Equity; Revenue; Expense].
End Pages.

(* ================================================================== *)
(** * Text shown in the pages *)

(** What the markup of a text node holds for one character: the
    ampersand, the angle brackets and the no-break space are written as
    character references. *)
Definition text_markup (c : ascii) : list ascii :=
  if Ascii.eqb c "&"%char then list_ascii_of_string "&amp;"
  else if Ascii.eqb c "<"%char then list_ascii_of_string "&lt;"
  else if Ascii.eqb c ">"%char then list_ascii_of_string "&gt;"
  else if Ascii.eqb c "160"%char then list_ascii_of_string "&nbsp;"
  else [c].

(** [Utils.escHtml(s)]: the text becomes the [textContent] of a fresh
    element, whose [innerHTML] is returned. *)
Definition escHtml (s : string) : string :=
  string_of_list_ascii (flat_map text_markup (list_ascii_of_string s)).

(* ================================================================== *)
(** * Vocabulary of the statements *)

(** What a line adds to the raw balance of its account. *)
Definition net (l : JournalLine) : Q := l_debit l - l_credit l.

(** The lines of the account with the given id. *)
Definition lines_of (id : string) (lines : list JournalLine)
  : list JournalLine :=
  filter (fun l => String.eqb (l_accountId l) id) lines.

(** The raw balance of an account: the sum of its debits minus the sum of
    its credits. *)
Definition rawBalance (id : string) (lines : list JournalLine) : Q :=
  sumQ (map l_debit (lines_of id lines)) - sumQ (map l_credit (lines_of id lines)).

(** The display balance: the raw balance on the account's normal side. *)
Definition displayBalance (a : Account) (lines : list JournalLine) : Q :=
  signed (a_normal a) (rawBalance (a_id a) lines).

(** Filling a map from a list of records:
    [l.forEach(a => m[key a] = mk a)]. *)
Definition fill {A V : Type} (key : A -> string) (mk : A -> V)
    (m : Js.obj V) (l : list A) : Js.obj V :=
  fold_left (fun m a => Js.set m (key a) (mk a)) l m.

(** Accumulating into a map from a list of lines: a line updates the
    record of its key, if there is one. *)
Definition accumulate_step {L V : Type} (lk : L -> string)
    (upd : L -> V -> V) (m : Js.obj V) (l : L) : Js.obj V :=
  match Js.get m (lk l) with
  | None => m
  | Some v => Js.define m (lk l) (upd l v)
  end.

(** The updates the lines with key [k] make to a record, in order. *)
Definition updates {L V : Type} (lk : L -> string) (upd : L -> V -> V)
    (k : string) (ls : list L) (v : V) : V :=
  fold_left (fun v l => upd l v)
            (filter (fun l => String.eqb (lk l) k) ls) v.

(** Swapping the two sides of a line, and the normal side of an account. *)
Definition swap_sides (l : JournalLine) : JournalLine :=
  mkLine (l_id l) (l_entryId l) (l_accountId l) (l_description l)
         (l_credit l) (l_debit l) (l_seq l).

Definition flip_normal (a : Account) : Account :=
  mkAccount (a_id a) (a_code a) (a_name a) (a_type a)
            (match a_normal a with Debit => Credit | Credit => Debit end)
            (a_balance a).

(** An account without its derived balance. *)
Definition without_balance (a : Account) : Account := with_balance a 0.

(** The account ids of a store: the keys of the collection, which are
    pairwise distinct, as [Utils.uid] and the seed make them (none is the
    name [__proto__]). *)
Definition store_keys (accounts : list Account) : Prop :=
  NoDup (map a_id accounts) /\ ~ In "__proto__" (map a_id accounts).

(** What the lines do to a record of [balanceMap]. *)
Definition bump (lines : list JournalLine) (r : DB.BalanceRow)
  : DB.BalanceRow :=
  DB.mkRow (DB.acct r)
    (fold_left (fun s l => s + (or0 (l_debit l) - or0 (l_credit l)))
               (lines_of (a_id (DB.acct r)) lines) (DB.computed r)).

(** A small chart of accounts and a small journal, for the instances of
    the statements below. *)
Definition cash : Account :=
  mkAccount "acc_1000" "1000" "Cash & Cash Equivalents" Asset Debit 0.
Definition sales : Account :=
  mkAccount "acc_4000" "4000" "Sales Revenue" Revenue Credit 0.
Definition rent : Account :=
  mkAccount "acc_5200" "5200" "Rent Expense" Expense Debit 0.
Definition cogs : Account :=
  mkAccount "acc_5000" "5000" "Cost of Goods Sold" Expense Debit 0.
Definition payable : Account :=
  mkAccount "acc_2000" "2000" "Accounts Payable" Liability Credit 0.
Definition accumulated_depreciation : Account :=
  mkAccount "acc_1700" "1700" "Accumulated Depreciation" Asset Credit 0.
Definition depreciation_expense : Account :=
  mkAccount "acc_5400" "5400" "Depreciation Expense" Expense Debit 0.

Definition small_chart : list Account := [cash; payable; sales; cogs; rent].

(** Scenario A of the specification, then a rent payment. *)
Definition small_journal : list JournalLine :=
  [ mkLine "jl_1a" "je_1" "acc_1000" "Cash received" 500 0 1;
    mkLine "jl_1b" "je_1" "acc_4000" "Sales revenue" 0 500 2;
    mkLine "jl_2a" "je_2" "acc_5200" "Office rent" 200 0 1;
    mkLine "jl_2b" "je_2" "acc_1000" "Cash payment" 0 200 2 ].

(** Field values that [|| 0] turns into 0: a missing field, [null],
    [false], [NaN], 0, the BigInt 0 and the empty string. *)
Definition blank (v : Loose.value) : bool := negb (Loose.truthy v).




(** A field that is blank or a finite number, and the amount it stands
    for. *)
Definition tame (v : Loose.value) : bool :=
  match v with
  | Loose.Number (Loose.Fin _) => true
  | _ => blank v
  end.

Definition amount_of (v : Loose.value) : Q :=
  match v with
  | Loose.Number (Loose.Fin q) => q
  | _ => 0
  end.

Definition tame_line (l : Loose.RawLine) : bool :=
  tame (Loose.r_debit l) && tame (Loose.r_credit l).


(** The numeric line a tame line stands for. *)
Definition core_line (l : Loose.RawLine) : JournalLine :=
  mkLine "" "" (Loose.r_accountId l) ""
         (amount_of (Loose.r_debit l)) (amount_of (Loose.r_credit l)) 0.

(** Whether a line refers to one of the accounts. *)
Definition refers_to (accounts : list Account) (id : string) : bool :=
  existsb (String.eqb id) (map a_id accounts).

(** A record of the loose engine next to one of the numeric engine. *)
Definition same_balance (R : Loose.Row) (r : DB.BalanceRow) : Prop :=
  without_balance (Loose.acct R) = without_balance (DB.acct r)
  /\ Loose.computed R = Loose.Fin (DB.computed r)
  /\ Loose.balance R = Loose.Fin (a_balance (DB.acct r)).

(** The record of the loose engine that stands for a record of the numeric
    engine while the lines are folded. *)
Definition loosen (r : DB.BalanceRow) : Loose.Row :=
  Loose.mkRow (DB.acct r) (Loose.Fin (DB.computed r))
              (Loose.Fin (a_balance (DB.acct r))).

(** [a] is the first account of the list that satisfies [p]. *)
Definition first_such (p : Account -> bool) (accounts : list Account)
    (a : Account) : Prop :=
  exists before after,
    accounts = before ++ a :: after
    /\ p a = true
    /\ forall x, In x before -> p x = false.

(** The side of a candidate that takes an account of a given kind: the
    first such account, or the first account of the list when there is
    none of the kind. *)
Definition typed_pick (p : Account -> bool) (accounts : list Account)
    (side : option Account) : Prop :=
  exists a, side = Some a
    /\ (first_such p accounts a
        \/ ((forall x, In x accounts -> p x = false)
            /\ hd_error accounts = Some a)).

(** The cash side of a candidate: the first account whose code is 1000,
    and nothing when no account has that code. *)
Definition cash_pick (accounts : list Account) (side : option Account)
  : Prop :=
  match side with
  | Some a => first_such (PDFParser.code_is "1000") accounts a
  | None => forall x, In x accounts -> PDFParser.code_is "1000" x = false
  end.

(** The default-account policy, for one item and its candidate. *)
Definition follows_policy (accounts : list Account) (item : ClassifiedItem)
    (c : CandidateEntry) : Prop :=
  ce_description c = c_description item
  /\ ce_amount c = c_amount item
  /\ ce_category c = c_category item
  /\ selected c = true
  /\ match c_category item with
     | ItemAsset =>
         typed_pick (fun a => PDFParser.type_is Asset a
                              && negb (PDFParser.code_is "1000" a))
                    accounts (debitAccount c)
         /\ cash_pick accounts (creditAccount c)
     | ItemLiability =>
         cash_pick accounts (debitAccount c)
         /\ typed_pick (PDFParser.type_is Liability) accounts (creditAccount c)
     | ItemRevenue =>
         cash_pick accounts (debitAccount c)
         /\ typed_pick (PDFParser.type_is Revenue) accounts (creditAccount c)
     | ItemExpense =>
         typed_pick (PDFParser.type_is Expense) accounts (debitAccount c)
         /\ cash_pick accounts (creditAccount c)
     end.

(** Both accounts of a candidate are defined. *)
Definition both_defined (c : CandidateEntry) : Prop :=
  debitAccount c <> None /\ creditAccount c <> None.

(** An item of the classifier, for the instances below. *)
Definition rent_item : ClassifiedItem :=
  mkItem "Office Rent Expense" 1250 ItemExpense
         "Office Rent Expense $1,250.00".

(** A collation for the instances below: the order of the code units. For
    codes made of ASCII digits every collation agrees with it. *)
Definition codeUnitCompare (a b : string) : Z :=
  match String.compare a b with
  | Lt => (-1)%Z
  | Eq => 0%Z
  | Gt => 1%Z
  end.

(** The lines of an account that the ledger lists, under the date
    filter. *)
Definition ledger_lines (fromDate toDate : string)
    (entries : list JournalEntry) (id : string) (lines : list JournalLine)
  : list JournalLine :=
  if negb (String.eqb fromDate "") || negb (String.eqb toDate "")
  then filter (in_range (entryMap_of entries) fromDate toDate)
              (lines_of id lines)
  else lines_of id lines.

(** The cumulative sum of debit minus credit over the first [k] lines. *)
Definition running (k : nat) (accLines : list JournalLine) : Q :=
  sumQ (map net (firstn k accLines)).

(** One credit of 500 to the sales account. *)
Definition sale_line : JournalLine :=
  mkLine "jl_1b" "je_1" "acc_4000" "Sales revenue" 0 500 2.

(** The ids and times of one posting, for the instances below. *)
Definition fresh0 : Fresh :=
  mkFresh "je_new"
          (fun i => String.append "jl_new_" (String (ascii_of_nat (48 + i)) ""))
          "1700000000000" "2024-03-01T09:00:00.000Z".

Definition seeded : DB.Store := DB.mkStore DB.SEED_ACCOUNTS [] [].

(** A draft whose four lines balance, 150 against 150, while the third
    line has an amount and no account selected. *)
Definition draft_with_unassigned_line : Draft :=
  mkDraft "2024-03-01" "" "Office supplies"
    [ mkDraftLine "acc_5900" "Supplies" "100" "";
      mkDraftLine "acc_1000" "Cash paid" "" "100";
      mkDraftLine "" "Shipping" "50" "";
      mkDraftLine "acc_2000" "On account" "" "50" ].

(** A draft whose difference is exactly the tolerance. *)
Definition draft_off_by_tolerance : Draft :=
  mkDraft "2024-03-01" "" "Rounding"
    [ mkDraftLine "acc_5900" "Fee" "0.002" "";
      mkDraftLine "acc_1000" "Cash paid" "" "0.001" ].

(** Scenario B of the specification. *)
Definition draft_scenario_B : Draft :=
  mkDraft "2024-03-01" "" "Scenario B"
    [ mkDraftLine "acc_5900" "Fee" "300" "";
      mkDraftLine "acc_1000" "Cash paid" "" "299.99" ].

(** The persisted lines of an entry. *)
Definition lines_of_entry (entryId : string) (s : DB.Store)
  : list JournalLine :=
  filter (fun l => String.eqb (l_entryId l) entryId) (DB.LINES s).

(** The imbalance of a list of lines. *)
Definition imbalance (ls : list JournalLine) : Q :=
  Qabs (sumQ (map l_debit ls) - sumQ (map l_credit ls)).

(** The lines of an entry, and what it means for the posted entries to
    balance one by one. *)
Definition entry_lines (entryId : string) (lines : list JournalLine)
  : list JournalLine :=
  filter (fun l => String.eqb (l_entryId l) entryId) lines.

Definition every_entry_balances (lines : list JournalLine) : Prop :=
  forall entryId,
    sumQ (map l_debit (entry_lines entryId lines))
    == sumQ (map l_credit (entry_lines entryId lines)).

(** Every line belongs to an account of the chart. *)
Definition no_orphans (accounts : list Account) (lines : list JournalLine)
  : Prop :=
  forall l, In l lines -> In (l_accountId l) (map a_id accounts).

(** The side on which accounts of a type normally carry their balance. *)
Definition natural_side (t : AccountType) : NormalSide :=
  match t with
  | Asset | Expense => Debit
  | Liability | Equity | Revenue => Credit
  end.

(** No contra account: every account has the normal side of its type. *)
Definition naturally_sided (accounts : list Account) : Prop :=
  forall a, In a accounts -> a_normal a = natural_side (a_type a).

(** The sign with which the display balance of an account enters
    [TotalAssets - (TotalLiabilities + TotalEquity)]. *)
Definition equation_term (a : Account) (lines : list JournalLine) : Q :=
  match a_type a with
  | Asset | Expense => displayBalance a lines
  | Liability | Equity | Revenue => - displayBalance a lines
  end.

(** Depreciation of 1000: a debit to Depreciation Expense and a credit to
    Accumulated Depreciation, both accounts of the seeded chart. *)
Definition depreciation_entry : list JournalLine :=
  [ mkLine "jl_9a" "je_9" "acc_5400" "Depreciation" 1000 0 1;
    mkLine "jl_9b" "je_9" "acc_1700" "Accumulated depreciation" 0 1000 2 ].

(** The total of the display balances of the accounts of one type. *)
Definition type_total (t : AccountType) (rows : list DB.BalanceRow)
    (lines : list JournalLine) : Q :=
  sumQ (map (fun r => displayBalance (DB.acct r) lines)
            (PDFReport.of_type t rows)).

(** The lines that refer to an account of the chart. *)
Definition posted_to (accounts : list Account) (lines : list JournalLine)
  : list JournalLine :=
  filter (fun l => refers_to accounts (l_accountId l)) lines.

(** Amounts are not negative. *)
Definition nonnegative (lines : list JournalLine) : Prop :=
  forall l, In l lines -> 0 <= l_debit l /\ 0 <= l_credit l.

(** No account id is a name that objects inherit from [Object.prototype]. *)
Definition plain_ids (accounts : list Account) : Prop :=
  forall a, In a accounts -> Js.inherited (a_id a) = false.

(** A debit of 100 to cash whose credit went to an account that is no
    longer in the chart. *)
Definition orphaned_entry : list JournalLine :=
  [ mkLine "jl_3a" "je_3" "acc_1000" "Cash received" 100 0 1;
    mkLine "jl_3b" "je_3" "acc_gone" "Deleted account" 0 100 2 ].

(** The record the trial balance holds for an account. *)
Definition totals_of (lines : list JournalLine) (a : Account) : AcctTotals :=
  mkTotals a
    (fold_left (fun s l => s + or0 (l_debit l)) (lines_of (a_id a) lines) 0)
    (fold_left (fun s l => s + or0 (l_credit l)) (lines_of (a_id a) lines) 0).

(** The pair of totals the PDF trial balance holds for an account id that
    has lines. *)
Definition pdf_totals (k : string) (lines : list JournalLine) (start : Q * Q)
  : Q * Q :=
  (fold_left (fun s l => s + or0 (l_debit l)) (lines_of k lines) (fst start),
   fold_left (fun s l => s + or0 (l_credit l)) (lines_of k lines) (snd start)).

(** The amount a printed figure adds to a grand total. *)
Definition shown_amount (amount : option Q) : Q :=
  match amount with
  | Some x => x
  | None => 0
  end.




(** The rows of the small chart before any posting. *)
Definition small_rows : list DB.BalanceRow :=
  DB.getAccountBalances small_chart [].




Definition space : ascii := " "%char.


Definition two_amounts_item : ClassifiedItem :=
  mkItem "Office rent" 1250.00 ItemExpense "Office rent 9,000.00 1,250.00".

(** A request to a record collection, and a run of requests. *)
Inductive StoreOp (R : Type) :=
| OpPut (record : R)
| OpDel (id : string).
Arguments OpPut {R} record.
Arguments OpDel {R} id.

Definition apply_op {R : Type} (key : R -> string) (all : list R)
    (op : StoreOp R) : list R :=
  match op with
  | OpPut record => DB.put key all record
  | OpDel id => DB.del key all id
  end.

Definition run_ops {R : Type} (key : R -> string) (ops : list (StoreOp R))
    (all : list R) : list R :=
  fold_left (apply_op key) ops all.

(** The order of [seq] numbers. *)
Definition by_seq (a b : JournalLine) : Prop := (l_seq a <= l_seq b)%Z.

(** The lines of the other entries. *)
Definition lines_of_others (entryId : string) (lines : list JournalLine)
  : list JournalLine :=
  filter (fun l => negb (String.eqb (l_entryId l) entryId)) lines.

(** The entries of the small journal, and the small books. *)
Definition small_entries : list JournalEntry :=
  [ mkEntry "je_1" "2024-01-10" "Sales revenue received" "JE-001" "Posted"
            "2024-01-10T11:00:00Z";
    mkEntry "je_2" "2024-01-15" "Monthly rent payment" "JE-002" "Posted"
            "2024-01-15T09:00:00Z" ].

Definition small_books : DB.Store :=
  DB.mkStore small_chart small_entries small_journal.

(** The account the dialog creates from its inputs. *)
Definition new_account (id acc_code acc_name : string)
    (acc_type : AccountType) (acc_normal : NormalSide) : Account :=
  mkAccount id (Text.trim_string acc_code) (Text.trim_string acc_name)
            acc_type acc_normal 0.

(** The row of the balance engine for an account. *)
Definition balance_row (lines : list JournalLine) (a : Account)
  : DB.BalanceRow :=
  DB.normalize (bump lines (DB.mkRow a 0)).

(** What the user does on the entry form. *)
Inductive FormEvent :=
| AddLine
| RemoveLine (idx : nat)
| UpdateLine (idx : nat) (field : LineField) (value : string)
| ClearForm (today : string).

Definition with_lines (d : Draft) (journalLines : list DraftLine) : Draft :=
  mkDraft (je_date d) (je_ref d) (je_desc d) journalLines.

(** The form after an event; an update that throws changes nothing. *)
Definition form_step (d : Draft) (e : FormEvent) : Draft :=
  match e with
  | AddLine => with_lines d (addJournalLine (journalLines d))
  | RemoveLine idx => with_lines d (removeJournalLine idx (journalLines d))
  | UpdateLine idx field value =>
      match updateJournalLine idx field value (journalLines d) with
      | Some ls => with_lines d ls
      | None => d
      end
  | ClearForm today => clearJournal today d
  end.

(** The entry and the lines a posting writes. *)
Definition posted_entry (f : Fresh) (d : Draft) : JournalEntry :=
  mkEntry (fresh_entryId f) (je_date d) (Text.trim_string (je_desc d))
    (if String.eqb (Text.trim_string (je_ref d)) ""
     then String.append "JE-" (fresh_now f)
     else Text.trim_string (je_ref d))
    "Posted" (fresh_createdAt f).

Fixpoint posted_lines (f : Fresh) (i : nat) (validLines : list DraftLine)
  : list JournalLine :=
  match validLines with
  | [] => []
  | l :: rest =>
      mkLine (fresh_lineId f i) (fresh_entryId f) (d_accountId l)
             (d_description l) (Text.parsed_or0 (d_debit l))
             (Text.parsed_or0 (d_credit l)) (Z.of_nat i + 1)
      :: posted_lines f (S i) rest
  end.

(** The ids of a posting of [n] lines are new to the store and differ
    from one another. *)
Definition fresh_for (f : Fresh) (n : nat) (s : DB.Store) : Prop :=
  ~ In (fresh_entryId f) (map e_id (DB.ENTRIES s))
  /\ (forall l, In l (DB.LINES s) -> l_entryId l <> fresh_entryId f)
  /\ (forall i, (i < n)%nat ->
        ~ In (fresh_lineId f i) (map l_id (DB.LINES s)))
  /\ (forall i j, (i < j < n)%nat -> fresh_lineId f i <> fresh_lineId f j).

(** A balanced draft of two lines: rent paid in cash. *)
Definition draft_rent : Draft :=
  mkDraft "2024-03-01" " JE-010 " " Rent for March "
    [ mkDraftLine "acc_5200" "Rent" "200" "";
      mkDraftLine "acc_1000" "Cash paid" "" "200" ].

(** The two lines an imported candidate writes; none when one of its
    accounts is missing. *)
Definition import_lines (f : ImportFresh) (k : nat) (e : CandidateEntry)
  : list JournalLine :=
  match debitAccount e, creditAccount e with
  | Some dr, Some cr =>
      [ mkLine (imp_debitLineId f k) (imp_entryId f k) (a_id dr)
               (ce_description e) (ce_amount e) 0 1;
        mkLine (imp_creditLineId f k) (imp_entryId f k) (a_id cr)
               (ce_description e) 0 (ce_amount e) 2 ]
  | _, _ => []
  end.

Fixpoint imported_lines (f : ImportFresh) (k : nat)
    (selected : list CandidateEntry) : list JournalLine :=
  match selected with
  | [] => []
  | e :: rest => import_lines f k e ++ imported_lines f (S k) rest
  end.

(** The line ids handed out for the candidates [k], ..., [k + n - 1]. *)
Definition import_line_ids (f : ImportFresh) (k n : nat) : list string :=
  flat_map (fun i => [imp_debitLineId f i; imp_creditLineId f i]) (seq k n).

(** The line ids of an import are new to the store and differ from one
    another. *)
Definition import_fresh (f : ImportFresh) (k n : nat)
    (lines : list JournalLine) : Prop :=
  NoDup (import_line_ids f k n)
  /\ forall id, In id (import_line_ids f k n) -> ~ In id (map l_id lines).

(** Ids for the instances below. *)
Definition import_fresh0 : ImportFresh :=
  mkImportFresh
    (fun k => String.append "je_pdf_" (String (ascii_of_nat (48 + k)) ""))
    (fun k => String.append "jl_pdf_dr_" (String (ascii_of_nat (48 + k)) ""))
    (fun k => String.append "jl_pdf_cr_" (String (ascii_of_nat (48 + k)) ""))
    (fun _ => "2024-03-01")
    (fun _ => "1709283600000")
    (fun _ => "2024-03-01T09:00:00.000Z").

(** A chart without a cash account. *)
Definition chart_without_cash : list Account := [rent; sales].

(** The last row of a ledger section. *)
Definition closing_row (s : GLSection) : option GLRow :=
  nth_error (gl_rows s) (List.length (gl_rows s) - 1).

(** The characters of a text, and the line feed. *)
Definition chars (s : string) : list ascii := list_ascii_of_string s.

Definition newline : ascii := "010"%char.



(** The test of the trial balance for listing an account. *)
Definition active_totals (t : AcctTotals) : bool :=
  Qgtb (totalDr t) 0 || Qgtb (totalCr t) 0.

(** [s] starts with [p]. *)
Fixpoint starts_with (p s : list ascii) : bool :=
  match p, s with
  | [], _ => true
  | _ :: _, [] => false
  | a :: p', b :: s' => Ascii.eqb a b && starts_with p' s'
  end.

(** Reading character references back: [skip] counts the characters of
    the current reference still to pass. *)
Fixpoint unescape (skip : nat) (s : list ascii) : list ascii :=
  match s with
  | [] => []
  | c :: rest =>
      match skip with
      | S k => unescape k rest
      | O =>
          if starts_with (chars "&amp;") s
          then "&"%char :: unescape 4 rest
          else if starts_with (chars "&lt;") s
          then "<"%char :: unescape 3 rest
          else if starts_with (chars "&gt;") s
          then ">"%char :: unescape 3 rest
          else if starts_with (chars "&nbsp;") s
          then "160"%char :: unescape 5 rest
          else c :: unescape 0 rest
      end
  end.

(** The Expense accounts whose code is 5000. *)
Definition cogs_accounts (rows : list DB.BalanceRow) : list DB.BalanceRow :=
  filter (PDFReport.has_code "5000") (PDFReport.of_type Expense rows).

(** The lines of an account, the record [getAccountBalances] computes for
    it and the record of the trial balance, on binary64 numbers: each sum
    is taken line by line in the order of the store. *)
Definition lines_of64 (id : string) (lines : list Binary64.Line)
  : list Binary64.Line :=
  filter (fun l => String.eqb (Binary64.l_accountId l) id) lines.

Definition computed64 (a : Account) (lines : list Binary64.Line) : float :=
  fold_left
    (fun s l =>
       (s + (Binary64.or0 (Binary64.l_debit l)
             - Binary64.or0 (Binary64.l_credit l)))%float)
    (lines_of64 (a_id a) lines) 0%float.

Definition row64 (lines : list Binary64.Line) (a : Account) : Binary64.Row :=
  Binary64.mkRow a (computed64 a lines)
    (Binary64.signed (a_normal a) (computed64 a lines)).

Definition totals64 (lines : list Binary64.Line) (a : Account)
  : Binary64.AcctTotals :=
  Binary64.mkTotals a
    (fold_left (fun s l => (s + Binary64.or0 (Binary64.l_debit l))%float)
               (lines_of64 (a_id a) lines) 0%float)
    (fold_left (fun s l => (s + Binary64.or0 (Binary64.l_credit l))%float)
               (lines_of64 (a_id a) lines) 0%float).

Definition active64 (t : Binary64.AcctTotals) : bool :=
  Binary64.gtb (Binary64.totalDr t) 0%float
  || Binary64.gtb (Binary64.totalCr t) 0%float.

(** Three lines of the cash account whose amounts cancel: 0.1 in, 0.3 out,
    0.2 in. *)
Definition cancelling_lines : list Binary64.Line :=
  [ Binary64.mkLine "je_1" "acc_1000" 0.1%float 0%float;
    Binary64.mkLine "je_2" "acc_1000" 0%float 0.3%float;
    Binary64.mkLine "je_3" "acc_1000" 0.2%float 0%float ].

(** Three balanced entries: 0.1, 0.2 and 0.3 received in cash, the first
    one borrowed, the other two for sales. *)
Definition three_receipts : list Binary64.Line :=
  [ Binary64.mkLine "je_1" "acc_1000" 0.1%float 0%float;
    Binary64.mkLine "je_1" "acc_2000" 0%float 0.1%float;
    Binary64.mkLine "je_2" "acc_1000" 0.2%float 0%float;
    Binary64.mkLine "je_2" "acc_4000" 0%float 0.2%float;
    Binary64.mkLine "je_3" "acc_1000" 0.3%float 0%float;
    Binary64.mkLine "je_3" "acc_4000" 0%float 0.3%float ].

(** The sum of a list of binary64 amounts, taken left to right. *)
Definition sum64 (l : list float) : float :=
  fold_left PrimFloat.add l 0%float.

(** The debits and the credits of an account, and the test with which the
    on-screen trial balance keeps it: one of the two above zero. *)
Definition account_debits (a : Account) (lines : list JournalLine) : Q :=
  sumQ (map l_debit (lines_of (a_id a) lines)).

Definition account_credits (a : Account) (lines : list JournalLine) : Q :=
  sumQ (map l_credit (lines_of (a_id a) lines)).

Definition active_account (lines : list JournalLine) (a : Account) : bool :=
  Qgtb (account_debits a lines) 0 || Qgtb (account_credits a lines) 0.

(** A total as the PDF trial balance counts it: only when above zero. *)
Definition above_zero (x : Q) : Q := if Qgtb x 0 then x else 0.

(** A receipt of 100 in cash entered with a negative other side: the cash
    line carries a debit of 100 and a credit of -50, and sales a credit of
    150. The form posts it: each line has an amount above zero and the
    two sides both sum to 100. *)
Definition negative_side_entry : list JournalLine :=
  [ mkLine "jl_4a" "je_4" "acc_1000" "Cash received" 100 (-50) 1;
    mkLine "jl_4b" "je_4" "acc_4000" "Sale" 0 150 2 ].

(** The debits and the credits of an entry, summed left to right on
    binary64 numbers. *)
Definition entry_sums64 (entryId : string) (lines : list Binary64.Line)
  : float * float :=
  let ls := filter (fun l => String.eqb (Binary64.l_entryId l) entryId) lines in
  (sum64 (map Binary64.l_debit ls), sum64 (map Binary64.l_credit ls)).
















(** Two binary64 numbers are the same number: equal (a zero of either
    sign is zero), or both [NaN]. *)
Definition same_number (x y : float) : bool :=
  PrimFloat.eqb x y || (PrimFloat.is_nan x && PrimFloat.is_nan y).

(** The same on the specification of binary64. *)
Definition SFsame (a b : spec_float) : Prop :=
  match a, b with
  | S754_zero _, S754_zero _ => True
  | _, _ => a = b
  end.

Definition swap_sides64 (l : Binary64.Line) : Binary64.Line :=
  Binary64.mkLine (Binary64.l_entryId l) (Binary64.l_accountId l)
                  (Binary64.l_credit l) (Binary64.l_debit l).

(** A receipt of 0.1, then a line that carries a debit of 0.2 and a credit
    of 0.3. *)
Definition two_sided_lines : list Binary64.Line :=
  [ Binary64.mkLine "je_1" "acc_1000" 0.1%float 0%float;
    Binary64.mkLine "je_2" "acc_1000" 0.2%float 0.3%float ].


(* ================================================================== *)
(** * Amounts: comparisons and sums *)

Lemma or0_eq (x : Q) : or0 x == x.
Proof.
  unfold or0. destruct (Qeq_bool x 0) eqn:E; [| reflexivity].
  apply Qeq_bool_eq in E. symmetry. exact E.
Qed.

Lemma Qltb_lt (x y : Q) : Qltb x y = true <-> x < y.
Proof.
  unfold Qltb. rewrite negb_true_iff. split; intros H.
  - apply Qnot_le_lt. intros L. apply Qle_bool_iff in L. congruence.
  - destruct (Qle_bool y x) eqn:E; [| reflexivity].
    apply Qle_bool_iff in E. exfalso. exact (Qlt_not_le _ _ H E).
Qed.

Lemma Qltb_ge (x y : Q) : Qltb x y = false <-> y <= x.
Proof.
  unfold Qltb. rewrite negb_false_iff. apply Qle_bool_iff.
Qed.

Lemma Qgtb_gt (x y : Q) : Qgtb x y = true <-> y < x.
Proof. unfold Qgtb. apply Qltb_lt. Qed.

Lemma Qgtb_le (x y : Q) : Qgtb x y = false <-> x <= y.
Proof. unfold Qgtb. apply Qltb_ge. Qed.

Lemma Qneb_neq (x y : Q) : Qneb x y = true <-> ~ x == y.
Proof.
  unfold Qneb. rewrite negb_true_iff. split; intros H.
  - apply Qeq_bool_neq. exact H.
  - destruct (Qeq_bool x y) eqn:E; [| reflexivity].
    apply Qeq_bool_eq in E. contradiction.
Qed.

Lemma Qneb_eq (x y : Q) : Qneb x y = false <-> x == y.
Proof.
  unfold Qneb. rewrite negb_false_iff. apply Qeq_bool_iff.
Qed.

Lemma signed_neg (n : NormalSide) (x : Q) :
  signed n (- x) == - signed n x.
Proof. destruct n; simpl; ring. Qed.

Lemma signed_eq (n : NormalSide) (x y : Q) :
  x == y -> signed n x == signed n y.
Proof. intros H. destruct n; simpl; rewrite H; reflexivity. Qed.

#[global] Instance signed_Proper (n : NormalSide) :
  Proper (Qeq ==> Qeq) (signed n).
Proof. intros x y H. apply signed_eq, H. Qed.


Lemma sumQ_app (l1 l2 : list Q) : sumQ (l1 ++ l2) == sumQ l1 + sumQ l2.
Proof.
  induction l1 as [| x l1 IH]; simpl; [ring |]. rewrite IH. ring.
Qed.

Lemma sumQ_perm (l1 l2 : list Q) : Permutation l1 l2 -> sumQ l1 == sumQ l2.
Proof.
  induction 1; simpl.
  - reflexivity.
  - rewrite IHPermutation. reflexivity.
  - ring.
  - rewrite IHPermutation1. exact IHPermutation2.
Qed.

Lemma sumQ_map_ext {A : Type} (f g : A -> Q) (l : list A) :
  (forall x, In x l -> f x == g x) -> sumQ (map f l) == sumQ (map g l).
Proof.
  induction l as [| x l IH]; simpl; intros H; [reflexivity |].
  rewrite (H x (or_introl eq_refl)), IH; [reflexivity |].
  intros y Hy. apply H. right. exact Hy.
Qed.

Lemma sumQ_map_perm {A : Type} (f : A -> Q) (l1 l2 : list A) :
  Permutation l1 l2 -> sumQ (map f l1) == sumQ (map f l2).
Proof. intros H. apply sumQ_perm, Permutation_map, H. Qed.

Lemma sumQ_map_plus {A : Type} (f g : A -> Q) (l : list A) :
  sumQ (map (fun x => f x + g x) l) == sumQ (map f l) + sumQ (map g l).
Proof.
  induction l as [| x l IH]; simpl; [ring |]. rewrite IH. ring.
Qed.

Lemma sumQ_map_opp {A : Type} (f : A -> Q) (l : list A) :
  sumQ (map (fun x => - f x) l) == - sumQ (map f l).
Proof.
  induction l as [| x l IH]; simpl; [ring |]. rewrite IH. ring.
Qed.

Lemma sumQ_map_zero {A : Type} (f : A -> Q) (l : list A) :
  (forall x, In x l -> f x == 0) -> sumQ (map f l) == 0.
Proof.
  induction l as [| x l IH]; simpl; intros H; [reflexivity |].
  rewrite (H x (or_introl eq_refl)), IH; [ring |].
  intros y Hy. apply H. right. exact Hy.
Qed.

Lemma sumQ_nonneg (l : list Q) : (forall x, In x l -> 0 <= x) -> 0 <= sumQ l.
Proof.
  induction l as [| x l IH]; simpl; intros H; [apply Qle_refl |].
  assert (0 <= x) by (apply H; left; reflexivity).
  assert (0 <= sumQ l) by (apply IH; intros y Hy; apply H; right; exact Hy).
  lra.
Qed.

(** A [reduce] or [forEach] that adds [f] of each element. *)
Lemma fold_left_add {A : Type} (f : A -> Q) (l : list A) (init : Q) :
  fold_left (fun s x => s + f x) l init == init + sumQ (map f l).
Proof.
  revert init. induction l as [| x l IH]; intros init; simpl; [ring |].
  rewrite IH. ring.
Qed.

Lemma fold_left_sub {A : Type} (f : A -> Q) (l : list A) (init : Q) :
  fold_left (fun s x => s - f x) l init == init - sumQ (map f l).
Proof.
  revert init. induction l as [| x l IH]; intros init; simpl; [ring |].
  rewrite IH. ring.
Qed.

(** A [forEach] that adds the balances that are not zero adds them all. *)
Lemma fold_left_add_nonzero {A : Type} (f : A -> Q) (l : list A) (init : Q) :
  fold_left (fun s x => if Qneb (f x) 0 then s + f x else s) l init
  == init + sumQ (map f l).
Proof.
  revert init. induction l as [| x l IH]; intros init; simpl; [ring |].
  rewrite IH. destruct (Qneb (f x) 0) eqn:E; [ring |].
  apply Qneb_eq in E. rewrite E. ring.
Qed.

Lemma fold_left_net (ls : list JournalLine) (init : Q) :
  fold_left (fun s l => s + (or0 (l_debit l) - or0 (l_credit l))) ls init
  == init + sumQ (map net ls).
Proof.
  rewrite (fold_left_add (fun l => or0 (l_debit l) - or0 (l_credit l))).
  apply Qplus_comp; [reflexivity |]. apply sumQ_map_ext. intros l _.
  unfold net. rewrite !or0_eq. reflexivity.
Qed.

Lemma fold_left_net' (ls : list JournalLine) (init : Q) :
  fold_left (fun s l => s + or0 (l_debit l) - or0 (l_credit l)) ls init
  == init + sumQ (map net ls).
Proof.
  revert init. induction ls as [| l ls IH]; intros init; simpl; [ring |].
  rewrite IH. unfold net. rewrite !or0_eq. ring.
Qed.

Lemma sumQ_net (ls : list JournalLine) :
  sumQ (map net ls) == sumQ (map l_debit ls) - sumQ (map l_credit ls).
Proof.
  induction ls as [| l ls IH]; simpl; [ring |]. rewrite IH. unfold net. ring.
Qed.

(* ================================================================== *)
(** * Objects used as maps *)

Section ObjFacts.
Context {V : Type}.
Implicit Types (o : Js.obj V) (k : string) (v : V).

Lemma get_None_keys o k : Js.get o k = None <-> ~ In k (Js.keys_of o).
Proof.
  induction o as [| [k' v'] o IH]; simpl.
  - tauto.
  - destruct (String.eqb k' k) eqn:E.
    + apply String.eqb_eq in E. split; [discriminate | tauto].
    + apply String.eqb_neq in E. rewrite IH. tauto.
Qed.


Lemma keys_define_old o k v :
  In k (Js.keys_of o) -> Js.keys_of (Js.define o k v) = Js.keys_of o.
Proof.
  induction o as [| [k' v'] o IH]; simpl; [tauto |].
  destruct (String.eqb k' k) eqn:E; simpl.
  - apply String.eqb_eq in E. subst. reflexivity.
  - apply String.eqb_neq in E. intros [H | H]; [contradiction |].
    rewrite IH by exact H. reflexivity.
Qed.

Lemma keys_define_new o k v :
  ~ In k (Js.keys_of o) -> Js.define o k v = o ++ [(k, v)].
Proof.
  induction o as [| [k' v'] o IH]; simpl; [reflexivity |].
  intros H. destruct (String.eqb k' k) eqn:E.
  - apply String.eqb_eq in E. tauto.
  - rewrite IH by tauto. reflexivity.
Qed.

(** Overwriting the value of a key that occurs once rewrites that
    property and no other. *)
Lemma define_map (f : string -> V -> V) o k v :
  NoDup (Js.keys_of o) ->
  Js.get o k = Some v ->
  (forall k' v', In (k', v') o -> k' <> k -> f k' v' = v') ->
  Js.define o k (f k v) = map (fun kv => (fst kv, f (fst kv) (snd kv))) o.
Proof.
  induction o as [| [k' v'] o IH]; simpl; [discriminate |].
  intros ND G F. inversion ND as [| ? ? Hnin ND']. subst.
  destruct (String.eqb k' k) eqn:E.
  - apply String.eqb_eq in E. subst k'. inversion G. subst v'.
    f_equal. symmetry.
    rewrite <- (map_id o) at 2. apply map_ext_in. intros [k2 v2] Hin. simpl.
    f_equal. apply F; [right; exact Hin |].
    intros ->. apply Hnin. apply (in_map fst) in Hin. exact Hin.
  - apply String.eqb_neq in E. f_equal.
    + f_equal. symmetry. apply F; [left; reflexivity | exact E].
    + apply IH; [exact ND' | exact G |].
      intros k2 v2 Hin. apply F. right. exact Hin.
Qed.

Lemma insert_index_perm (p : N * V) (l : list (N * V)) :
  Permutation (Js.insert_index p l) (p :: l).
Proof.
  induction l as [| q l IH]; simpl; [apply Permutation_refl |].
  destruct (fst p <=? fst q)%N; [apply Permutation_refl |].
  eapply perm_trans; [apply perm_skip, IH | apply perm_swap].
Qed.

Lemma sort_index_perm (l : list (N * V)) :
  Permutation (fold_right Js.insert_index [] l) l.
Proof.
  induction l as [| p l IH]; simpl; [apply perm_nil |].
  eapply perm_trans; [apply insert_index_perm | apply perm_skip, IH].
Qed.

(** [Object.values] lists every own value once. *)
Lemma values_perm o : Permutation (Js.values o) (map snd o).
Proof.
  unfold Js.values.
  eapply perm_trans.
  { apply Permutation_app_tail, Permutation_map, sort_index_perm. }
  induction o as [| [k v] o IH]; simpl; [apply perm_nil |].
  unfold Js.index_props, Js.named_props in *. simpl.
  destruct (Js.array_index k); simpl.
  - apply perm_skip, IH.
  - eapply perm_trans; [| apply perm_skip, IH].
    apply Permutation_sym, Permutation_middle.
Qed.

(** Without array-index keys, [Object.values] keeps the creation order. *)
Lemma values_named o :
  (forall k, In k (Js.keys_of o) -> Js.array_index k = None) ->
  Js.values o = map snd o.
Proof.
  unfold Js.values, Js.index_props, Js.named_props.
  induction o as [| [k v] o IH]; simpl; intros H; [reflexivity |].
  rewrite (H k (or_introl eq_refl)). simpl.
  assert (H' : forall k0, In k0 (Js.keys_of o) -> Js.array_index k0 = None)
    by (intros k0 Hk; apply H; right; exact Hk).
  specialize (IH H'). simpl in IH.
  destruct (flat_map _ o) eqn:E in IH |- *.
  - simpl in *. f_equal. exact IH.
  - exfalso. clear IH. revert E. clear -H'.
    induction o as [| [k2 v2] o IH]; simpl; [discriminate |].
    rewrite (H' k2 (or_introl eq_refl)). simpl.
    apply IH. intros k0 Hk. apply H'. right. exact Hk.
Qed.
End ObjFacts.

(** [Object.values] commutes with a change of the values that keeps the
    keys. *)
Lemma values_map_snd {V W : Type} (g : V -> W) (o : Js.obj V) :
  Js.values (map (fun kv => (fst kv, g (snd kv))) o) = map g (Js.values o).
Proof.
  unfold Js.values. rewrite map_app. f_equal.
  - assert (E : Js.index_props (map (fun kv => (fst kv, g (snd kv))) o)
                = map (fun nv => (fst nv, g (snd nv))) (Js.index_props o)).
    { unfold Js.index_props. induction o as [| [k v] o IH]; simpl; [reflexivity |].
      destruct (Js.array_index k); simpl; rewrite IH; reflexivity. }
    rewrite E. clear E.
    assert (S : forall l : list (N * V),
               fold_right Js.insert_index []
                 (map (fun nv => (fst nv, g (snd nv))) l)
               = map (fun nv => (fst nv, g (snd nv)))
                   (fold_right Js.insert_index [] l)).
    { induction l as [| p l IH]; simpl; [reflexivity |].
      rewrite IH. clear IH.
      induction (fold_right Js.insert_index [] l) as [| q r IHr]; simpl;
        [reflexivity |].
      destruct (fst p <=? fst q)%N; simpl; [reflexivity |].
      rewrite IHr. reflexivity. }
    rewrite S, !map_map. reflexivity.
  - unfold Js.named_props. induction o as [| [k v] o IH]; simpl; [reflexivity |].
    destruct (Js.array_index k); simpl; rewrite IH; reflexivity.
Qed.

Lemma keys_map_snd {V W : Type} (g : string * V -> W) (o : Js.obj V) :
  Js.keys_of (map (fun kv => (fst kv, g kv)) o) = Js.keys_of o.
Proof.
  unfold Js.keys_of. rewrite map_map. reflexivity.
Qed.

Section Fill.
Context {A V : Type} (key : A -> string) (mk : A -> V).

Local Abbreviation fill := (fill key mk).

Lemma keys_define_NoDup (m : Js.obj V) (k : string) (v : V) :
  NoDup (Js.keys_of m) -> NoDup (Js.keys_of (Js.define m k v)).
Proof.
  intros ND. destruct (in_dec string_dec k (Js.keys_of m)) as [Hin | Hnin].
  - rewrite keys_define_old by exact Hin. exact ND.
  - rewrite keys_define_new by exact Hnin. unfold Js.keys_of.
    rewrite map_app. simpl.
    apply NoDup_app; [exact ND | repeat constructor; simpl; tauto |].
    intros x Hx [<- | []]. exact (Hnin Hx).
Qed.

Lemma in_define (m : Js.obj V) (k : string) (v : V) (kv : string * V) :
  In kv (Js.define m k v) -> In kv m \/ kv = (k, v).
Proof.
  induction m as [| [k' v'] m IH]; simpl.
  - intros [<- | []]. right. reflexivity.
  - destruct (String.eqb k' k); simpl.
    + intros [<- | H]; [right; reflexivity | left; right; exact H].
    + intros [<- | H]; [left; left; reflexivity |].
      destruct (IH H) as [H' | H']; [left; right; exact H' | right; exact H'].
Qed.

Lemma fill_NoDup (l : list A) (m : Js.obj V) :
  NoDup (Js.keys_of m) -> NoDup (Js.keys_of (fill m l)).
Proof.
  revert m. induction l as [| a l IH]; intros m ND; simpl; [exact ND |].
  apply IH. unfold Js.set. destruct (String.eqb (key a) "__proto__");
    [exact ND | apply keys_define_NoDup, ND].
Qed.

Lemma fill_In (l : list A) (m : Js.obj V) (kv : string * V) :
  In kv (fill m l) ->
  In kv m \/ exists a, In a l /\ kv = (key a, mk a).
Proof.
  revert m. induction l as [| a l IH]; intros m; simpl; [tauto |].
  intros H. destruct (IH _ H) as [H' | [b [Hb ->]]].
  - unfold Js.set in H'. destruct (String.eqb (key a) "__proto__").
    + left. exact H'.
    + destruct (in_define _ _ _ _ H') as [H2 | ->];
        [left; exact H2 | right; exists a; split; [left; reflexivity | reflexivity]].
  - right. exists b. split; [right; exact Hb | reflexivity].
Qed.

(** With distinct keys, none of them [__proto__], the map lists the
    records in their order. *)
Lemma fill_distinct (l : list A) (m : Js.obj V) :
  NoDup (Js.keys_of m ++ map key l) ->
  ~ In "__proto__" (map key l) ->
  fill m l = m ++ map (fun a => (key a, mk a)) l.
Proof.
  revert m. induction l as [| a l IH]; intros m ND NP; simpl.
  - rewrite app_nil_r. reflexivity.
  - simpl in NP. unfold Js.set.
    destruct (String.eqb (key a) "__proto__") eqn:E.
    { apply String.eqb_eq in E. exfalso. apply NP. left. exact E. }
    assert (Hnin : ~ In (key a) (Js.keys_of m)).
    { intros Hin. apply NoDup_remove_2 in ND. apply ND.
      apply in_or_app. left. exact Hin. }
    rewrite keys_define_new by exact Hnin.
    rewrite IH.
    + rewrite <- app_assoc. reflexivity.
    + unfold Js.keys_of. rewrite map_app. simpl. rewrite <- app_assoc. simpl.
      exact ND.
    + tauto.
Qed.
End Fill.

Section Accumulate.
Context {L V : Type} (lk : L -> string) (upd : L -> V -> V).

Local Abbreviation accumulate_step := (accumulate_step lk upd).
Local Abbreviation updates := (updates lk upd).

Lemma accumulate_map (ls : list L) (m : Js.obj V) :
  NoDup (Js.keys_of m) ->
  fold_left accumulate_step ls m
  = map (fun kv => (fst kv, updates (fst kv) ls (snd kv))) m.
Proof.
  revert m. induction ls as [| l ls IH]; intros m ND; simpl.
  - unfold updates. simpl. rewrite <- (map_id m) at 1.
    apply map_ext. intros [k v]. reflexivity.
  - unfold accumulate_step at 2.
    destruct (Js.get m (lk l)) as [v |] eqn:G.
    + pose (f := fun (k' : string) (v' : V) =>
                   if String.eqb (lk l) k' then upd l v' else v').
      assert (Hf : upd l v = f (lk l) v)
        by (unfold f; rewrite String.eqb_refl; reflexivity).
      rewrite Hf, (define_map f m (lk l) v ND G).
      * rewrite IH by (rewrite (keys_map_snd (fun kv => f (fst kv) (snd kv)));
                       exact ND).
        rewrite map_map. apply map_ext. intros [k' v']. simpl.
        unfold updates, f. simpl.
        destruct (String.eqb (lk l) k'); reflexivity.
      * intros k' v' _ Hne. unfold f.
        destruct (String.eqb (lk l) k') eqn:E; [| reflexivity].
        apply String.eqb_eq in E. congruence.
    + rewrite IH by exact ND. apply map_ext_in. intros [k' v'] Hin. simpl.
      unfold updates. simpl.
      destruct (String.eqb (lk l) k') eqn:E; [| reflexivity].
      apply String.eqb_eq in E. subst k'.
      apply get_None_keys in G. exfalso. apply G.
      apply (in_map fst) in Hin. exact Hin.
Qed.
End Accumulate.

Section FillMap.
Context {A V W : Type} (key : A -> string) (mk : A -> V) (mk' : A -> W)
        (h : A -> A) (hv : V -> W).
Hypothesis key_h : forall a, key (h a) = key a.
Hypothesis mk_h : forall a, mk' (h a) = hv (mk a).

Lemma define_map_snd (m : Js.obj V) (k : string) (v : V) :
  Js.define (map (fun kv => (fst kv, hv (snd kv))) m) k (hv v)
  = map (fun kv => (fst kv, hv (snd kv))) (Js.define m k v).
Proof.
  induction m as [| [k' v'] m IH]; simpl; [reflexivity |].
  destruct (String.eqb k' k); simpl; [reflexivity |].
  rewrite IH. reflexivity.
Qed.

(** Filling from changed records whose keys are the same gives the same
    map with changed values. *)
Lemma fill_map (l : list A) (m : Js.obj V) :
  fill key mk' (map (fun kv => (fst kv, hv (snd kv))) m) (map h l)
  = map (fun kv => (fst kv, hv (snd kv))) (fill key mk m l).
Proof.
  revert m. induction l as [| a l IH]; intros m; simpl; [reflexivity |].
  unfold fill in *. simpl. rewrite <- IH. f_equal.
  unfold Js.set. rewrite key_h.
  destruct (String.eqb (key a) "__proto__"); [reflexivity |].
  rewrite mk_h. apply define_map_snd.
Qed.
End FillMap.

Lemma get_define_eq {V : Type} (m : Js.obj V) (k : string) (v : V) :
  Js.get (Js.define m k v) k = Some v.
Proof.
  induction m as [| [k' v'] m IH]; simpl.
  - rewrite String.eqb_refl. reflexivity.
  - destruct (String.eqb k' k) eqn:E; simpl.
    + rewrite String.eqb_refl. reflexivity.
    + rewrite E. exact IH.
Qed.

Lemma get_define_neq {V : Type} (m : Js.obj V) (k k0 : string) (v : V) :
  k <> k0 -> Js.get (Js.define m k v) k0 = Js.get m k0.
Proof.
  intros Hne. induction m as [| [k' v'] m IH]; simpl.
  - destruct (String.eqb k k0) eqn:E; [| reflexivity].
    apply String.eqb_eq in E. contradiction.
  - destruct (String.eqb k' k) eqn:E; simpl.
    + apply String.eqb_eq in E. subst k'.
      destruct (String.eqb k k0) eqn:E2; [| reflexivity].
      apply String.eqb_eq in E2. contradiction.
    + destruct (String.eqb k' k0); [reflexivity | exact IH].
Qed.

(* ================================================================== *)
(** * The balance engine *)

Lemma balanceMap_init_fill (accounts : list Account) :
  DB.balanceMap_init accounts
  = fill a_id (fun a => DB.mkRow a 0) [] accounts.
Proof. reflexivity. Qed.

Lemma balanceMap_init_NoDup (accounts : list Account) :
  NoDup (Js.keys_of (DB.balanceMap_init accounts)).
Proof. rewrite balanceMap_init_fill. apply fill_NoDup. constructor. Qed.

Lemma balanceMap_init_In (accounts : list Account) kr :
  In kr (DB.balanceMap_init accounts) ->
  exists a, In a accounts /\ kr = (a_id a, DB.mkRow a 0).
Proof.
  rewrite balanceMap_init_fill. intros H.
  destruct (fill_In _ _ _ _ _ H) as [[] | H']. exact H'.
Qed.

Lemma updates_computed (k : string) (ls : list JournalLine) (r : DB.BalanceRow) :
  updates l_accountId
    (fun l r => DB.mkRow (DB.acct r)
                  (DB.computed r + (or0 (l_debit l) - or0 (l_credit l))))
    k ls r
  = DB.mkRow (DB.acct r)
      (fold_left (fun s l => s + (or0 (l_debit l) - or0 (l_credit l)))
                 (lines_of k ls) (DB.computed r)).
Proof.
  unfold updates, lines_of.
  revert r. induction (filter _ ls) as [| l fl IH]; intros r; simpl.
  - destruct r. reflexivity.
  - rewrite IH. reflexivity.
Qed.

(** The result of [getAccountBalances], record by record. *)
Lemma getAccountBalances_rows (accounts : list Account)
    (lines : list JournalLine) :
  DB.getAccountBalances accounts lines
  = map (fun r => DB.normalize (bump lines r))
        (Js.values (DB.balanceMap_init accounts)).
Proof.
  unfold DB.getAccountBalances.
  change DB.balanceMap_add
    with (accumulate_step l_accountId
            (fun l r => DB.mkRow (DB.acct r)
               (DB.computed r + (or0 (l_debit l) - or0 (l_credit l))))).
  rewrite accumulate_map by apply balanceMap_init_NoDup.
  rewrite (map_ext_in _ (fun kv => (fst kv, bump lines (snd kv)))).
  - rewrite values_map_snd, map_map. reflexivity.
  - intros [k r] Hin. simpl. rewrite updates_computed. unfold bump.
    destruct (balanceMap_init_In _ _ Hin) as [a [_ E]]. inversion E. subst.
    reflexivity.
Qed.

Lemma initial_rows_In (accounts : list Account) (r : DB.BalanceRow) :
  In r (Js.values (DB.balanceMap_init accounts)) ->
  exists a, In a accounts /\ r = DB.mkRow a 0.
Proof.
  intros H. apply (Permutation_in _ (values_perm _)) in H.
  apply in_map_iff in H. destruct H as [[k r'] [E Hin]]. simpl in E. subst r'.
  destruct (balanceMap_init_In _ _ Hin) as [a [Ha E]]. inversion E. subst.
  exists a. split; [exact Ha | reflexivity].
Qed.

Lemma initial_rows_perm (accounts : list Account) :
  store_keys accounts ->
  Permutation (Js.values (DB.balanceMap_init accounts))
              (map (fun a => DB.mkRow a 0) accounts).
Proof.
  intros [ND NP]. eapply perm_trans; [apply values_perm |].
  rewrite balanceMap_init_fill, fill_distinct; [| exact ND | exact NP].
  simpl. rewrite map_map. simpl. apply Permutation_refl.
Qed.

(** Every row of the result is an input account with its derived balance. *)
Lemma getAccountBalances_In (accounts : list Account)
    (lines : list JournalLine) (r : DB.BalanceRow) :
  In r (DB.getAccountBalances accounts lines) ->
  exists a, In a accounts /\
    r = DB.normalize (bump lines (DB.mkRow a 0)).
Proof.
  rewrite getAccountBalances_rows. intros H. apply in_map_iff in H.
  destruct H as [r0 [E H]]. destruct (initial_rows_In _ _ H) as [a [Ha ->]].
  exists a. split; [exact Ha | symmetry; exact E].
Qed.

Lemma getAccountBalances_perm (accounts : list Account)
    (lines : list JournalLine) :
  store_keys accounts ->
  Permutation (DB.getAccountBalances accounts lines)
    (map (fun a => DB.normalize (bump lines (DB.mkRow a 0))) accounts).
Proof.
  intros K. rewrite getAccountBalances_rows.
  eapply perm_trans; [apply Permutation_map, initial_rows_perm, K |].
  rewrite map_map. apply Permutation_refl.
Qed.

Lemma rawBalance_net (id : string) (lines : list JournalLine) :
  rawBalance id lines == sumQ (map net (lines_of id lines)).
Proof. unfold rawBalance. rewrite sumQ_net. reflexivity. Qed.

Lemma _getBalance_display (a : Account) (lines : list JournalLine) :
  PDFReport._getBalance a lines == displayBalance a lines.
Proof.
  unfold PDFReport._getBalance, displayBalance. apply signed_eq.
  rewrite fold_left_net', rawBalance_net. unfold lines_of. ring.
Qed.

Lemma normalize_bump_balance (a : Account) (lines : list JournalLine) :
  a_balance (DB.acct (DB.normalize (bump lines (DB.mkRow a 0))))
  == displayBalance a lines.
Proof.
  simpl. unfold displayBalance. apply signed_eq.
  rewrite fold_left_net, rawBalance_net. ring.
Qed.

Lemma lines_of_swap (id : string) (lines : list JournalLine) :
  lines_of id (map swap_sides lines) = map swap_sides (lines_of id lines).
Proof.
  unfold lines_of. induction lines as [| l ls IH]; simpl; [reflexivity |].
  destruct (String.eqb (l_accountId l) id); simpl; rewrite IH; reflexivity.
Qed.

Lemma sumQ_net_swap (ls : list JournalLine) :
  sumQ (map net (map swap_sides ls)) == - sumQ (map net ls).
Proof.
  induction ls as [| l ls IH]; simpl; [ring |]. rewrite IH.
  unfold net. simpl. ring.
Qed.

Lemma displayBalance_flip (a : Account) (lines : list JournalLine) :
  displayBalance (flip_normal a) (map swap_sides lines)
  == displayBalance a lines.
Proof.
  unfold displayBalance. simpl. rewrite !rawBalance_net, lines_of_swap.
  rewrite sumQ_net_swap. destruct (a_normal a); simpl; ring.
Qed.

Lemma Forall2_map_same {A B C : Type} (R : B -> C -> Prop) (f : A -> B)
    (g : A -> C) (l : list A) :
  (forall x, In x l -> R (f x) (g x)) -> Forall2 R (map f l) (map g l).
Proof.
  induction l as [| x l IH]; simpl; intros H; constructor.
  - apply H. left. reflexivity.
  - apply IH. intros y Hy. apply H. right. exact Hy.
Qed.

Lemma initial_rows_flip (accounts : list Account) :
  Js.values (DB.balanceMap_init (map flip_normal accounts))
  = map (fun r => DB.mkRow (flip_normal (DB.acct r)) (DB.computed r))
        (Js.values (DB.balanceMap_init accounts)).
Proof.
  rewrite !balanceMap_init_fill, <- values_map_snd. f_equal.
  apply (fill_map a_id (fun a => DB.mkRow a 0) (fun a => DB.mkRow a 0)
           flip_normal
           (fun r => DB.mkRow (flip_normal (DB.acct r)) (DB.computed r))
           (fun a => eq_refl) (fun a => eq_refl) accounts []).
Qed.

Lemma updates_computed64 (k : string) (ls : list Binary64.Line)
    (r : Account * float) :
  updates Binary64.l_accountId
    (fun l r =>
       (fst r, (snd r + (Binary64.or0 (Binary64.l_debit l)
                         - Binary64.or0 (Binary64.l_credit l)))%float))
    k ls r
  = (fst r,
     fold_left
       (fun s l =>
          (s + (Binary64.or0 (Binary64.l_debit l)
                - Binary64.or0 (Binary64.l_credit l)))%float)
       (lines_of64 k ls) (snd r)).
Proof.
  unfold updates, lines_of64.
  revert r. induction (filter _ ls) as [| l fl IH]; intros r; simpl.
  - destruct r. reflexivity.
  - rewrite IH. reflexivity.
Qed.

(** On binary64 numbers too, [getAccountBalances] returns one record per
    account, with the sum taken line by line. *)
Lemma getAccountBalances64_perm (accounts : list Account)
    (lines : list Binary64.Line) :
  store_keys accounts ->
  Permutation (Binary64.getAccountBalances accounts lines)
              (map (row64 lines) accounts).
Proof.
  intros [ND NP]. unfold Binary64.getAccountBalances.
  change Binary64.balanceMap_add
    with (accumulate_step Binary64.l_accountId
            (fun l (r : Account * float) =>
               (fst r, (snd r + (Binary64.or0 (Binary64.l_debit l)
                                 - Binary64.or0 (Binary64.l_credit l)))%float))).
  change (Binary64.balanceMap_init accounts)
    with (fill a_id (fun a => (a, 0%float)) [] accounts).
  rewrite accumulate_map by (apply fill_NoDup; constructor).
  eapply perm_trans; [apply Permutation_map, values_perm |].
  rewrite fill_distinct; [| exact ND | exact NP].
  simpl. rewrite !map_map. simpl.
  erewrite map_ext; [apply Permutation_refl |].
  intros a. simpl. rewrite updates_computed64. reflexivity.
Qed.

(** Negation and the sums on binary64 numbers. *)
Lemma SFsame_refl (a : spec_float) : SFsame a a.
Proof. destruct a; simpl; auto. Qed.

Lemma SFsame_sym (a b : spec_float) : SFsame a b -> SFsame b a.
Proof. destruct a, b; simpl; auto; discriminate. Qed.

Lemma SFsame_trans (a b c : spec_float) :
  SFsame a b -> SFsame b c -> SFsame a c.
Proof.
  destruct a, b, c; simpl; auto; try discriminate; try congruence.
Qed.

Lemma SFsame_opp (a b : spec_float) :
  SFsame a b -> SFsame (SFopp a) (SFopp b).
Proof.
  destruct a, b; simpl; auto; try discriminate; intros H; inversion H;
    reflexivity.
Qed.

Lemma SFopp_involutive (a : spec_float) : SFopp (SFopp a) = a.
Proof. destruct a; simpl; rewrite ?negb_involutive; reflexivity. Qed.

Lemma binary_round_aux_opp (p e : Z) (s : bool) (m ex : Z)
    (l : SpecFloat.location) :
  SFopp (binary_round_aux p e s m ex l) = binary_round_aux p e (negb s) m ex l.
Proof.
  unfold binary_round_aux.
  destruct (shr_fexp p e m ex l) as [mrs' e'].
  destruct (shr_fexp p e _ e' loc_Exact) as [mrs'' e''].
  destruct (shr_m mrs''); simpl; try reflexivity.
  destruct (Z.leb e'' (Z.sub e p)); reflexivity.
Qed.

Lemma binary_round_opp (p e : Z) (s : bool) (m : positive) (ex : Z) :
  SFopp (binary_round p e s m ex) = binary_round p e (negb s) m ex.
Proof.
  unfold binary_round. destruct (shl_align m ex _) as [mz ez].
  apply binary_round_aux_opp.
Qed.

Lemma binary_normalize_opp (p e : Z) (m ex : Z) :
  SFsame (SFopp (binary_normalize p e m ex false))
         (binary_normalize p e (- m) ex false).
Proof.
  destruct m as [| m | m]; simpl.
  - exact I.
  - rewrite binary_round_opp. apply SFsame_refl.
  - rewrite binary_round_opp. apply SFsame_refl.
Qed.

Lemma cond_Zopp_negb (s : bool) (m : Z) :
  cond_Zopp (negb s) m = (- cond_Zopp s m)%Z.
Proof. destruct s; simpl; lia. Qed.

Ltac same_normalized :=
  eapply SFsame_trans; [apply binary_normalize_opp |];
  match goal with
  | |- SFsame (binary_normalize _ _ ?x _ _) (binary_normalize _ _ ?y _ _) =>
      replace y with x by lia
  end; apply SFsame_refl.

Ltac by_signs :=
  solve [ repeat match goal with s : bool |- _ => destruct s end;
          cbn [SFadd SFsub SFopp SFsame negb];
          first [exact I | reflexivity] ].

(** Negating both terms negates the sum. *)
Lemma SFadd_opp (p e : Z) (a b : spec_float) :
  SFsame (SFopp (SFadd p e a b)) (SFadd p e (SFopp a) (SFopp b)).
Proof.
  destruct a as [sa | sa | | sa ma ea], b as [sb | sb | | sb mb eb];
    try by_signs.
  cbn [SFadd SFopp]. rewrite !cond_Zopp_negb. same_normalized.
Qed.

(** Exchanging the two terms negates the difference. *)
Lemma SFsub_opp (p e : Z) (a b : spec_float) :
  SFsame (SFopp (SFsub p e a b)) (SFsub p e b a).
Proof.
  destruct a as [sa | sa | | sa ma ea], b as [sb | sb | | sb mb eb];
    try by_signs.
  cbn [SFsub SFopp]. rewrite (Z.min_comm eb ea). same_normalized.
Qed.

(** The sum of the same numbers is the same number. *)
Lemma SFadd_same (p e : Z) (a a' b b' : spec_float) :
  SFsame a a' -> SFsame b b' ->
  SFsame (SFadd p e a b) (SFadd p e a' b').
Proof.
  intros Ha Hb.
  destruct a as [sa | sa | | sa ma ea], a' as [sa' | sa' | | sa' ma' ea'];
    cbn [SFsame] in Ha; try discriminate Ha;
    try (inversion Ha; subst; clear Ha);
    destruct b as [sb | sb | | sb mb eb], b' as [sb' | sb' | | sb' mb' eb'];
    cbn [SFsame] in Hb; try discriminate Hb;
    try (inversion Hb; subst; clear Hb);
    try apply SFsame_refl; by_signs.
Qed.

Lemma same_number_spec (x y : float) :
  SFsame (Prim2SF x) (Prim2SF y) -> same_number x y = true.
Proof.
  unfold same_number, PrimFloat.is_nan. rewrite !eqb_spec.
  destruct (Prim2SF x) as [sx | sx | | sx mx ex],
           (Prim2SF y) as [sy | sy | | sy my ey];
    simpl; intros H; try discriminate H; try reflexivity;
    inversion H; subst.
  - destruct sy; reflexivity.
  - unfold SFeqb, SFcompare. rewrite Z.compare_refl.
    rewrite Pos.compare_cont_refl. destruct sy; reflexivity.
Qed.

(** Swapping the sides of every line negates the running sum of an
    account. *)
Lemma lines_of64_swap (id : string) (lines : list Binary64.Line) :
  lines_of64 id (map swap_sides64 lines)
  = map swap_sides64 (lines_of64 id lines).
Proof.
  unfold lines_of64. induction lines as [| l ls IH]; simpl; [reflexivity |].
  destruct (String.eqb (Binary64.l_accountId l) id); simpl; rewrite IH;
    reflexivity.
Qed.

Lemma computed64_swap_fold (ls : list Binary64.Line) (s s' : float) :
  SFsame (SFopp (Prim2SF s)) (Prim2SF s') ->
  SFsame
    (SFopp (Prim2SF
       (fold_left
          (fun s l =>
             (s + (Binary64.or0 (Binary64.l_debit l)
                   - Binary64.or0 (Binary64.l_credit l)))%float)
          ls s)))
    (Prim2SF
       (fold_left
          (fun s l =>
             (s + (Binary64.or0 (Binary64.l_debit l)
                   - Binary64.or0 (Binary64.l_credit l)))%float)
          (map swap_sides64 ls) s')).
Proof.
  revert s s'. induction ls as [| l ls IH]; intros s s' H; simpl; [exact H |].
  apply IH. rewrite !add_spec, !sub_spec.
  eapply SFsame_trans; [apply SFadd_opp |].
  apply SFadd_same; [exact H | apply SFsub_opp].
Qed.

Lemma computed64_swap (a : Account) (lines : list Binary64.Line) :
  SFsame (SFopp (Prim2SF (computed64 a lines)))
         (Prim2SF (computed64 (flip_normal a) (map swap_sides64 lines))).
Proof.
  unfold computed64. cbn [flip_normal a_id]. rewrite lines_of64_swap.
  apply computed64_swap_fold. vm_compute. exact I.
Qed.

(** Swapping the sides of every line and flipping the normal side of an
    account leaves the balance of its record the same number. *)
Lemma row64_swap (a : Account) (lines : list Binary64.Line) :
  same_number
    (Binary64.balance (row64 (map swap_sides64 lines) (flip_normal a)))
    (Binary64.balance (row64 lines a))
  = true.
Proof.
  apply same_number_spec. cbn [row64 Binary64.balance].
  assert (H := computed64_swap a lines).
  cbn [flip_normal a_normal]. destruct (a_normal a); cbn [Binary64.signed].
  - rewrite opp_spec. apply SFsame_opp in H.
    rewrite SFopp_involutive in H. apply SFsame_sym, H.
  - rewrite opp_spec. apply SFsame_sym, H.
Qed.

Lemma store_keys_flip (accounts : list Account) :
  store_keys accounts -> store_keys (map flip_normal accounts).
Proof.
  assert (E : map a_id (map flip_normal accounts) = map a_id accounts).
  { rewrite map_map. apply map_ext. intros a. reflexivity. }
  unfold store_keys. rewrite E. exact (fun K => K).
Qed.

(** C3, as stated, fails on the numbers of the program: a balance is the
    running sum of the account's lines, rounded at every line, not the
    difference of the two sums. Cash with 0.1 in, 0.3 out and 0.2 in has
    the balance 2.7755575615628914e-17, in [getAccountBalances] and in
    [_getBalance] alike, where the sum of the debits minus the sum of the
    credits is 5.5511151231257827e-17. And [_getBalance], which adds the
    debit and then subtracts the credit of each line, is changed by the
    swap when a line carries both: after a receipt of 0.1 and a line with a
    debit of 0.2 and a credit of 0.3 it gives 5.5511151231257827e-17, and
    2.7755575615628914e-17 once the sides are swapped and the normal side
    flipped. *)
Lemma balance_is_a_rounded_running_sum :
  map Binary64.balance (Binary64.getAccountBalances [cash] cancelling_lines)
  = [2.7755575615628914e-17%float]
  /\ Binary64._getBalance cash cancelling_lines = 2.7755575615628914e-17%float
  /\ (sum64 (map Binary64.l_debit cancelling_lines)
      - sum64 (map Binary64.l_credit cancelling_lines))%float
     = 5.5511151231257827e-17%float
  /\ Binary64._getBalance cash two_sided_lines = 5.5511151231257827e-17%float
  /\ Binary64._getBalance (flip_normal cash)
       (map swap_sides64 two_sided_lines)
     = 2.7755575615628914e-17%float.
Proof. repeat split; vm_compute; reflexivity. Qed.

(** C3, amended. On the accounts of a store (distinct ids, none of them
    [__proto__]), [getAccountBalances] returns exactly one record per
    account. On the binary64 numbers of the program the record holds the
    running sum of [(debit || 0) - (credit || 0)] over the lines of the
    account, in the order of the store and rounded at every line, and its
    negation when the account is credit-normal; swapping the two sides of
    every line while flipping the normal side of every account leaves the
    balance of every record the same number. In exact arithmetic that
    balance is the sum of the debits minus the sum of the credits, negated
    for a credit-normal account, in [getAccountBalances] and in
    [_getBalance] alike, and the swap changes no display balance of
    either. *)
Theorem balance_sign_rule (accounts : list Account) :
  store_keys accounts ->
  (forall lines : list Binary64.Line,
     Permutation (Binary64.getAccountBalances accounts lines)
                 (map (row64 lines) accounts)
     /\ Permutation
          (Binary64.getAccountBalances (map flip_normal accounts)
                                       (map swap_sides64 lines))
          (map (fun a => row64 (map swap_sides64 lines) (flip_normal a))
               accounts)
     /\ (forall a,
           same_number
             (Binary64.balance
                (row64 (map swap_sides64 lines) (flip_normal a)))
             (Binary64.balance (row64 lines a))
           = true))
  /\ (forall lines : list JournalLine,
        Permutation
          (map (fun r => without_balance (DB.acct r))
               (DB.getAccountBalances accounts lines))
          (map without_balance accounts)
        /\ (forall r, In r (DB.getAccountBalances accounts lines) ->
              a_balance (DB.acct r) == displayBalance (DB.acct r) lines)
        /\ (forall a, PDFReport._getBalance a lines == displayBalance a lines)
        /\ Forall2 (fun r r' =>
                      a_id (DB.acct r') = a_id (DB.acct r)
                      /\ a_balance (DB.acct r') == a_balance (DB.acct r))
             (DB.getAccountBalances accounts lines)
             (DB.getAccountBalances (map flip_normal accounts)
                                    (map swap_sides lines))
        /\ (forall a,
              PDFReport._getBalance (flip_normal a) (map swap_sides lines)
              == PDFReport._getBalance a lines)).
Proof.
  intros K. split.
  { intros lines. split; [apply getAccountBalances64_perm, K |].
    split; [| intros a; apply row64_swap].
    eapply perm_trans;
      [apply getAccountBalances64_perm, store_keys_flip, K |].
    rewrite map_map. apply Permutation_refl. }
  intros lines. split; [| split; [| split; [| split]]].
  - eapply perm_trans;
      [apply Permutation_map, getAccountBalances_perm, K |].
    rewrite map_map. apply Permutation_refl.
  - intros r Hr. destruct (getAccountBalances_In _ _ _ Hr) as [a [_ ->]].
    rewrite normalize_bump_balance. reflexivity.
  - intros a. apply _getBalance_display.
  - rewrite !getAccountBalances_rows, initial_rows_flip, map_map.
    apply Forall2_map_same. intros r Hr.
    destruct (initial_rows_In _ _ Hr) as [a [_ ->]]. split; [reflexivity |].
    change (DB.mkRow (flip_normal (DB.acct (DB.mkRow a 0)))
                     (DB.computed (DB.mkRow a 0)))
      with (DB.mkRow (flip_normal a) 0).
    rewrite !normalize_bump_balance. apply displayBalance_flip.
  - intros a. rewrite !_getBalance_display. apply displayBalance_flip.
Qed.

Lemma small_chart_distinct : store_keys small_chart.
Proof.
  split;
  [ repeat constructor; simpl; intuition discriminate
  | simpl; intuition discriminate ].
Defined.

Lemma balance_sign_rule_witness :
  store_keys small_chart
  /\ Permutation (Binary64.getAccountBalances small_chart cancelling_lines)
                 (map (row64 cancelling_lines) small_chart).
Proof.
  split; [exact small_chart_distinct |].
  exact (proj1 (proj1 (balance_sign_rule small_chart small_chart_distinct)
                      cancelling_lines)).
Defined.

Lemma lines_of_nil_balance (a : Account) (lines : list JournalLine) :
  lines_of (a_id a) lines = [] -> displayBalance a lines == 0.
Proof.
  intros H. unfold displayBalance, rawBalance. rewrite H. simpl.
  destruct (a_normal a); simpl; ring.
Qed.

(** C10. On the accounts of a store, [getAccountBalances] returns exactly
    one record per account: the records, without their derived balance, are
    the accounts without theirs, each once (and in the same order when no
    id is an array index); every other field is unchanged, and an account
    that no line references has balance 0. *)
Theorem getAccountBalances_keeps_accounts (accounts : list Account)
    (lines : list JournalLine) :
  store_keys accounts ->
  Permutation
    (map (fun r => without_balance (DB.acct r))
         (DB.getAccountBalances accounts lines))
    (map without_balance accounts)
  /\ List.length (DB.getAccountBalances accounts lines) = List.length accounts
  /\ (forall r, In r (DB.getAccountBalances accounts lines) ->
        lines_of (a_id (DB.acct r)) lines = [] ->
        a_balance (DB.acct r) == 0 /\ DB.computed r == 0)
  /\ ((forall a, In a accounts -> Js.array_index (a_id a) = None) ->
      map (fun r => without_balance (DB.acct r))
          (DB.getAccountBalances accounts lines)
      = map without_balance accounts).
Proof.
  intros K.
  assert (P := getAccountBalances_perm accounts lines K).
  split; [| split; [| split]].
  - eapply perm_trans; [apply Permutation_map, P |].
    rewrite map_map. apply Permutation_refl.
  - rewrite (Permutation_length P), length_map. reflexivity.
  - intros r Hr Hnil.
    destruct (getAccountBalances_In _ _ _ Hr) as [a [_ ->]].
    split.
    + rewrite normalize_bump_balance. apply lines_of_nil_balance. exact Hnil.
    + simpl in *. rewrite Hnil. simpl. reflexivity.
  - intros NI. destruct K as [ND NP].
    rewrite getAccountBalances_rows, balanceMap_init_fill.
    rewrite fill_distinct; [| exact ND | exact NP]. simpl.
    rewrite values_named.
    + rewrite !map_map. reflexivity.
    + intros k Hk. unfold Js.keys_of in Hk. rewrite map_map in Hk. simpl in Hk.
      apply in_map_iff in Hk. destruct Hk as [a [<- Ha]]. apply NI, Ha.
Qed.

Ltac distinct_keys :=
  split;
  [ repeat constructor; simpl; intuition discriminate
  | simpl; intuition discriminate ].

Lemma getAccountBalances_keeps_accounts_witness :
  store_keys small_chart
  /\ Permutation
       (map (fun r => without_balance (DB.acct r))
            (DB.getAccountBalances small_chart small_journal))
       (map without_balance small_chart).
Proof.
  assert (K : store_keys small_chart) by distinct_keys.
  split; [exact K |].
  exact (proj1 (getAccountBalances_keeps_accounts small_chart small_journal K)).
Defined.

(** The store keeps its account ids distinct: [put] replaces the record
    that has the id or appends, [del] removes. *)
Lemma put_keys {R : Type} (key : R -> string) (all : list R) (record : R) :
  map key (DB.put key all record)
  = if in_dec string_dec (key record) (map key all)
    then map key all
    else map key all ++ [key record].
Proof.
  induction all as [| r all IH]; [reflexivity |]. cbn [DB.put map].
  destruct (String.eqb (key r) (key record)) eqn:E.
  - apply String.eqb_eq in E. cbn [map]. rewrite E.
    destruct (in_dec string_dec (key record) (key record :: map key all))
      as [_ | N0]; [reflexivity |]. exfalso. apply N0. left. reflexivity.
  - apply String.eqb_neq in E. cbn [map]. rewrite IH.
    destruct (in_dec string_dec (key record) (map key all)) as [I | I];
      destruct (in_dec string_dec (key record) (key r :: map key all))
        as [J | J]; try reflexivity.
    + exfalso. apply J. right. exact I.
    + exfalso. destruct J as [J | J]; [exact (E J) | exact (I J)].
Qed.

Lemma saveAccount_keeps_keys (s : DB.Store) (a : Account) :
  store_keys (DB.ACCOUNTS s) ->
  a_id a <> "__proto__" ->
  store_keys (DB.ACCOUNTS (DB.saveAccount s a)).
Proof.
  intros [ND NP] Ha. unfold store_keys. cbn [DB.saveAccount DB.ACCOUNTS].
  rewrite put_keys.
  destruct (in_dec string_dec (a_id a) (map a_id (DB.ACCOUNTS s))) as [I | I].
  - split; assumption.
  - split.
    + apply NoDup_app; [exact ND | repeat constructor; simpl; tauto |].
      intros x Hx [<- | []]. exact (I Hx).
    + intros H. apply in_app_or in H. destruct H as [H | [H | []]];
        [exact (NP H) | exact (Ha H)].
Qed.

Lemma deleteAccount_keeps_keys (s : DB.Store) (id : string) :
  store_keys (DB.ACCOUNTS s) ->
  store_keys (DB.ACCOUNTS (DB.deleteAccount s id)).
Proof.
  intros [ND NP]. unfold store_keys. cbn [DB.deleteAccount DB.ACCOUNTS].
  unfold DB.del. split.
  - induction (DB.ACCOUNTS s) as [| a l IH]; [constructor |].
    cbn [map] in ND, NP. inversion ND as [| ? ? Hn ND']. subst.
    cbn [filter]. destruct (negb (String.eqb (a_id a) id)).
    + cbn [map]. constructor.
      * intros H. apply Hn. apply in_map_iff in H.
        destruct H as [b [Eb Hb]]. apply filter_In in Hb.
        rewrite <- Eb. apply in_map, Hb.
      * apply IH; [exact ND' |]. intros H. apply NP. right. exact H.
    + apply IH; [exact ND' |]. intros H. apply NP. right. exact H.
  - intros H. apply NP. apply in_map_iff in H. destruct H as [b [Eb Hb]].
    apply filter_In in Hb. rewrite <- Eb. apply in_map, Hb.
Qed.

(** The seeded chart has distinct, plain ids. *)
Lemma seed_store_keys :
  store_keys DB.SEED_ACCOUNTS /\ plain_ids DB.SEED_ACCOUNTS.
Proof.
  split; [split |].
  - assert (E : nodup string_dec (map a_id DB.SEED_ACCOUNTS)
                = map a_id DB.SEED_ACCOUNTS) by (vm_compute; reflexivity).
    rewrite <- E. apply NoDup_nodup.
  - intros H.
    assert (T : existsb (String.eqb "__proto__") (map a_id DB.SEED_ACCOUNTS)
                = true).
    { apply existsb_exists. exists "__proto__".
      split; [exact H | apply String.eqb_refl]. }
    vm_compute in T. discriminate.
  - intros a Ha.
    assert (F : forallb (fun a => negb (Js.inherited (a_id a)))
                        DB.SEED_ACCOUNTS = true) by (vm_compute; reflexivity).
    rewrite forallb_forall in F. apply negb_true_iff, F, Ha.
Qed.

(* ================================================================== *)
(** * The balance engine on records of any shape *)

Lemma loose_init_fill (accounts : list Account) :
  Loose.balanceMap_init accounts
  = fill a_id (fun a => Loose.mkRow a (Loose.Fin 0) (Loose.Fin (a_balance a)))
         [] accounts.
Proof. reflexivity. Qed.




















(** What a tame field contributes is the amount it stands for. *)
Lemma tame_ToNumeric (v : Loose.value) :
  tame v = true ->
  Loose.ToNumeric (Loose.or_zero v)
  = Some (Loose.IsNumber (Loose.Fin (or0 (amount_of v)))).
Proof.
  unfold Loose.or_zero, or0.
  destruct v as [| | [|] | [q | n |] | s | z | | o]; simpl; try reflexivity;
    try discriminate.
  - destruct (Qeq_bool q 0); reflexivity.
  - unfold blank. simpl. destruct (String.eqb s ""); [reflexivity | discriminate].
  - unfold blank. simpl. destruct (Z.eqb z 0); [reflexivity | discriminate].
Qed.

Lemma tame_bumped (c : Loose.num) (l : Loose.RawLine) :
  tame_line l = true ->
  Loose.bumped c l
  = Some (Loose.add c
            (Loose.Fin (or0 (amount_of (Loose.r_debit l))
                        - or0 (amount_of (Loose.r_credit l))))).
Proof.
  intros T. apply andb_prop in T. destruct T as [Td Tc].
  unfold Loose.bumped, Loose.minus.
  rewrite (tame_ToNumeric _ Td), (tame_ToNumeric _ Tc). reflexivity.
Qed.

Lemma get_map_snd {V W : Type} (g : V -> W) (m : Js.obj V) (k : string) :
  Js.get (map (fun kv => (fst kv, g (snd kv))) m) k
  = option_map g (Js.get m k).
Proof.
  induction m as [| [k' v] m IH]; simpl; [reflexivity |].
  destruct (String.eqb k' k); [reflexivity | exact IH].
Qed.

Lemma loose_init_loosen (accounts : list Account) :
  Loose.balanceMap_init accounts
  = map (fun kv => (fst kv, loosen (snd kv))) (DB.balanceMap_init accounts).
Proof.
  rewrite loose_init_fill, balanceMap_init_fill.
  rewrite <- (fill_map a_id (fun a => DB.mkRow a 0)
                (fun a => Loose.mkRow a (Loose.Fin 0) (Loose.Fin (a_balance a)))
                (fun a => a) loosen (fun a => eq_refl) (fun a => eq_refl)
                accounts []).
  rewrite map_id. reflexivity.
Qed.

Lemma loose_add_loosen (m : Js.obj DB.BalanceRow) (l : Loose.RawLine) :
  tame_line l = true ->
  Loose.balanceMap_add (map (fun kv => (fst kv, loosen (snd kv))) m) l
  = Some (map (fun kv => (fst kv, loosen (snd kv)))
              (DB.balanceMap_add m (core_line l))).
Proof.
  intros T.
  unfold Loose.balanceMap_add, DB.balanceMap_add, Js.read. simpl.
  rewrite get_map_snd.
  destruct (Js.get m (Loose.r_accountId l)) as [r |]; simpl.
  - rewrite (tame_bumped _ l T). rewrite <- define_map_snd. reflexivity.
  - rewrite (tame_bumped _ l T).
    destruct (Js.inherited (Loose.r_accountId l)); reflexivity.
Qed.

Lemma loose_forEach_loosen (lines : list Loose.RawLine)
    (m : Js.obj DB.BalanceRow) :
  forallb tame_line lines = true ->
  Loose.forEach lines (map (fun kv => (fst kv, loosen (snd kv))) m)
  = Some (map (fun kv => (fst kv, loosen (snd kv)))
              (fold_left DB.balanceMap_add (map core_line lines) m)).
Proof.
  revert m. induction lines as [| l ls IH]; intros m T; simpl; [reflexivity |].
  simpl in T. apply andb_prop in T. destruct T as [Tl Tls].
  rewrite loose_add_loosen by exact Tl. apply IH, Tls.
Qed.

Lemma normalize_loosen (r : DB.BalanceRow) :
  same_balance (Loose.normalize (loosen r)) (DB.normalize r).
Proof.
  unfold same_balance. simpl. repeat split.
  destruct (a_normal (DB.acct r)); reflexivity.
Qed.

(** On tame lines the loose engine returns, with what the numeric engine
    computes on the amounts they stand for. *)
Lemma loose_numeric (accounts : list Account) (lines : list Loose.RawLine) :
  forallb tame_line lines = true ->
  exists rows,
    Loose.getAccountBalances accounts lines = Some rows
    /\ Forall2 same_balance rows
         (DB.getAccountBalances accounts (map core_line lines)).
Proof.
  intros T. unfold Loose.getAccountBalances, DB.getAccountBalances.
  rewrite loose_init_loosen, loose_forEach_loosen by exact T.
  eexists. split; [reflexivity |].
  rewrite values_map_snd, map_map.
  apply Forall2_map_same. intros r _. apply normalize_loosen.
Qed.

(** On the lines the program stores, whose amounts are finite numbers, the
    loose engine returns what the numeric engine computes. *)
Lemma loose_agrees_on_stored_lines (accounts : list Account)
    (lines : list JournalLine) :
  exists rows,
    Loose.getAccountBalances accounts (map Loose.of_line lines) = Some rows
    /\ Forall2 same_balance rows (DB.getAccountBalances accounts lines).
Proof.
  assert (F : forall m,
            fold_left DB.balanceMap_add
              (map core_line (map Loose.of_line lines)) m
            = fold_left DB.balanceMap_add lines m).
  { induction lines as [| l ls IH]; intros m; [reflexivity |].
    cbn [map fold_left]. rewrite IH. reflexivity. }
  assert (T : forallb tame_line (map Loose.of_line lines) = true).
  { apply forallb_forall. intros l Hl. apply in_map_iff in Hl.
    destruct Hl as [l0 [<- _]]. reflexivity. }
  destruct (loose_numeric accounts (map Loose.of_line lines) T)
    as [rows [R H]].
  exists rows. split; [exact R |].
  unfold DB.getAccountBalances in H |- *. rewrite F in H. exact H.
Qed.














(* ================================================================== *)
(** * Mapping classified items to candidate entries *)

Lemma find_first_such (p : Account -> bool) (accounts : list Account)
    (a : Account) :
  find p accounts = Some a -> first_such p accounts a.
Proof.
  induction accounts as [| x l IH]; simpl; [discriminate |].
  destruct (p x) eqn:E.
  - intros H. inversion H. subst. exists [], l. repeat split; [exact E |].
    intros y [].
  - intros H. destruct (IH H) as [before [after [-> [Pa Pb]]]].
    exists (x :: before), after. repeat split; [exact Pa |].
    intros y [<- | Hy]; [exact E | apply Pb, Hy].
Qed.

Lemma find_none_all (p : Account -> bool) (accounts : list Account) :
  find p accounts = None -> forall x, In x accounts -> p x = false.
Proof. intros H x Hx. exact (find_none p accounts H x Hx). Qed.

Lemma or_first_typed_pick (p : Account -> bool) (accounts : list Account) :
  accounts <> [] ->
  typed_pick p accounts (PDFParser.or_first (find p accounts) accounts).
Proof.
  intros NE. unfold typed_pick, PDFParser.or_first.
  destruct (find p accounts) as [a |] eqn:F.
  - exists a. split; [reflexivity |]. left. apply find_first_such, F.
  - destruct accounts as [| a l]; [contradiction |].
    exists a. split; [reflexivity |]. right.
    split; [apply find_none_all, F | reflexivity].
Qed.

Lemma find_cash_pick (accounts : list Account) :
  cash_pick accounts (find (PDFParser.code_is "1000") accounts).
Proof.
  unfold cash_pick. destruct (find _ accounts) as [a |] eqn:F.
  - apply find_first_such, F.
  - apply find_none_all, F.
Qed.

Lemma typed_pick_defined (p : Account -> bool) (accounts : list Account)
    (side : option Account) :
  typed_pick p accounts side -> side <> None.
Proof. intros [a [-> _]]. discriminate. Qed.

Lemma cash_pick_defined (accounts : list Account) (side : option Account) :
  cash_pick accounts side ->
  (side <> None <-> exists a, In a accounts /\ a_code a = "1000").
Proof.
  unfold cash_pick. destruct side as [a |]; intros H.
  - split; [intros _ | discriminate].
    destruct H as [before [after [-> [Pa _]]]].
    exists a. split; [apply in_or_app; right; left; reflexivity |].
    apply String.eqb_eq. exact Pa.
  - split; [congruence |]. intros [a [Ha Hc]]. exfalso.
    specialize (H a Ha). unfold PDFParser.code_is in H.
    rewrite Hc in H. discriminate.
Qed.

(** C9, as stated, fails: the cash side has no fallback. With no account
    of code 1000 in the list, an Expense item gets its debit account and
    no credit account. *)
Lemma cash_side_can_be_undefined :
  map (fun c => (debitAccount c, creditAccount c))
      (PDFParser.mapToJournalEntries [rent_item] [rent; sales])
  = [(Some rent, None)].
Proof. vm_compute. reflexivity. Qed.

(** C9, amended. For every item and every non-empty account list, the
    candidate follows the category policy; the side that takes an account
    of a given type falls back to the first account of the list and is
    always defined, while the cash side is the first account whose code is
    1000 and is undefined when there is none: both accounts are defined
    exactly when some account has code 1000. *)
Theorem candidates_follow_policy (classified : list ClassifiedItem)
    (accounts : list Account) :
  accounts <> [] ->
  Forall2 (fun item c =>
             follows_policy accounts item c
             /\ (both_defined c <->
                 exists a, In a accounts /\ a_code a = "1000"))
          classified (PDFParser.mapToJournalEntries classified accounts).
Proof.
  intros NE. unfold PDFParser.mapToJournalEntries.
  rewrite <- (map_id classified) at 1.
  apply Forall2_map_same. intros item _.
  unfold follows_policy, both_defined, PDFParser.default_accounts.
  destruct (c_category item); simpl;
    (split; [repeat split;
               try apply or_first_typed_pick; try apply find_cash_pick;
               exact NE |]);
    rewrite <- (cash_pick_defined accounts _ (find_cash_pick accounts));
    (split; [tauto |]); intros H; split; try exact H;
    eapply typed_pick_defined, or_first_typed_pick, NE.
Qed.

Lemma candidates_follow_policy_witness :
  small_chart <> []
  /\ Forall2 (fun item c =>
                follows_policy small_chart item c
                /\ (both_defined c <->
                    exists a, In a small_chart /\ a_code a = "1000"))
             [rent_item]
             (PDFParser.mapToJournalEntries [rent_item] small_chart).
Proof.
  assert (NE : small_chart <> []) by discriminate.
  split; [exact NE |].
  exact (candidates_follow_policy [rent_item] small_chart NE).
Defined.

(* ================================================================== *)
(** * The general ledger *)

Lemma gl_rows_from_lines (em : Js.obj JournalEntry) (acc : Account)
    (runBal : Q) (accLines : list JournalLine) :
  map g_line (gl_rows_from em acc runBal accLines) = accLines.
Proof.
  revert runBal. induction accLines as [| l ls IH]; intros runBal; simpl;
    [reflexivity |]. rewrite IH. reflexivity.
Qed.

Lemma gl_rows_from_running (em : Js.obj JournalEntry) (acc : Account)
    (accLines : list JournalLine) :
  forall (runBal : Q) (k : nat) (row : GLRow),
    nth_error (gl_rows_from em acc runBal accLines) k = Some row ->
    g_dispBal row
    == signed (a_normal acc) (runBal + running (S k) accLines).
Proof.
  unfold running.
  induction accLines as [| l ls IH]; intros runBal k row H.
  - destruct k; discriminate.
  - destruct k as [| k]; simpl in H.
    + inversion H. subst. simpl. apply signed_eq.
      rewrite (or0_eq (l_debit l)), (or0_eq (l_credit l)). unfold net. ring.
    + rewrite (IH _ _ _ H). apply signed_eq.
      cbn [firstn map sumQ fold_right].
      rewrite (or0_eq (l_debit l)), (or0_eq (l_credit l)). unfold net at 2. ring.
Qed.









(* ================================================================== *)
(** * Posting *)

(** The posting operation rejects a draft, and leaves the store as it was,
    when the difference of its totals exceeds the tolerance, when its total
    debit is zero, and when fewer than two lines have an account and a
    positive amount. *)
Lemma postJournalEntry_rejects (f : Fresh) (s : DB.Store) (d : Draft) :
  0.001 < Qabs (draft_totalDr (journalLines d) - draft_totalCr (journalLines d))
  \/ draft_totalDr (journalLines d) == 0
  \/ (List.length (validLines_of (journalLines d)) < 2)%nat ->
  fst (postJournalEntry f s d) = s
  /\ exists message, snd (postJournalEntry f s d) = Rejected message.
Proof.
  intros H. unfold postJournalEntry.
  destruct (String.eqb (je_date d) "" || String.eqb (Text.trim_string (je_desc d)) "");
    [split; [reflexivity | eexists; reflexivity] |].
  destruct (Qgtb _ 0.001) eqn:G; [split; [reflexivity | eexists; reflexivity] |].
  destruct (Qeq_bool (draft_totalDr (journalLines d)) 0) eqn:Z;
    [split; [reflexivity | eexists; reflexivity] |].
  destruct (List.length (validLines_of (journalLines d)) <? 2)%nat eqn:L;
    [split; [reflexivity | eexists; reflexivity] |].
  exfalso. destruct H as [H | [H | H]].
  - apply Qgtb_gt in H. congruence.
  - apply Qeq_bool_iff in H. congruence.
  - apply Nat.ltb_lt in H. congruence.
Qed.

(** What the checks guarantee of a draft that is posted: its totals, over
    all the lines of the form, differ by at most 0.001, its total debit is
    not zero, and at least two of its lines have an account and a positive
    amount. *)
Lemma postJournalEntry_posted (f : Fresh) (s : DB.Store) (d : Draft) :
  snd (postJournalEntry f s d) = Posted ->
  Qabs (draft_totalDr (journalLines d) - draft_totalCr (journalLines d))
  <= 0.001
  /\ ~ draft_totalDr (journalLines d) == 0
  /\ (2 <= List.length (validLines_of (journalLines d)))%nat
  /\ fst (postJournalEntry f s d)
     = save_lines
         (DB.saveEntry s
            (mkEntry (fresh_entryId f) (je_date d)
               (Text.trim_string (je_desc d))
               (if String.eqb (Text.trim_string (je_ref d)) ""
                then String.append "JE-" (fresh_now f)
                else Text.trim_string (je_ref d))
               "Posted" (fresh_createdAt f)))
         f 0 (validLines_of (journalLines d)).
Proof.
  unfold postJournalEntry.
  destruct (String.eqb (je_date d) "" || String.eqb (Text.trim_string (je_desc d)) "");
    [discriminate |].
  destruct (Qgtb _ 0.001) eqn:G; [discriminate |].
  destruct (Qeq_bool (draft_totalDr (journalLines d)) 0) eqn:E0; [discriminate |].
  destruct (List.length (validLines_of (journalLines d)) <? 2)%nat eqn:E2;
    [discriminate |].
  intros _. repeat split.
  - apply Qgtb_le, G.
  - apply Qeq_bool_neq, E0.
  - apply Nat.ltb_ge, E2.
Qed.

(** Scenario B: debits of 300 against credits of 299.99 are rejected. *)
Lemma scenario_B_rejected :
  postJournalEntry fresh0 seeded draft_scenario_B
  = (seeded, Rejected "Entry not balanced! Debits must equal Credits").
Proof. vm_compute. reflexivity. Qed.

(** C2: the posting operation commits an entry whose persisted lines do
    not balance. The totals are checked on all the lines of the form, and
    the lines without an account are dropped afterwards: the draft below,
    150 against 150 with one line of 50 unassigned, is posted with debits
    of 100 and credits of 150. Moreover the check rejects a difference only
    above 0.001, so a difference of exactly 0.001, which the form itself
    reports as unbalanced, is posted too. *)
Theorem posting_commits_unbalanced_lines :
  (snd (postJournalEntry fresh0 seeded draft_with_unassigned_line) = Posted
   /\ map (fun l => (l_accountId l, l_debit l, l_credit l))
          (lines_of_entry "je_new"
             (fst (postJournalEntry fresh0 seeded draft_with_unassigned_line)))
      = [("acc_5900", 100, 0); ("acc_1000", 0, 100); ("acc_2000", 0, 50)]
   /\ imbalance (lines_of_entry "je_new"
        (fst (postJournalEntry fresh0 seeded draft_with_unassigned_line)))
      == 50)
  /\ (snd (postJournalEntry fresh0 seeded draft_off_by_tolerance) = Posted
      /\ imbalance (lines_of_entry "je_new"
           (fst (postJournalEntry fresh0 seeded draft_off_by_tolerance)))
         == 0.001
      /\ updateJournalTotals (journalLines draft_off_by_tolerance) = false).
Proof.
  repeat split; vm_compute; reflexivity.
Qed.

(* ================================================================== *)
(** * Sorting and grouping *)

Lemma insert_sorted_perm {A : Type} (cmp : A -> A -> Z) (x : A) (l : list A) :
  Permutation (insert_sorted cmp x l) (x :: l).
Proof.
  induction l as [| y l IH]; simpl; [apply Permutation_refl |].
  destruct (cmp x y <=? 0)%Z; [apply Permutation_refl |].
  eapply perm_trans; [apply perm_skip, IH | apply perm_swap].
Qed.

Lemma sort_perm {A : Type} (cmp : A -> A -> Z) (l : list A) :
  Permutation (sort cmp l) l.
Proof.
  induction l as [| x l IH]; simpl; [apply perm_nil |].
  eapply perm_trans; [apply insert_sorted_perm | apply perm_skip, IH].
Qed.

Lemma filter_perm {A : Type} (p : A -> bool) (l1 l2 : list A) :
  Permutation l1 l2 -> Permutation (filter p l1) (filter p l2).
Proof.
  induction 1; simpl.
  - apply perm_nil.
  - destruct (p x); [apply perm_skip |]; assumption.
  - destruct (p x), (p y); try apply Permutation_refl. apply perm_swap.
  - eapply perm_trans; eassumption.
Qed.

(** Adding [v] at one key of a list of distinct keys adds [v] to the sum. *)
Lemma sumQ_add_at (k0 : string) (v : Q) (g : string -> Q) (ks : list string) :
  NoDup ks -> In k0 ks ->
  sumQ (map (fun k => (if String.eqb k0 k then v else 0) + g k) ks)
  == v + sumQ (map g ks).
Proof.
  induction ks as [| k ks IH]; intros ND Hin; [destruct Hin |].
  inversion ND as [| ? ? Hnin ND']. subst.
  cbn [map sumQ fold_right]. fold (sumQ (map g ks)).
  fold (sumQ (map (fun k => (if String.eqb k0 k then v else 0) + g k) ks)).
  destruct (String.eqb k0 k) eqn:E.
  - apply String.eqb_eq in E. subst k0.
    rewrite (sumQ_map_ext _ g).
    + ring.
    + intros x Hx. destruct (String.eqb k x) eqn:E2; [| ring].
      apply String.eqb_eq in E2. subst. contradiction.
  - apply String.eqb_neq in E. destruct Hin as [-> | Hin]; [contradiction |].
    rewrite (IH ND' Hin). ring.
Qed.

(** Grouping a sum by key: with distinct keys that cover the list, the sum
    over the list is the sum over the keys of the sums of their groups. *)
Lemma sumQ_by_key {L : Type} (key : L -> string) (f : L -> Q)
    (ks : list string) (ls : list L) :
  NoDup ks ->
  (forall l, In l ls -> In (key l) ks) ->
  sumQ (map f ls)
  == sumQ (map (fun k => sumQ (map f (filter (fun l => String.eqb (key l) k) ls)))
               ks).
Proof.
  intros ND. induction ls as [| l ls IH]; intros Cov.
  - cbn [map sumQ fold_right filter]. symmetry. apply sumQ_map_zero.
    intros k _. reflexivity.
  - cbn [map sumQ fold_right]. fold (sumQ (map f ls)).
    rewrite IH by (intros x Hx; apply Cov; right; exact Hx).
    rewrite <- (sumQ_add_at (key l) (f l) _ ks ND (Cov l (or_introl eq_refl))).
    apply sumQ_map_ext. intros k _. cbv beta. cbn [filter].
    destruct (String.eqb (key l) k); cbn [map sumQ fold_right].
    + reflexivity.
    + apply Qplus_0_l.
Qed.

(** When every posted entry balances, the debits of the journal equal its
    credits. *)
Lemma balanced_entries_net (lines : list JournalLine) :
  every_entry_balances lines -> sumQ (map net lines) == 0.
Proof.
  intros B.
  rewrite (sumQ_by_key l_entryId net (nodup string_dec (map l_entryId lines))).
  - apply sumQ_map_zero. intros e _.
    fold (entry_lines e lines). rewrite sumQ_net, (B e). ring.
  - apply NoDup_nodup.
  - intros l Hl. apply nodup_In, in_map, Hl.
Qed.

(** Without orphans, the raw balances of the accounts add up to the net of
    the journal. *)
Lemma rawBalance_total (accounts : list Account) (lines : list JournalLine) :
  NoDup (map a_id accounts) ->
  no_orphans accounts lines ->
  sumQ (map (fun a => rawBalance (a_id a) lines) accounts)
  == sumQ (map net lines).
Proof.
  intros ND NO.
  rewrite (sumQ_by_key l_accountId net (map a_id accounts) lines ND NO).
  rewrite map_map. apply sumQ_map_ext. intros a _. apply rawBalance_net.
Qed.

(* ================================================================== *)
(** * The balance sheet *)

Lemma balance_total_sum (rows : list DB.BalanceRow) (lines : list JournalLine) :
  balance_total rows lines
  == sumQ (map (fun r => displayBalance (DB.acct r) lines) rows).
Proof.
  unfold balance_total.
  rewrite (fold_left_add (fun a => PDFReport._getBalance (DB.acct a) lines)).
  rewrite Qplus_0_l. apply sumQ_map_ext. intros r _. apply _getBalance_display.
Qed.

Lemma balance_total_sort (cmp : DB.BalanceRow -> DB.BalanceRow -> Z)
    (rows : list DB.BalanceRow) (lines : list JournalLine) :
  balance_total (sort cmp rows) lines
  == sumQ (map (fun r => displayBalance (DB.acct r) lines) rows).
Proof.
  rewrite balance_total_sum. apply sumQ_map_perm, sort_perm.
Qed.

Lemma accumulated_sum (start : Q) (rows : list DB.BalanceRow)
    (lines : list JournalLine) :
  PDFReport.accumulated start rows lines
  == start + sumQ (map (fun r => displayBalance (DB.acct r) lines) rows).
Proof.
  unfold PDFReport.accumulated.
  rewrite (fold_left_add_nonzero
             (fun a => PDFReport._getBalance (DB.acct a) lines)).
  apply Qplus_comp; [reflexivity |].
  apply sumQ_map_ext. intros r _. apply _getBalance_display.
Qed.

Lemma netInc_sum (rows : list DB.BalanceRow) (lines : list JournalLine) :
  fold_left (fun n a => n - PDFReport._getBalance (DB.acct a) lines)
    (PDFReport.of_type Expense rows)
    (fold_left (fun n a => n + PDFReport._getBalance (DB.acct a) lines)
       (PDFReport.of_type Revenue rows) 0)
  == type_total Revenue rows lines - type_total Expense rows lines.
Proof.
  rewrite (fold_left_sub (fun a => PDFReport._getBalance (DB.acct a) lines)).
  rewrite (fold_left_add (fun a => PDFReport._getBalance (DB.acct a) lines)).
  unfold type_total.
  rewrite (sumQ_map_ext (fun a => PDFReport._getBalance (DB.acct a) lines)
             (fun r => displayBalance (DB.acct r) lines)
             (PDFReport.of_type Expense rows))
    by (intros r _; apply _getBalance_display).
  rewrite (sumQ_map_ext (fun a => PDFReport._getBalance (DB.acct a) lines)
             (fun r => displayBalance (DB.acct r) lines)
             (PDFReport.of_type Revenue rows))
    by (intros r _; apply _getBalance_display).
  ring.
Qed.

(** The figures of the on-screen balance sheet, as sums over the accounts
    of each type. *)
Lemma renderBalanceSheet_totals (cmp : string -> string -> Z)
    (rows : list DB.BalanceRow) (lines : list JournalLine) :
  let bs := renderBalanceSheet cmp rows lines in
  bs_totalAssets bs == type_total Asset rows lines
  /\ bs_totalLiab bs == type_total Liability rows lines
  /\ bs_netInc bs
     == type_total Revenue rows lines - type_total Expense rows lines
  /\ bs_totalEquity bs
     == type_total Equity rows lines
        + (type_total Revenue rows lines - type_total Expense rows lines)
  /\ bs_totalLiabEquity bs == bs_totalLiab bs + bs_totalEquity bs.
Proof.
  cbn [renderBalanceSheet bs_totalAssets bs_totalLiab bs_netInc bs_totalEquity
       bs_totalLiabEquity].
  rewrite !balance_total_sort, netInc_sum. unfold type_total.
  repeat split; reflexivity.
Qed.

(** The flag of the balance sheet is exactly the test of the difference
    against 0.01. *)
Lemma renderBalanceSheet_flag (cmp : string -> string -> Z)
    (rows : list DB.BalanceRow) (lines : list JournalLine) :
  let bs := renderBalanceSheet cmp rows lines in
  bs_balanced bs = true
  <-> Qabs (bs_totalAssets bs - bs_totalLiabEquity bs) < 0.01.
Proof. cbn [renderBalanceSheet bs_balanced bs_totalAssets bs_totalLiabEquity].
  apply Qltb_lt. Qed.

(** The figures of the PDF balance sheet are the same sums. *)
Lemma generate_balance_totals (rows : list DB.BalanceRow)
    (lines : list JournalLine) :
  let b := PDFReport.generate_balance rows lines in
  PDFReport.bal_totalAssets b == type_total Asset rows lines
  /\ PDFReport.bal_totalLiab b == type_total Liability rows lines
  /\ PDFReport.bal_totalEq b
     == type_total Equity rows lines
        + (type_total Revenue rows lines - type_total Expense rows lines)
  /\ PDFReport.bal_totalLiabEq b
     == PDFReport.bal_totalLiab b + PDFReport.bal_totalEq b.
Proof.
  cbn [PDFReport.generate_balance PDFReport.bal_totalAssets
       PDFReport.bal_totalLiab PDFReport.bal_totalEq PDFReport.bal_totalLiabEq].
  rewrite !accumulated_sum. fold (type_total Asset rows lines).
  fold (type_total Liability rows lines). fold (type_total Equity rows lines).
  assert (Hn := netInc_sum rows lines).
  repeat split; try ring.
  destruct (Qneb _ 0) eqn:E.
  - rewrite Hn, accumulated_sum. fold (type_total Equity rows lines). ring.
  - apply Qneb_eq in E. rewrite <- Hn, E, accumulated_sum.
    fold (type_total Equity rows lines). ring.
Qed.

Lemma equation_term_by_type (rows : list DB.BalanceRow)
    (lines : list JournalLine) :
  sumQ (map (fun r => equation_term (DB.acct r) lines) rows)
  == type_total Asset rows lines
     - (type_total Liability rows lines
        + (type_total Equity rows lines
           + (type_total Revenue rows lines - type_total Expense rows lines))).
Proof.
  unfold type_total, PDFReport.of_type.
  induction rows as [| r rows IH]; [cbn; ring |].
  cbn [map sumQ fold_right filter]. unfold sumQ in IH. rewrite IH.
  unfold equation_term.
  destruct (a_type (DB.acct r)); cbn [AccountType_eqb map fold_right]; ring.
Qed.

Lemma equation_term_natural (a : Account) (lines : list JournalLine) :
  a_normal a = natural_side (a_type a) ->
  equation_term a lines == rawBalance (a_id a) lines.
Proof.
  unfold equation_term, displayBalance. intros ->.
  destruct (a_type a); simpl; ring.
Qed.

(** The accounting equation, for a chart without contra accounts: when
    every account has the normal side of its type, every line belongs to
    an account and every entry balances, total assets equal total
    liabilities plus total equity, and the sheet is flagged balanced. *)
Lemma accounting_equation (cmp : string -> string -> Z)
    (accounts : list Account) (lines : list JournalLine) :
  store_keys accounts ->
  naturally_sided accounts ->
  no_orphans accounts lines ->
  every_entry_balances lines ->
  let bs := renderBalanceSheet cmp (DB.getAccountBalances accounts lines) lines in
  bs_totalAssets bs - bs_totalLiabEquity bs == 0
  /\ bs_balanced bs = true.
Proof.
  intros K NS NO B bs.
  assert (E : bs_totalAssets bs - bs_totalLiabEquity bs == 0).
  { destruct (renderBalanceSheet_totals cmp
                (DB.getAccountBalances accounts lines) lines)
      as [TA [TL [_ [TE TLE]]]].
    fold bs in TA, TL, TE, TLE. rewrite TLE, TA, TL, TE.
    rewrite <- equation_term_by_type.
    rewrite (sumQ_map_perm _ _ _ (getAccountBalances_perm accounts lines K)).
    rewrite map_map.
    rewrite (sumQ_map_ext _ (fun a => rawBalance (a_id a) lines)).
    - rewrite (rawBalance_total accounts lines (proj1 K) NO).
      apply balanced_entries_net, B.
    - intros a Ha. apply (equation_term_natural (with_balance a _) lines).
      exact (NS a Ha). }
  split; [exact E |].
  apply (renderBalanceSheet_flag cmp). fold bs. rewrite E. reflexivity.
Qed.

Lemma depreciation_entry_balances : every_entry_balances depreciation_entry.
Proof.
  intros e. unfold entry_lines, depreciation_entry. cbn [filter l_entryId].
  destruct (String.eqb "je_9" e); reflexivity.
Qed.

(** C1: with the seeded chart, which has the contra account Accumulated
    Depreciation (an asset whose normal side is Credit), the balanced entry
    that records a depreciation of 1000 gives total assets of 1000 against
    liabilities plus equity of -1000: the sheet is off by 2000 and flagged
    unbalanced. The flag itself is the test of the difference against
    0.01. *)
Theorem contra_account_unbalances_the_sheet :
  every_entry_balances depreciation_entry
  /\ (let bs := renderBalanceSheet codeUnitCompare
                  (DB.getAccountBalances DB.SEED_ACCOUNTS depreciation_entry)
                  depreciation_entry in
      bs_totalAssets bs == 1000
      /\ bs_totalLiabEquity bs == -1000
      /\ bs_balanced bs = false)
  /\ (let b := PDFReport.generate_balance
                 (DB.getAccountBalances DB.SEED_ACCOUNTS depreciation_entry)
                 depreciation_entry in
      PDFReport.bal_totalAssets b == 1000
      /\ PDFReport.bal_totalLiabEq b == -1000)
  /\ (forall cmp rows lines,
        bs_balanced (renderBalanceSheet cmp rows lines) = true
        <-> Qabs (bs_totalAssets (renderBalanceSheet cmp rows lines)
                  - bs_totalLiabEquity (renderBalanceSheet cmp rows lines))
            < 0.01).
Proof.
  split; [exact depreciation_entry_balances |].
  split; [repeat split; vm_compute; reflexivity |].
  split; [repeat split; vm_compute; reflexivity |].
  intros cmp rows lines. apply renderBalanceSheet_flag.
Qed.

(* ================================================================== *)
(** * The trial balance *)

Lemma refers_to_In (accounts : list Account) (id : string) :
  refers_to accounts id = true <-> In id (map a_id accounts).
Proof.
  unfold refers_to. rewrite existsb_exists. split.
  - intros [k [Hk E]]. apply String.eqb_eq in E. subst. exact Hk.
  - intros H. exists id. split; [exact H | apply String.eqb_refl].
Qed.

Lemma lines_of_posted (accounts : list Account) (lines : list JournalLine)
    (id : string) :
  In id (map a_id accounts) ->
  filter (fun l => String.eqb (l_accountId l) id) (posted_to accounts lines)
  = lines_of id lines.
Proof.
  intros Hin. unfold posted_to, lines_of.
  induction lines as [| l ls IH]; [reflexivity |]. cbn [filter].
  destruct (refers_to accounts (l_accountId l)) eqn:R; cbn [filter];
    destruct (String.eqb (l_accountId l) id) eqn:E; rewrite IH;
    try reflexivity.
  apply String.eqb_eq in E. subst id. apply refers_to_In in Hin. congruence.
Qed.

(** The per-account sums of an amount add up to its sum over the lines
    that refer to an account. *)
Lemma sum_by_account (f : JournalLine -> Q) (accounts : list Account)
    (lines : list JournalLine) :
  NoDup (map a_id accounts) ->
  sumQ (map (fun a => sumQ (map f (lines_of (a_id a) lines))) accounts)
  == sumQ (map f (posted_to accounts lines)).
Proof.
  intros ND.
  rewrite (sumQ_by_key l_accountId f (map a_id accounts)
             (posted_to accounts lines) ND).
  - rewrite map_map. apply sumQ_map_ext. intros a Ha.
    rewrite lines_of_posted by (apply in_map, Ha). reflexivity.
  - intros l Hl. unfold posted_to in Hl. apply filter_In in Hl.
    apply refers_to_In, Hl.
Qed.

Lemma posted_to_all (accounts : list Account) (lines : list JournalLine) :
  no_orphans accounts lines -> posted_to accounts lines = lines.
Proof.
  intros NO. unfold posted_to. induction lines as [| l ls IH]; [reflexivity |].
  cbn [filter].
  rewrite (proj2 (refers_to_In accounts (l_accountId l)))
    by (apply NO; left; reflexivity).
  rewrite IH; [reflexivity |]. intros x Hx. apply NO. right. exact Hx.
Qed.

Lemma acctTotals_init_fill (accounts : list Account) :
  acctTotals_init accounts = fill a_id (fun a => mkTotals a 0 0) [] accounts.
Proof. reflexivity. Qed.

Lemma updates_totals (k : string) (ls : list JournalLine) (t : AcctTotals) :
  updates l_accountId
    (fun l t => mkTotals (t_account t) (totalDr t + or0 (l_debit l))
                         (totalCr t + or0 (l_credit l)))
    k ls t
  = mkTotals (t_account t)
      (fold_left (fun s l => s + or0 (l_debit l)) (lines_of k ls) (totalDr t))
      (fold_left (fun s l => s + or0 (l_credit l)) (lines_of k ls) (totalCr t)).
Proof.
  unfold updates, lines_of.
  revert t. induction (filter _ ls) as [| l fl IH]; intros t; simpl.
  - destruct t. reflexivity.
  - rewrite IH. reflexivity.
Qed.

Lemma fold_left_or0 (f : JournalLine -> Q) (ls : list JournalLine) (init : Q) :
  fold_left (fun s l => s + or0 (f l)) ls init == init + sumQ (map f ls).
Proof.
  rewrite (fold_left_add (fun l => or0 (f l))).
  apply Qplus_comp; [reflexivity |]. apply sumQ_map_ext. intros l _.
  apply or0_eq.
Qed.

Lemma acctTotals_perm (accounts : list Account) (lines : list JournalLine) :
  store_keys accounts ->
  Permutation
    (Js.values (fold_left acctTotals_add lines (acctTotals_init accounts)))
    (map (totals_of lines) accounts).
Proof.
  intros [ND NP].
  change acctTotals_add
    with (accumulate_step l_accountId
            (fun l t => mkTotals (t_account t) (totalDr t + or0 (l_debit l))
                                 (totalCr t + or0 (l_credit l)))).
  rewrite accumulate_map
    by (rewrite acctTotals_init_fill; apply fill_NoDup; constructor).
  eapply perm_trans; [apply values_perm |].
  rewrite acctTotals_init_fill, fill_distinct; [| exact ND | exact NP].
  simpl. rewrite !map_map. simpl.
  rewrite (map_ext _ (totals_of lines)); [apply Permutation_refl |].
  intros a. rewrite updates_totals. reflexivity.
Qed.

Lemma sumQ_filter_zero {A : Type} (p : A -> bool) (f : A -> Q) (l : list A) :
  (forall x, In x l -> p x = false -> f x == 0) ->
  sumQ (map f (filter p l)) == sumQ (map f l).
Proof.
  induction l as [| x l IH]; intros H; [reflexivity |].
  cbn [filter map sumQ fold_right].
  assert (IH' := IH (fun y Hy => H y (or_intror Hy))).
  destruct (p x) eqn:E; cbn [map sumQ fold_right].
  - unfold sumQ in IH'. rewrite IH'. reflexivity.
  - unfold sumQ in IH'. rewrite IH', (H x (or_introl eq_refl) E). ring.
Qed.

Lemma totals_of_debit (lines : list JournalLine) (a : Account) :
  totalDr (totals_of lines a) == sumQ (map l_debit (lines_of (a_id a) lines)).
Proof. cbn [totals_of totalDr]. rewrite fold_left_or0. apply Qplus_0_l. Qed.

Lemma totals_of_credit (lines : list JournalLine) (a : Account) :
  totalCr (totals_of lines a) == sumQ (map l_credit (lines_of (a_id a) lines)).
Proof. cbn [totals_of totalCr]. rewrite fold_left_or0. apply Qplus_0_l. Qed.

Lemma lines_of_In (id : string) (lines : list JournalLine) (l : JournalLine) :
  In l (lines_of id lines) -> In l lines.
Proof. unfold lines_of. intros H. apply filter_In in H. apply H. Qed.

Lemma totals_of_nonneg (lines : list JournalLine) (a : Account) :
  nonnegative lines ->
  0 <= totalDr (totals_of lines a) /\ 0 <= totalCr (totals_of lines a).
Proof.
  intros NN. rewrite totals_of_debit, totals_of_credit. split;
    apply sumQ_nonneg; intros x Hx; apply in_map_iff in Hx;
    destruct Hx as [l [<- Hl]]; apply lines_of_In in Hl; apply NN, Hl.
Qed.

(** The grand totals of the on-screen trial balance. *)
Lemma renderTrialBalance_totals (cmp : string -> string -> Z)
    (accounts : list Account) (lines : list JournalLine) :
  store_keys accounts ->
  nonnegative lines ->
  tb_totalDr (renderTrialBalance cmp accounts lines)
  == sumQ (map l_debit (posted_to accounts lines))
  /\ tb_totalCr (renderTrialBalance cmp accounts lines)
     == sumQ (map l_credit (posted_to accounts lines)).
Proof.
  intros K NN. cbn [renderTrialBalance tb_totalDr tb_totalCr].
  rewrite (fold_left_add totalDr), (fold_left_add totalCr), !Qplus_0_l.
  assert (P := acctTotals_perm accounts lines K).
  assert (Z : forall (f : AcctTotals -> Q),
            (forall a, 0 <= f (totals_of lines a)) ->
            (forall t, Qgtb (totalDr t) 0 || Qgtb (totalCr t) 0 = false ->
                       f t <= 0) ->
            sumQ (map f
                    (sort (fun a b => byCode cmp (t_account a) (t_account b))
                       (filter (fun a => Qgtb (totalDr a) 0 || Qgtb (totalCr a) 0)
                          (Js.values (fold_left acctTotals_add lines
                                        (acctTotals_init accounts))))))
            == sumQ (map (fun a => f (totals_of lines a)) accounts)).
  { intros f Fnn Fz.
    rewrite (sumQ_map_perm f _ _ (sort_perm _ _)).
    rewrite (sumQ_map_perm f _ _ (filter_perm _ _ _ P)).
    rewrite sumQ_filter_zero.
    - rewrite map_map. reflexivity.
    - intros t Ht E. apply in_map_iff in Ht. destruct Ht as [a [<- _]].
      apply Qle_antisym; [apply Fz, E | apply Fnn]. }
  split.
  - rewrite Z.
    + rewrite <- (sum_by_account l_debit accounts lines (proj1 K)).
      apply sumQ_map_ext. intros a _. apply totals_of_debit.
    + intros a. apply (totals_of_nonneg lines a NN).
    + intros t E. apply orb_false_elim in E. apply Qgtb_le, E.
  - rewrite Z.
    + rewrite <- (sum_by_account l_credit accounts lines (proj1 K)).
      apply sumQ_map_ext. intros a _. apply totals_of_credit.
    + intros a. apply (totals_of_nonneg lines a NN).
    + intros t E. apply orb_false_elim in E. apply Qgtb_le, E.
Qed.

Lemma pdf_add_other (m : Js.obj (Q * Q)) (l : JournalLine) (k : string) :
  l_accountId l <> k ->
  Js.get (PDFReport.acctTotals_add m l) k = Js.get m k.
Proof.
  intros Hne. unfold PDFReport.acctTotals_add.
  destruct (Js.read m (l_accountId l)) as [[dr cr] | |];
    [apply get_define_neq, Hne | reflexivity | apply get_define_neq, Hne].
Qed.

Lemma pdf_add_same (m : Js.obj (Q * Q)) (l : JournalLine) :
  Js.inherited (l_accountId l) = false ->
  Js.get (PDFReport.acctTotals_add m l) (l_accountId l)
  = Some (match Js.get m (l_accountId l) with
          | Some (dr, cr) => (dr + or0 (l_debit l), cr + or0 (l_credit l))
          | None => (0 + or0 (l_debit l), 0 + or0 (l_credit l))
          end).
Proof.
  intros NI. unfold PDFReport.acctTotals_add, Js.read. rewrite NI.
  destruct (Js.get m (l_accountId l)) as [[dr cr] |]; apply get_define_eq.
Qed.

(** The totals the PDF trial balance holds for an account id, after all
    lines. *)
Lemma pdf_totals_get (k : string) (lines : list JournalLine) :
  Js.inherited k = false ->
  forall m : Js.obj (Q * Q),
    Js.get (fold_left PDFReport.acctTotals_add lines m) k
    = match Js.get m k with
      | Some start => Some (pdf_totals k lines start)
      | None =>
          match lines_of k lines with
          | [] => None
          | _ :: _ => Some (pdf_totals k lines (0, 0))
          end
      end.
Proof.
  intros NI. unfold pdf_totals, lines_of.
  induction lines as [| l ls IH]; intros m.
  - cbn [fold_left filter]. destruct (Js.get m k) as [[dr cr] |]; reflexivity.
  - cbn [fold_left filter]. rewrite IH.
    destruct (String.eqb (l_accountId l) k) eqn:E.
    + apply String.eqb_eq in E. subst k. rewrite (pdf_add_same m l NI).
      destruct (Js.get m (l_accountId l)) as [[dr cr] |]; reflexivity.
    + apply String.eqb_neq in E. rewrite (pdf_add_other m l k E).
      reflexivity.
Qed.

Lemma fold_left_add_shown {A : Type} (f : A -> option Q) (l : list A)
    (init : Q) :
  fold_left (fun t a => PDFReport.add_shown t (f a)) l init
  == init + sumQ (map (fun a => shown_amount (f a)) l).
Proof.
  revert init. induction l as [| x l IH]; intros init;
    cbn [fold_left map sumQ fold_right]; [ring |].
  rewrite IH. unfold sumQ. destruct (f x); cbn [PDFReport.add_shown shown_amount]; ring.
Qed.

(** What an account adds to the grand totals of the PDF trial balance. *)
Lemma pdf_shown_amounts (r : DB.BalanceRow) (lines : list JournalLine) :
  Js.inherited (a_id (DB.acct r)) = false ->
  nonnegative lines ->
  let acctTotals := fold_left PDFReport.acctTotals_add lines [] in
  shown_amount (PDFReport.shown_debit acctTotals r)
  == sumQ (map l_debit (lines_of (a_id (DB.acct r)) lines))
  /\ shown_amount (PDFReport.shown_credit acctTotals r)
     == sumQ (map l_credit (lines_of (a_id (DB.acct r)) lines))
  /\ (PDFReport.listed acctTotals r = false ->
      lines_of (a_id (DB.acct r)) lines = []).
Proof.
  intros NI NN acctTotals.
  unfold PDFReport.shown_debit, PDFReport.shown_credit, PDFReport.listed,
    PDFReport.trial_totals, Js.read.
  subst acctTotals. rewrite (pdf_totals_get _ lines NI []), NI.
  cbn [Js.get].
  destruct (lines_of (a_id (DB.acct r)) lines) as [| l0 ls0] eqn:E.
  - repeat split; reflexivity.
  - unfold pdf_totals. rewrite E. cbn [fst snd].
    assert (Nd : 0 <= sumQ (map l_debit (l0 :: ls0))).
    { apply sumQ_nonneg. intros x Hx. apply in_map_iff in Hx.
      destruct Hx as [l [<- Hl]]. rewrite <- E in Hl.
      apply lines_of_In in Hl. apply NN, Hl. }
    assert (Nc : 0 <= sumQ (map l_credit (l0 :: ls0))).
    { apply sumQ_nonneg. intros x Hx. apply in_map_iff in Hx.
      destruct Hx as [l [<- Hl]]. rewrite <- E in Hl.
      apply lines_of_In in Hl. apply NN, Hl. }
    assert (Ed := fold_left_or0 l_debit (l0 :: ls0) 0).
    assert (Ec := fold_left_or0 l_credit (l0 :: ls0) 0).
    rewrite Qplus_0_l in Ed, Ec.
    repeat split; try discriminate.
    + destruct (Qgtb _ 0) eqn:G; cbn [shown_amount]; [exact Ed |].
      apply Qgtb_le in G. rewrite Ed in G. apply Qle_antisym; assumption.
    + destruct (Qgtb _ 0) eqn:G; cbn [shown_amount]; [exact Ec |].
      apply Qgtb_le in G. rewrite Ec in G. apply Qle_antisym; assumption.
Qed.

(** The grand totals of the PDF trial balance. *)
Lemma generate_trial_totals (cmp : string -> string -> Z)
    (accounts : list Account) (lines : list JournalLine) :
  store_keys accounts ->
  plain_ids accounts ->
  nonnegative lines ->
  let report :=
    PDFReport.generate_trial cmp (DB.getAccountBalances accounts lines) lines in
  PDFReport.trial_totalDr report
  == sumQ (map l_debit (posted_to accounts lines))
  /\ PDFReport.trial_totalCr report
     == sumQ (map l_credit (posted_to accounts lines)).
Proof.
  intros K PI NN.
  cbn [PDFReport.generate_trial PDFReport.trial_totalDr PDFReport.trial_totalCr].
  rewrite !fold_left_add_shown, !Qplus_0_l.
  set (acctTotals := fold_left PDFReport.acctTotals_add lines []).
  assert (Plain : forall r, In r (DB.getAccountBalances accounts lines) ->
                            Js.inherited (a_id (DB.acct r)) = false).
  { intros r Hr. destruct (getAccountBalances_In _ _ _ Hr) as [a [Ha ->]].
    exact (PI a Ha). }
  assert (S : forall (f : DB.BalanceRow -> Q) (g : JournalLine -> Q),
            (forall r, In r (DB.getAccountBalances accounts lines) ->
                       f r == sumQ (map g (lines_of (a_id (DB.acct r)) lines))) ->
            (forall r, In r (DB.getAccountBalances accounts lines) ->
                       PDFReport.listed acctTotals r = false ->
                       lines_of (a_id (DB.acct r)) lines = []) ->
            sumQ (map f
                    (sort (fun a b => cmp (a_code (DB.acct a)) (a_code (DB.acct b)))
                       (filter (PDFReport.listed acctTotals)
                               (DB.getAccountBalances accounts lines))))
            == sumQ (map g (posted_to accounts lines))).
  { intros f g Hf Hl.
    rewrite (sumQ_map_perm f _ _ (sort_perm _ _)).
    rewrite sumQ_filter_zero
      by (intros r Hr E; rewrite (Hf r Hr), (Hl r Hr E); reflexivity).
    rewrite (sumQ_map_ext f _ _ Hf).
    rewrite (sumQ_map_perm _ _ _ (getAccountBalances_perm accounts lines K)).
    rewrite map_map.
    apply (sum_by_account g accounts lines (proj1 K)). }
  split; apply S; intros r Hr;
    try (intros E; revert E);
    apply (pdf_shown_amounts r lines (Plain r Hr) NN).
Qed.

Lemma orphaned_entry_balances : every_entry_balances orphaned_entry.
Proof.
  intros e. unfold entry_lines, orphaned_entry. cbn [filter l_entryId].
  destruct (String.eqb "je_3" e); reflexivity.
Qed.

(** C4, as stated, fails: a line whose account is not in the chart is left
    out of the trial balance. With a debit of 100 to cash and its credit on
    a deleted account, the entry balances and the credits of the journal
    are 100, yet the trial balance totals 100 in debits and 0 in credits
    and is flagged unbalanced, on screen and in the PDF. *)
Lemma trial_balance_skips_orphans :
  every_entry_balances orphaned_entry
  /\ sumQ (map l_credit orphaned_entry) == 100
  /\ (let tb := renderTrialBalance codeUnitCompare [cash] orphaned_entry in
      tb_totalDr tb == 100 /\ tb_totalCr tb == 0 /\ tb_balanced tb = false)
  /\ (let report :=
        PDFReport.generate_trial codeUnitCompare
          (DB.getAccountBalances [cash] orphaned_entry) orphaned_entry in
      PDFReport.trial_totalDr report == 100
      /\ PDFReport.trial_totalCr report == 0).
Proof.
  split; [exact orphaned_entry_balances |].
  repeat split; vm_compute; reflexivity.
Qed.

Lemma renderTrialBalance_flag (cmp : string -> string -> Z)
    (accounts : list Account) (lines : list JournalLine) :
  let tb := renderTrialBalance cmp accounts lines in
  tb_balanced tb = true <-> Qabs (tb_totalDr tb - tb_totalCr tb) < 0.01.
Proof.
  cbn [renderTrialBalance tb_balanced tb_totalDr tb_totalCr]. apply Qltb_lt.
Qed.

Lemma Qgtb_comp (x y : Q) : x == y -> Qgtb x 0 = Qgtb y 0.
Proof.
  intros E. unfold Qgtb, Qltb. f_equal.
  destruct (Qle_bool x 0) eqn:A, (Qle_bool y 0) eqn:B; try reflexivity.
  - apply Qle_bool_iff in A. rewrite E in A. apply Qle_bool_iff in A.
    congruence.
  - apply Qle_bool_iff in B. rewrite <- E in B. apply Qle_bool_iff in B.
    congruence.
Qed.

Lemma above_zero_comp (x y : Q) : x == y -> above_zero x == above_zero y.
Proof.
  intros E. unfold above_zero. rewrite (Qgtb_comp x y E).
  destruct (Qgtb y 0); [exact E | reflexivity].
Qed.

Lemma active_totals_of (lines : list JournalLine) (a : Account) :
  Qgtb (totalDr (totals_of lines a)) 0 || Qgtb (totalCr (totals_of lines a)) 0
  = active_account lines a.
Proof.
  unfold active_account, account_debits, account_credits.
  rewrite (Qgtb_comp _ _ (totals_of_debit lines a)).
  rewrite (Qgtb_comp _ _ (totals_of_credit lines a)). reflexivity.
Qed.

Lemma filter_map_comm {A B : Type} (p : B -> bool) (f : A -> B) (l : list A) :
  filter p (map f l) = map f (filter (fun x => p (f x)) l).
Proof.
  induction l as [| x l IH]; simpl; [reflexivity |].
  destruct (p (f x)); simpl; rewrite IH; reflexivity.
Qed.

(** The grand totals of the on-screen trial balance, whatever the sign of
    the amounts: the totals of the accounts it keeps. *)
Lemma renderTrialBalance_active_totals (cmp : string -> string -> Z)
    (accounts : list Account) (lines : list JournalLine) :
  store_keys accounts ->
  tb_totalDr (renderTrialBalance cmp accounts lines)
  == sumQ (map (fun a => account_debits a lines)
               (filter (active_account lines) accounts))
  /\ tb_totalCr (renderTrialBalance cmp accounts lines)
     == sumQ (map (fun a => account_credits a lines)
                  (filter (active_account lines) accounts)).
Proof.
  intros K. cbn [renderTrialBalance tb_totalDr tb_totalCr].
  rewrite (fold_left_add totalDr), (fold_left_add totalCr), !Qplus_0_l.
  assert (P := acctTotals_perm accounts lines K).
  assert (Z : forall (f : AcctTotals -> Q),
            sumQ (map f
                    (sort (fun a b => byCode cmp (t_account a) (t_account b))
                       (filter (fun a => Qgtb (totalDr a) 0 || Qgtb (totalCr a) 0)
                          (Js.values (fold_left acctTotals_add lines
                                        (acctTotals_init accounts))))))
            == sumQ (map (fun a => f (totals_of lines a))
                         (filter (active_account lines) accounts))).
  { intros f.
    rewrite (sumQ_map_perm f _ _ (sort_perm _ _)).
    rewrite (sumQ_map_perm f _ _ (filter_perm _ _ _ P)).
    rewrite filter_map_comm, map_map.
    rewrite (filter_ext _ (active_account lines))
      by (intros a; apply active_totals_of).
    reflexivity. }
  split; rewrite Z; apply sumQ_map_ext; intros a _;
    [apply totals_of_debit | apply totals_of_credit].
Qed.

(** What an account adds to the grand totals of the PDF trial balance,
    whatever the sign of the amounts. *)
Lemma pdf_shown_above_zero (r : DB.BalanceRow) (lines : list JournalLine) :
  Js.inherited (a_id (DB.acct r)) = false ->
  let acctTotals := fold_left PDFReport.acctTotals_add lines [] in
  shown_amount (PDFReport.shown_debit acctTotals r)
  == above_zero (account_debits (DB.acct r) lines)
  /\ shown_amount (PDFReport.shown_credit acctTotals r)
     == above_zero (account_credits (DB.acct r) lines).
Proof.
  intros NI acctTotals.
  unfold PDFReport.shown_debit, PDFReport.shown_credit,
    PDFReport.trial_totals, Js.read, account_debits, account_credits.
  subst acctTotals. rewrite (pdf_totals_get _ lines NI []), NI.
  cbn [Js.get].
  destruct (lines_of (a_id (DB.acct r)) lines) as [| l0 ls0] eqn:E.
  - split; reflexivity.
  - unfold pdf_totals. rewrite E. cbn [fst snd].
    assert (Ed := fold_left_or0 l_debit (l0 :: ls0) 0).
    assert (Ec := fold_left_or0 l_credit (l0 :: ls0) 0).
    rewrite Qplus_0_l in Ed, Ec.
    split.
    + rewrite <- (above_zero_comp _ _ Ed). unfold above_zero.
      destruct (Qgtb _ 0); reflexivity.
    + rewrite <- (above_zero_comp _ _ Ec). unfold above_zero.
      destruct (Qgtb _ 0); reflexivity.
Qed.

Lemma pdf_unlisted_above_zero (r : DB.BalanceRow) (lines : list JournalLine) :
  Js.inherited (a_id (DB.acct r)) = false ->
  PDFReport.listed (fold_left PDFReport.acctTotals_add lines []) r = false ->
  above_zero (account_debits (DB.acct r) lines) == 0
  /\ above_zero (account_credits (DB.acct r) lines) == 0.
Proof.
  intros NI. unfold PDFReport.listed, Js.read, account_debits, account_credits.
  rewrite (pdf_totals_get _ lines NI []), NI. cbn [Js.get].
  destruct (lines_of (a_id (DB.acct r)) lines); [| discriminate].
  intros _. split; reflexivity.
Qed.

(** The grand totals of the PDF trial balance, whatever the sign of the
    amounts: of every account, the total that is above zero. *)
Lemma generate_trial_above_zero (cmp : string -> string -> Z)
    (accounts : list Account) (lines : list JournalLine) :
  store_keys accounts ->
  plain_ids accounts ->
  let report :=
    PDFReport.generate_trial cmp (DB.getAccountBalances accounts lines) lines in
  PDFReport.trial_totalDr report
  == sumQ (map (fun a => above_zero (account_debits a lines)) accounts)
  /\ PDFReport.trial_totalCr report
     == sumQ (map (fun a => above_zero (account_credits a lines)) accounts).
Proof.
  intros K PI.
  cbn [PDFReport.generate_trial PDFReport.trial_totalDr PDFReport.trial_totalCr].
  rewrite !fold_left_add_shown, !Qplus_0_l.
  set (acctTotals := fold_left PDFReport.acctTotals_add lines []).
  assert (Plain : forall r, In r (DB.getAccountBalances accounts lines) ->
                            Js.inherited (a_id (DB.acct r)) = false).
  { intros r Hr. destruct (getAccountBalances_In _ _ _ Hr) as [a [Ha ->]].
    exact (PI a Ha). }
  assert (S : forall (f : DB.BalanceRow -> Q) (g : Account -> Q),
            (forall r, In r (DB.getAccountBalances accounts lines) ->
                       f r == above_zero (g (DB.acct r))) ->
            (forall r, In r (DB.getAccountBalances accounts lines) ->
                       PDFReport.listed acctTotals r = false ->
                       above_zero (g (DB.acct r)) == 0) ->
            (forall a b, a_id a = a_id b -> g a = g b) ->
            sumQ (map f
                    (sort (fun a b => cmp (a_code (DB.acct a)) (a_code (DB.acct b)))
                       (filter (PDFReport.listed acctTotals)
                               (DB.getAccountBalances accounts lines))))
            == sumQ (map (fun a => above_zero (g a)) accounts)).
  { intros f g Hf Hl Hg.
    rewrite (sumQ_map_perm f _ _ (sort_perm _ _)).
    rewrite sumQ_filter_zero
      by (intros r Hr E; rewrite (Hf r Hr); apply (Hl r Hr E)).
    rewrite (sumQ_map_ext f _ _ Hf).
    rewrite (sumQ_map_perm _ _ _ (getAccountBalances_perm accounts lines K)).
    rewrite map_map. apply sumQ_map_ext. intros a _.
    rewrite (Hg _ a); [reflexivity | reflexivity]. }
  split.
  - apply (S _ (fun a => account_debits a lines)).
    + intros r Hr. apply (pdf_shown_above_zero r lines (Plain r Hr)).
    + intros r Hr E. apply (pdf_unlisted_above_zero r lines (Plain r Hr) E).
    + intros a b E. unfold account_debits. rewrite E. reflexivity.
  - apply (S _ (fun a => account_credits a lines)).
    + intros r Hr. apply (pdf_shown_above_zero r lines (Plain r Hr)).
    + intros r Hr E. apply (pdf_unlisted_above_zero r lines (Plain r Hr) E).
    + intros a b E. unfold account_credits. rewrite E. reflexivity.
Qed.

Lemma updates_totals64 (k : string) (ls : list Binary64.Line)
    (t : Binary64.AcctTotals) :
  updates Binary64.l_accountId
    (fun l t =>
       Binary64.mkTotals (Binary64.t_account t)
         (Binary64.totalDr t + Binary64.or0 (Binary64.l_debit l))%float
         (Binary64.totalCr t + Binary64.or0 (Binary64.l_credit l))%float)
    k ls t
  = Binary64.mkTotals (Binary64.t_account t)
      (fold_left (fun s l => (s + Binary64.or0 (Binary64.l_debit l))%float)
                 (lines_of64 k ls) (Binary64.totalDr t))
      (fold_left (fun s l => (s + Binary64.or0 (Binary64.l_credit l))%float)
                 (lines_of64 k ls) (Binary64.totalCr t)).
Proof.
  unfold updates, lines_of64.
  revert t. induction (filter _ ls) as [| l fl IH]; intros t; simpl.
  - destruct t. reflexivity.
  - rewrite IH. reflexivity.
Qed.

(** The records of the trial balance on binary64 numbers: the accounts a
    total of which is above zero, each with its two sums taken line by
    line. *)
Lemma renderTrialBalance64_rows (cmp : string -> string -> Z)
    (accounts : list Account) (lines : list Binary64.Line) :
  store_keys accounts ->
  Permutation
    (Binary64.tb_activeAccounts
       (Binary64.renderTrialBalance cmp accounts lines))
    (filter active64 (map (totals64 lines) accounts)).
Proof.
  intros [ND NP]. cbn [Binary64.renderTrialBalance Binary64.tb_activeAccounts].
  eapply perm_trans; [apply sort_perm |].
  apply (filter_perm active64).
  change Binary64.acctTotals_add
    with (accumulate_step Binary64.l_accountId
            (fun l t =>
               Binary64.mkTotals (Binary64.t_account t)
                 (Binary64.totalDr t + Binary64.or0 (Binary64.l_debit l))%float
                 (Binary64.totalCr t
                  + Binary64.or0 (Binary64.l_credit l))%float)).
  change (Binary64.acctTotals_init accounts)
    with (fill a_id (fun a => Binary64.mkTotals a 0%float 0%float) []
            accounts).
  rewrite accumulate_map by (apply fill_NoDup; constructor).
  eapply perm_trans; [apply values_perm |].
  rewrite fill_distinct; [| exact ND | exact NP].
  simpl. rewrite !map_map. simpl.
  erewrite map_ext; [apply Permutation_refl |].
  intros a. simpl. rewrite updates_totals64. reflexivity.
Qed.

Lemma sum64_map {A : Type} (f : A -> float) (l : list A) (init : float) :
  fold_left (fun s a => (s + f a)%float) l init
  = fold_left PrimFloat.add (map f l) init.
Proof.
  revert init. induction l as [| x l IH]; intros init; simpl;
    [reflexivity | apply IH].
Qed.

(** On the numbers of the program the two grand totals of balanced entries
    need not be equal: with 0.1 borrowed and 0.2 and 0.3 sold, all received
    in cash, every entry has equal debits and credits, the debits total
    0.6000000000000001 and the credits 0.6. *)
Lemma trial_totals_round_apart :
  map (fun e => entry_sums64 e three_receipts) ["je_1"; "je_2"; "je_3"]
  = [ (0.1, 0.1); (0.2, 0.2); (0.3, 0.3) ]%float
  /\ (let tb := Binary64.renderTrialBalance codeUnitCompare
                  [cash; sales; payable] three_receipts in
      Binary64.tb_totalDr tb = 0.60000000000000009%float
      /\ Binary64.tb_totalCr tb = 0.59999999999999998%float
      /\ Binary64.tb_balanced tb = true).
Proof. repeat split; vm_compute; reflexivity. Qed.

(** With a negative amount on the other side of a line the PDF export and
    the view differ: the view adds both totals of an account it keeps, the
    PDF only a total above zero. *)
Lemma pdf_trial_skips_negative_totals :
  (let tb := renderTrialBalance codeUnitCompare [cash; sales]
               negative_side_entry in
   tb_totalDr tb == 100 /\ tb_totalCr tb == 100)
  /\ (let report :=
        PDFReport.generate_trial codeUnitCompare
          (DB.getAccountBalances [cash; sales] negative_side_entry)
          negative_side_entry in
      PDFReport.trial_totalDr report == 100
      /\ PDFReport.trial_totalCr report == 150).
Proof. repeat split; vm_compute; reflexivity. Qed.

(** C4, amended. For the accounts of a store (distinct ids, none of them
    [__proto__]) and every list of lines, in exact arithmetic: the grand
    totalDebit of the on-screen trial balance is the sum of the debits of
    the accounts it keeps (those with debits or credits above zero), and
    its grand totalCredit the sum of their credits; the flag is the test of
    the difference against 0.01. When no amount is negative, the two
    totals are the sums of the debit and of the credit fields of the lines
    that refer to an existing account (lines of unknown accounts are left
    out); if moreover every line refers to an existing account and every
    entry balances, totalDebit equals totalCredit and the flag is set.
    When no account id is a name inherited from [Object.prototype], the
    PDF export totals, of every account, the debits that are above zero
    and the credits that are above zero; these are the totals of the view
    when no amount is negative. On the binary64 numbers of the program
    the view keeps the accounts with a total above zero, each total summed
    line by line, and adds the totals up account by account in the order
    shown. *)
Theorem trial_balance_totals (cmp : string -> string -> Z)
    (accounts : list Account) :
  store_keys accounts ->
  (forall lines : list JournalLine,
     let tb := renderTrialBalance cmp accounts lines in
     (tb_totalDr tb
      == sumQ (map (fun a => account_debits a lines)
                   (filter (active_account lines) accounts))
      /\ tb_totalCr tb
         == sumQ (map (fun a => account_credits a lines)
                      (filter (active_account lines) accounts)))
     /\ (tb_balanced tb = true
         <-> Qabs (tb_totalDr tb - tb_totalCr tb) < 0.01)
     /\ (nonnegative lines ->
         tb_totalDr tb == sumQ (map l_debit (posted_to accounts lines))
         /\ tb_totalCr tb == sumQ (map l_credit (posted_to accounts lines))
         /\ (no_orphans accounts lines -> every_entry_balances lines ->
             tb_totalDr tb == sumQ (map l_debit lines)
             /\ tb_totalCr tb == sumQ (map l_credit lines)
             /\ tb_totalDr tb == tb_totalCr tb
             /\ tb_balanced tb = true))
     /\ (plain_ids accounts ->
         let report :=
           PDFReport.generate_trial cmp (DB.getAccountBalances accounts lines)
                                    lines in
         (PDFReport.trial_totalDr report
          == sumQ (map (fun a => above_zero (account_debits a lines)) accounts)
          /\ PDFReport.trial_totalCr report
             == sumQ (map (fun a => above_zero (account_credits a lines))
                          accounts))
         /\ (nonnegative lines ->
             PDFReport.trial_totalDr report == tb_totalDr tb
             /\ PDFReport.trial_totalCr report == tb_totalCr tb)))
  /\ (forall lines : list Binary64.Line,
        let tb := Binary64.renderTrialBalance cmp accounts lines in
        Permutation (Binary64.tb_activeAccounts tb)
                    (filter active64 (map (totals64 lines) accounts))
        /\ Binary64.tb_totalDr tb
           = sum64 (map Binary64.totalDr (Binary64.tb_activeAccounts tb))
        /\ Binary64.tb_totalCr tb
           = sum64 (map Binary64.totalCr (Binary64.tb_activeAccounts tb))).
Proof.
  intros K. split.
  - intros lines tb.
    split; [apply (renderTrialBalance_active_totals cmp accounts lines K) |].
    split; [apply renderTrialBalance_flag |].
    split.
    + intros NN.
      destruct (renderTrialBalance_totals cmp accounts lines K NN) as [Ed Ec].
      fold tb in Ed, Ec.
      split; [exact Ed |]. split; [exact Ec |].
      intros NO B. rewrite (posted_to_all accounts lines NO) in Ed, Ec.
      assert (E : tb_totalDr tb == tb_totalCr tb).
      { rewrite Ed, Ec. assert (H0 := balanced_entries_net lines B).
        rewrite sumQ_net in H0. lra. }
      repeat split; try assumption.
      apply (renderTrialBalance_flag cmp accounts lines). fold tb.
      rewrite E. setoid_replace (tb_totalCr tb - tb_totalCr tb) with 0 by ring.
      reflexivity.
    + intros PI report.
      split; [apply (generate_trial_above_zero cmp accounts lines K PI) |].
      intros NN.
      destruct (renderTrialBalance_totals cmp accounts lines K NN) as [Ed Ec].
      fold tb in Ed, Ec.
      destruct (generate_trial_totals cmp accounts lines K PI NN) as [Pd Pc].
      fold report in Pd, Pc. rewrite Pd, Pc, Ed, Ec. split; reflexivity.
  - intros lines tb.
    split; [apply renderTrialBalance64_rows, K |].
    split; apply sum64_map.
Qed.

Lemma small_journal_nonnegative : nonnegative small_journal.
Proof.
  intros l Hl. repeat (destruct Hl as [<- | Hl]; [split; discriminate |]).
  destruct Hl.
Defined.

Lemma trial_balance_totals_witness :
  store_keys small_chart
  /\ tb_totalDr (renderTrialBalance codeUnitCompare small_chart small_journal)
     == sumQ (map (fun a => account_debits a small_journal)
                  (filter (active_account small_journal) small_chart)).
Proof.
  split; [exact small_chart_distinct |].
  exact (proj1 (proj1 (proj1 (trial_balance_totals codeUnitCompare small_chart
                                small_chart_distinct) small_journal))).
Defined.

(* ================================================================== *)
(** * The income statement *)



Lemma of_type_In (t : AccountType) (rows : list DB.BalanceRow)
    (r : DB.BalanceRow) :
  In r (PDFReport.of_type t rows) <-> In r rows /\ a_type (DB.acct r) = t.
Proof.
  unfold PDFReport.of_type. rewrite filter_In. split; intros [H1 H2];
    (split; [exact H1 |]).
  - destruct (a_type (DB.acct r)), t; try discriminate; reflexivity.
  - rewrite H2. destruct t; reflexivity.
Qed.



(** Scenario A: after a debit of 500 to cash and a credit of 500 to sales,
    total revenue is 500 and net income is 500. *)
Lemma scenario_A_income :
  let lines := firstn 2 small_journal in
  let st := renderIncomeStatement codeUnitCompare
              (DB.getAccountBalances small_chart lines) lines in
  is_totalRev st == 500 /\ is_netIncome st == 500.
Proof. split; vm_compute; reflexivity. Qed.









(* ================================================================== *)
(** * The classifier: which amount a line yields *)






Lemma tokchar_not_space (c : ascii) :
  PDFParser.tokchar c = true -> Text.is_space c = false.
Proof.
  unfold PDFParser.tokchar, Js.is_digit, Text.is_space. intros H.
  apply orb_prop in H. destruct H as [H | H].
  - apply andb_prop in H. destruct H as [H1 H2].
    apply N.leb_le in H1. apply N.leb_le in H2.
    repeat rewrite orb_false_iff. repeat split.
    + apply andb_false_iff. right. apply N.leb_gt. lia.
    + apply N.eqb_neq. lia.
    + apply N.eqb_neq. lia.
  - apply Ascii.eqb_eq in H. subst c. reflexivity.
Qed.














(** The amount of the item a line yields is the last of its positive
    amounts. *)
Lemma classify_line_amount (line : list ascii) (item : ClassifiedItem) :
  PDFParser.classify_line line = Some item ->
  exists earlier,
    PDFParser.amounts_of line = earlier ++ [c_amount item]
    /\ 1 <= c_amount item.
Proof.
  unfold PDFParser.classify_line.
  destruct (PDFParser.amounts_of line) as [| first others] eqn:E;
    [discriminate |].
  destruct (PDFParser.category_of line); [| discriminate].
  destruct (Qle_bool 1 (last (first :: others) 0)) eqn:G; [| discriminate].
  destruct (3 <? _)%nat; [| discriminate].
  intros H. injection H as <-. cbn [c_amount].
  exists (removelast (first :: others)). split.
  - exact (@app_removelast_last _ (first :: others) 0 ltac:(discriminate)).
  - apply Qle_bool_iff, G.
Qed.

(** Scenario C: the line "Office Rent Expense $1,250.00" yields one
    Expense candidate of 1250.00 described as "Office Rent Expense". *)
Lemma scenario_C_classified :
  PDFParser.classify "Office Rent Expense $1,250.00"
  = [mkItem "Office Rent Expense" 1250.00 ItemExpense
            "Office Rent Expense $1,250.00"].
Proof. vm_compute. reflexivity. Qed.




(* ================================================================== *)
(** * The record collections *)

Section Collections.
Context {R : Type} (key : R -> string).

Lemma get_put_same (all : list R) (record : R) :
  DB.get key (DB.put key all record) (key record) = Some record.
Proof.
  unfold DB.get. induction all as [| r rest IH]; cbn [DB.put find].
  - rewrite String.eqb_refl. reflexivity.
  - destruct (String.eqb (key r) (key record)) eqn:E; cbn [find].
    + rewrite String.eqb_refl. reflexivity.
    + rewrite E. exact IH.
Qed.

Lemma get_put_other (all : list R) (record : R) (id : string) :
  id <> key record ->
  DB.get key (DB.put key all record) id = DB.get key all id.
Proof.
  intros N. unfold DB.get. induction all as [| r rest IH]; cbn [DB.put find].
  - destruct (String.eqb (key record) id) eqn:E; [| reflexivity].
    apply String.eqb_eq in E. congruence.
  - destruct (String.eqb (key r) (key record)) eqn:E; cbn [find].
    + apply String.eqb_eq in E. rewrite E.
      destruct (String.eqb (key record) id) eqn:E'; [| reflexivity].
      apply String.eqb_eq in E'. congruence.
    + destruct (String.eqb (key r) id); [reflexivity | exact IH].
Qed.

Lemma del_NoDup (all : list R) (id : string) :
  NoDup (map key all) -> NoDup (map key (DB.del key all id)).
Proof.
  unfold DB.del. induction all as [| r rest IH]; intros H; cbn [filter map].
  - constructor.
  - inversion H as [| ? ? Hn Hr]; subst.
    destruct (negb (String.eqb (key r) id)); cbn [map]; [| auto].
    constructor; [| auto].
    intros Hin. apply Hn. apply in_map_iff in Hin.
    destruct Hin as [x [Hx Hin]]. apply filter_In in Hin.
    apply in_map_iff. exists x. tauto.
Qed.

Lemma put_NoDup (all : list R) (record : R) :
  NoDup (map key all) -> NoDup (map key (DB.put key all record)).
Proof.
  intros H. rewrite put_keys.
  destruct (in_dec string_dec (key record) (map key all)) as [Hin | Hn];
    [exact H |].
  apply NoDup_app; [exact H | repeat constructor; simpl; tauto |].
  intros x Hx [<- | []]. exact (Hn Hx).
Qed.

Lemma get_del_other (all : list R) (id0 id : string) :
  id <> id0 -> DB.get key (DB.del key all id0) id = DB.get key all id.
Proof.
  intros N. unfold DB.get, DB.del.
  induction all as [| r rest IH]; cbn [filter find]; [reflexivity |].
  destruct (String.eqb (key r) id0) eqn:E0; cbn [negb find].
  - rewrite IH. destruct (String.eqb (key r) id) eqn:E1; [| reflexivity].
    apply String.eqb_eq in E0, E1. congruence.
  - destruct (String.eqb (key r) id); [reflexivity | exact IH].
Qed.

Lemma get_del_same (all : list R) (id : string) :
  DB.get key (DB.del key all id) id = None.
Proof.
  unfold DB.get, DB.del.
  induction all as [| r rest IH]; cbn [filter find]; [reflexivity |].
  destruct (String.eqb (key r) id) eqn:E; cbn [negb find]; [exact IH |].
  rewrite E. exact IH.
Qed.

End Collections.

(** X1: reading after writing. [get] after [put] gives the record just
    written for its id and what was there before for every other id. *)
Theorem get_after_put {R : Type} (key : R -> string) (all : list R)
    (record : R) (id : string) :
  DB.get key (DB.put key all record) id
  = if String.eqb id (key record) then Some record else DB.get key all id.
Proof.
  destruct (String.eqb id (key record)) eqn:E.
  - apply String.eqb_eq in E. subst id. apply get_put_same.
  - apply String.eqb_neq in E. apply get_put_other, E.
Qed.

(** X2: reading after deleting. [get] after [del] finds nothing under the
    deleted id and what was there before under every other id. *)
Theorem get_after_del {R : Type} (key : R -> string) (all : list R)
    (id0 id : string) :
  DB.get key (DB.del key all id0) id
  = if String.eqb id id0 then None else DB.get key all id.
Proof.
  destruct (String.eqb id id0) eqn:E.
  - apply String.eqb_eq in E. subst id. apply get_del_same.
  - apply String.eqb_neq in E. apply get_del_other, E.
Qed.

(** X3: ids stay distinct. Whatever records are put and whatever ids are
    deleted, a collection whose ids are pairwise distinct keeps them
    pairwise distinct. *)
Theorem ids_stay_distinct {R : Type} (key : R -> string)
    (ops : list (StoreOp R)) (all : list R) :
  NoDup (map key all) -> NoDup (map key (run_ops key ops all)).
Proof.
  unfold run_ops. revert all.
  induction ops as [| op ops IH]; intros all H; cbn [fold_left]; [exact H |].
  apply IH. destruct op; cbn [apply_op]; [apply put_NoDup | apply del_NoDup];
    exact H.
Qed.

Lemma ids_stay_distinct_witness :
  NoDup (map a_id (@nil Account))
  /\ NoDup (map a_id (run_ops a_id [OpPut cash; OpPut sales; OpPut cash;
                                    OpDel "acc_4000"] [])).
Proof.
  split; [constructor |].
  apply (ids_stay_distinct a_id
           [OpPut cash; OpPut sales; OpPut cash; OpDel "acc_4000"] []).
  constructor.
Defined.

(* ================================================================== *)
(** * Sorting *)

Section SortFacts.
Context {A : Type} (cmp : A -> A -> Z).

Local Abbreviation le := (fun x y => (cmp x y <= 0)%Z).

Hypothesis cmp_total : forall x y, (0 < cmp x y)%Z -> (cmp y x <= 0)%Z.
Hypothesis cmp_trans :
  forall x y z, (cmp x y <= 0)%Z -> (cmp y z <= 0)%Z -> (cmp x z <= 0)%Z.

Lemma insert_sorted_In (x y : A) (l : list A) :
  In y (insert_sorted cmp x l) -> y = x \/ In y l.
Proof.
  intros H. apply (Permutation_in _ (insert_sorted_perm cmp x l)) in H.
  destruct H as [<- | H]; auto.
Qed.

Lemma insert_sorted_sorted (x : A) (l : list A) :
  StronglySorted le l -> StronglySorted le (insert_sorted cmp x l).
Proof.
  induction l as [| y r IH]; intros H; cbn [insert_sorted].
  - repeat constructor.
  - inversion H as [| ? ? Hr Hy]; subst.
    destruct (cmp x y <=? 0)%Z eqn:E.
    + apply Z.leb_le in E. constructor; [exact H |].
      constructor; [exact E |].
      rewrite Forall_forall in *. intros z Hz. eapply cmp_trans; eauto.
    + apply Z.leb_gt in E. constructor; [auto |].
      rewrite Forall_forall in *. intros z Hz.
      apply insert_sorted_In in Hz. destruct Hz as [-> | Hz]; auto.
Qed.

Lemma sort_sorted (l : list A) : StronglySorted le (sort cmp l).
Proof.
  unfold sort. induction l as [| x r IH]; cbn [fold_right].
  - constructor.
  - apply insert_sorted_sorted, IH.
Qed.

Lemma insert_sorted_head (x : A) (l : list A) :
  Forall (le x) l -> insert_sorted cmp x l = x :: l.
Proof.
  destruct l as [| y r]; intros H; cbn [insert_sorted]; [reflexivity |].
  inversion H as [| ? ? Hy _]; subst.
  apply Z.leb_le in Hy. rewrite Hy. reflexivity.
Qed.

Lemma sort_sorted_id (l : list A) : StronglySorted le l -> sort cmp l = l.
Proof.
  unfold sort. induction l as [| x r IH]; intros H; cbn [fold_right];
    [reflexivity |].
  inversion H as [| ? ? Hr Hx]; subst.
  rewrite (IH Hr). apply insert_sorted_head, Hx.
Qed.

End SortFacts.

Lemma StronglySorted_impl {A : Type} (P Q : A -> A -> Prop) (l : list A) :
  (forall x y, P x y -> Q x y) -> StronglySorted P l -> StronglySorted Q l.
Proof.
  intros PQ H. induction H as [| a l0 _ IH Ha]; constructor; [exact IH |].
  rewrite Forall_forall in *. intros x Hx. apply PQ, Ha, Hx.
Qed.

Lemma sort_by_seq_sorted (l : list JournalLine) :
  StronglySorted by_seq (sort (fun a b => (l_seq a - l_seq b)%Z) l).
Proof.
  apply StronglySorted_impl
    with (P := fun x y => (l_seq x - l_seq y <= 0)%Z).
  - intros x y H. unfold by_seq. lia.
  - apply (sort_sorted (fun a b => (l_seq a - l_seq b)%Z)); intros; lia.
Qed.

Lemma sort_by_seq_id (l : list JournalLine) :
  StronglySorted by_seq l -> sort (fun a b => (l_seq a - l_seq b)%Z) l = l.
Proof.
  intros H. apply sort_sorted_id.
  apply StronglySorted_impl with (P := by_seq); [| exact H].
  intros x y Hxy. unfold by_seq in Hxy. lia.
Qed.

(* ================================================================== *)
(** * The lines of an entry *)

(** X4: [getLinesForEntry] returns the lines of the entry, all of them
    and no other, in ascending order of [seq]; lines already stored in that
    order come back in store order. *)
Theorem getLinesForEntry_sorted (s : DB.Store) (entryId : string) :
  Permutation (DB.getLinesForEntry s entryId)
              (entry_lines entryId (DB.LINES s))
  /\ StronglySorted by_seq (DB.getLinesForEntry s entryId)
  /\ (forall l, In l (DB.getLinesForEntry s entryId)
                <-> In l (DB.LINES s) /\ l_entryId l = entryId)
  /\ (StronglySorted by_seq (entry_lines entryId (DB.LINES s)) ->
      DB.getLinesForEntry s entryId = entry_lines entryId (DB.LINES s)).
Proof.
  unfold DB.getLinesForEntry. fold (entry_lines entryId (DB.LINES s)).
  split; [apply sort_perm |].
  split; [apply sort_by_seq_sorted |].
  split; [| apply sort_by_seq_id].
  intros l. split.
  - intros H. apply (Permutation_in _ (sort_perm _ _)) in H.
    apply filter_In in H. destruct H as [H E]. apply String.eqb_eq in E. auto.
  - intros [H E]. apply (Permutation_in _ (Permutation_sym (sort_perm _ _))).
    apply filter_In. split; [exact H |]. apply String.eqb_eq, E.
Qed.

Lemma NoDup_key_inj {A : Type} (key : A -> string) (l : list A) (x y : A) :
  NoDup (map key l) -> In x l -> In y l -> key x = key y -> x = y.
Proof.
  induction l as [| z zs IH]; [contradiction |].
  cbn [map]. intros ND Hx Hy E. inversion ND as [| ? ? Hn Hr]; subst.
  destruct Hx as [-> | Hx], Hy as [-> | Hy].
  - reflexivity.
  - exfalso. apply Hn. rewrite E. apply in_map, Hy.
  - exfalso. apply Hn. rewrite <- E. apply in_map, Hx.
  - apply IH; assumption.
Qed.

Lemma fold_deleteLine (ids : list JournalLine) (s : DB.Store) :
  fold_left (fun s l => DB.deleteLine s (l_id l)) ids s
  = DB.mkStore (DB.ACCOUNTS s) (DB.ENTRIES s)
      (filter (fun l => negb (existsb (fun d => String.eqb (l_id l) (l_id d)) ids))
              (DB.LINES s)).
Proof.
  revert s. induction ids as [| d ids IH]; intros s; cbn [fold_left].
  - destruct s as [a e ls]. cbn. f_equal.
    induction ls as [| l ls IHl]; cbn; [reflexivity | f_equal; exact IHl].
  - rewrite IH. cbn [DB.deleteLine DB.ACCOUNTS DB.ENTRIES DB.LINES].
    f_equal. unfold DB.del.
    induction (DB.LINES s) as [| l ls IHl]; cbn [filter]; [reflexivity |].
    cbn [existsb]. destruct (String.eqb (l_id l) (l_id d)); cbn [negb orb].
    + exact IHl.
    + cbn [filter]. destruct (negb (existsb _ ids)); [f_equal |]; exact IHl.
Qed.

Lemma deleteLinesForEntry_frame (s : DB.Store) (entryId : string) :
  DB.ACCOUNTS (DB.deleteLinesForEntry s entryId) = DB.ACCOUNTS s
  /\ DB.ENTRIES (DB.deleteLinesForEntry s entryId) = DB.ENTRIES s.
Proof.
  unfold DB.deleteLinesForEntry. rewrite fold_deleteLine. split; reflexivity.
Qed.

Lemma deleteLinesForEntry_lines (s : DB.Store) (entryId : string) :
  NoDup (map l_id (DB.LINES s)) ->
  DB.LINES (DB.deleteLinesForEntry s entryId)
  = lines_of_others entryId (DB.LINES s).
Proof.
  unfold DB.deleteLinesForEntry. rewrite fold_deleteLine. cbn [DB.LINES].
  intros ND. unfold lines_of_others.
  apply filter_ext_in. intros l Hl. f_equal.
  destruct (String.eqb (l_entryId l) entryId) eqn:E.
  - apply existsb_exists. exists l. split; [| apply String.eqb_refl].
    apply filter_In. split; assumption.
  - destruct (existsb _ _) eqn:X; [| reflexivity].
    apply existsb_exists in X. destruct X as [d [Hd Hid]].
    apply filter_In in Hd. destruct Hd as [Hd Ed].
    apply String.eqb_eq in Hid.
    assert (l = d) by (eapply NoDup_key_inj; eauto).
    subst d. congruence.
Qed.

(** X5: [deleteLinesForEntry] leaves no line of the entry in the store and
    touches neither the accounts nor the entries; when the line ids are
    pairwise distinct it removes the lines of that entry and nothing
    else. *)
Theorem deleteLinesForEntry_removes_entry (s : DB.Store) (entryId : string) :
  DB.ACCOUNTS (DB.deleteLinesForEntry s entryId) = DB.ACCOUNTS s
  /\ DB.ENTRIES (DB.deleteLinesForEntry s entryId) = DB.ENTRIES s
  /\ (forall l, In l (DB.LINES (DB.deleteLinesForEntry s entryId)) ->
        In l (DB.LINES s) /\ l_entryId l <> entryId)
  /\ (NoDup (map l_id (DB.LINES s)) ->
      DB.LINES (DB.deleteLinesForEntry s entryId)
      = lines_of_others entryId (DB.LINES s)).
Proof.
  split; [apply deleteLinesForEntry_frame |].
  split; [apply deleteLinesForEntry_frame |].
  split; [| apply deleteLinesForEntry_lines].
  unfold DB.deleteLinesForEntry. rewrite fold_deleteLine. cbn [DB.LINES].
  intros l H. apply filter_In in H. destruct H as [H E].
  split; [exact H |]. intros Heq.
  apply negb_true_iff in E.
  assert (X : existsb (fun d => String.eqb (l_id l) (l_id d))
                (filter (fun l0 => String.eqb (l_entryId l0) entryId)
                        (DB.LINES s)) = true).
  { apply existsb_exists. exists l. split; [| apply String.eqb_refl].
    apply filter_In. split; [exact H |]. apply String.eqb_eq, Heq. }
  congruence.
Qed.

(* ================================================================== *)
(** * Deleting an entry, deleting an account *)

Lemma entry_lines_others (entryId id : string) (lines : list JournalLine) :
  entry_lines entryId (lines_of_others id lines)
  = if String.eqb entryId id then [] else entry_lines entryId lines.
Proof.
  unfold entry_lines, lines_of_others.
  induction lines as [| l ls IH]; cbn [filter].
  - destruct (String.eqb entryId id); reflexivity.
  - destruct (String.eqb (l_entryId l) id) eqn:E; cbn [negb filter].
    + rewrite IH. destruct (String.eqb entryId id) eqn:E'; [reflexivity |].
      destruct (String.eqb (l_entryId l) entryId) eqn:E''; [| reflexivity].
      apply String.eqb_eq in E, E''. apply String.eqb_neq in E'. congruence.
    + destruct (String.eqb (l_entryId l) entryId) eqn:E''.
      * rewrite IH. apply String.eqb_eq in E''. subst entryId. rewrite E.
        reflexivity.
      * exact IH.
Qed.

(** X6: deleting an entry from the journal page. With pairwise distinct
    line ids, a confirmed [deleteEntry] removes the entry and exactly its
    lines; the accounts stay, the entry can no longer be read, and books
    in which every entry balances and every line has its account stay
    so. *)
Theorem deleteEntry_removes_entry_and_lines (id : string) (s : DB.Store) :
  NoDup (map l_id (DB.LINES s)) ->
  let s' := fst (deleteEntry true id s) in
  DB.ACCOUNTS s' = DB.ACCOUNTS s
  /\ DB.LINES s' = lines_of_others id (DB.LINES s)
  /\ DB.getEntry s' id = None
  /\ DB.getLinesForEntry s' id = []
  /\ (forall other, other <> id ->
        DB.getEntry s' other = DB.getEntry s other
        /\ DB.getLinesForEntry s' other = DB.getLinesForEntry s other)
  /\ (every_entry_balances (DB.LINES s) -> every_entry_balances (DB.LINES s'))
  /\ (no_orphans (DB.ACCOUNTS s) (DB.LINES s) ->
      no_orphans (DB.ACCOUNTS s') (DB.LINES s')).
Proof.
  intros ND s'. subst s'. cbn [deleteEntry fst].
  destruct (deleteLinesForEntry_frame s id) as [HA HE].
  pose proof (deleteLinesForEntry_lines s id ND) as HL.
  unfold DB.getEntry, DB.getLinesForEntry.
  cbn [DB.deleteEntry DB.ACCOUNTS DB.LINES DB.ENTRIES]. rewrite HA, HL, HE.
  split; [reflexivity |]. split; [reflexivity |].
  split; [apply get_del_same |].
  split.
  { fold (entry_lines id (lines_of_others id (DB.LINES s))).
    rewrite entry_lines_others, String.eqb_refl. reflexivity. }
  split.
  { intros other N. split.
    - apply get_del_other, N.
    - fold (entry_lines other (lines_of_others id (DB.LINES s))).
      rewrite entry_lines_others.
      apply String.eqb_neq in N. rewrite N. reflexivity. }
  split.
  - intros B entryId. rewrite entry_lines_others.
    destruct (String.eqb entryId id); [reflexivity | apply B].
  - intros O l Hl. apply O.
    unfold lines_of_others in Hl. apply filter_In in Hl. apply Hl.
Qed.

Lemma put_fresh {R : Type} (key : R -> string) (all : list R) (record : R) :
  ~ In (key record) (map key all) -> DB.put key all record = all ++ [record].
Proof.
  induction all as [| r rest IH]; cbn [DB.put map app]; intros H;
    [reflexivity |].
  destruct (String.eqb (key r) (key record)) eqn:E.
  - apply String.eqb_eq in E. exfalso. apply H. left. exact E.
  - f_equal. apply IH. intros Hin. apply H. right. exact Hin.
Qed.

Lemma get_Some {R : Type} (key : R -> string) (all : list R) (id : string)
    (r : R) :
  DB.get key all id = Some r -> In r all /\ key r = id.
Proof.
  unfold DB.get. intros H. apply find_some in H. destruct H as [H E].
  apply String.eqb_eq in E. auto.
Qed.

Lemma get_None {R : Type} (key : R -> string) (all : list R) (id : string) :
  DB.get key all id = None <-> ~ In id (map key all).
Proof.
  unfold DB.get. split.
  - intros H Hin. apply in_map_iff in Hin. destruct Hin as [r [E Hr]].
    pose proof (find_none _ _ H r Hr) as X. cbv beta in X.
    apply String.eqb_neq in X. congruence.
  - intros H. destruct (find _ all) as [r |] eqn:F; [| reflexivity].
    apply find_some in F. destruct F as [Hr E]. apply String.eqb_eq in E.
    exfalso. apply H. rewrite <- E. apply in_map, Hr.
Qed.

(** X7: the guard of [deleteAccount]. In books where every line has its
    account, deleting an account from the chart page never detaches a
    line: an account that has lines is not removed, the lines and the
    entries are untouched, and every line still has its account. *)
Theorem deleteAccount_keeps_lines_attached (confirmed : bool) (id : string)
    (s : DB.Store) :
  no_orphans (DB.ACCOUNTS s) (DB.LINES s) ->
  let s' := fst (deleteAccount confirmed id s) in
  DB.LINES s' = DB.LINES s
  /\ DB.ENTRIES s' = DB.ENTRIES s
  /\ no_orphans (DB.ACCOUNTS s') (DB.LINES s')
  /\ (forall a, In a (DB.ACCOUNTS s') -> In a (DB.ACCOUNTS s))
  /\ (forall a, In a (DB.ACCOUNTS s) ->
        lines_of (a_id a) (DB.LINES s) <> [] -> In a (DB.ACCOUNTS s'))
  /\ (forall a, In a (DB.ACCOUNTS s) -> a_id a <> id -> In a (DB.ACCOUNTS s')).
Proof.
  intros O s'. subst s'. unfold deleteAccount.
  destruct (existsb _ (DB.LINES s)) eqn:X; cbn [fst].
  { repeat split; auto. }
  destruct confirmed; cbn [fst]; [| repeat split; auto].
  assert (K : forall a, In a (DB.ACCOUNTS s) -> a_id a <> id ->
                In a (DB.del a_id (DB.ACCOUNTS s) id)).
  { intros a Ha N. apply filter_In. split; [exact Ha |].
    apply negb_true_iff, String.eqb_neq, N. }
  assert (U : forall l, In l (DB.LINES s) -> l_accountId l <> id).
  { intros l Hl E.
    assert (existsb (fun l => String.eqb (l_accountId l) id) (DB.LINES s) = true).
    { apply existsb_exists. exists l. split; [exact Hl |].
      apply String.eqb_eq, E. }
    congruence. }
  cbn [DB.deleteAccount DB.LINES DB.ENTRIES DB.ACCOUNTS].
  split; [reflexivity |]. split; [reflexivity |]. split.
  { intros l Hl. specialize (O l Hl). apply in_map_iff in O.
    destruct O as [a [E Ha]]. apply in_map_iff. exists a.
    split; [exact E |]. apply K; [exact Ha |].
    rewrite E. apply U, Hl. }
  split.
  { intros a Ha. apply filter_In in Ha. apply Ha. }
  split; [| exact K].
  intros a Ha NE. apply K; [exact Ha |].
  destruct (lines_of (a_id a) (DB.LINES s)) as [| l ls] eqn:L;
    [congruence |].
  assert (Hl : In l (lines_of (a_id a) (DB.LINES s)))
    by (rewrite L; left; reflexivity).
  unfold lines_of in Hl. apply filter_In in Hl. destruct Hl as [Hl E].
  apply String.eqb_eq in E. rewrite <- E. apply U, Hl.
Qed.

Lemma small_books_no_orphans :
  no_orphans (DB.ACCOUNTS small_books) (DB.LINES small_books).
Proof.
  intros l Hl. cbn in Hl.
  repeat (destruct Hl as [<- | Hl]; [cbn; tauto |]). contradiction.
Qed.

Lemma deleteAccount_keeps_lines_attached_witness :
  no_orphans (DB.ACCOUNTS small_books) (DB.LINES small_books)
  /\ DB.LINES (fst (deleteAccount true "acc_1000" small_books))
     = DB.LINES small_books.
Proof.
  split; [exact small_books_no_orphans |].
  exact (proj1 (deleteAccount_keeps_lines_attached true "acc_1000" small_books
                  small_books_no_orphans)).
Defined.

Lemma small_journal_ids : NoDup (map l_id (DB.LINES small_books)).
Proof. repeat constructor; simpl; intuition discriminate. Qed.

Lemma deleteEntry_removes_entry_and_lines_witness :
  NoDup (map l_id (DB.LINES small_books))
  /\ DB.ACCOUNTS (fst (deleteEntry true "je_1" small_books))
     = DB.ACCOUNTS small_books.
Proof.
  split; [exact small_journal_ids |].
  exact (proj1 (deleteEntry_removes_entry_and_lines "je_1" small_books
                  small_journal_ids)).
Defined.

(* ================================================================== *)
(** * Creating and editing an account *)

(** X8: [saveNewAccount]. A code or a name that is blank after trimming
    is refused and the store is left alone. Otherwise, for an id not yet
    in the chart, the chart gains the account, with a stored balance of
    0, and nothing else changes (whatever the order in which the store
    returns its records); the ids stay pairwise distinct, and the balance
    engine reports the rows it reported before plus one row for the new
    account. *)
Theorem saveNewAccount_adds_one_row (id acc_code acc_name : string)
    (acc_type : AccountType) (acc_normal : NormalSide) (s : DB.Store) :
  store_keys (DB.ACCOUNTS s) ->
  ~ In id (map a_id (DB.ACCOUNTS s)) ->
  id <> "__proto__" ->
  let acc := new_account id acc_code acc_name acc_type acc_normal in
  let s' := fst (saveNewAccount id acc_code acc_name acc_type acc_normal s) in
  (a_code acc = "" \/ a_name acc = "" ->
   saveNewAccount id acc_code acc_name acc_type acc_normal s
   = (s, ToastError "Please fill in all fields"))
  /\ (a_code acc <> "" -> a_name acc <> "" ->
      Permutation (DB.ACCOUNTS s') (acc :: DB.ACCOUNTS s)
      /\ DB.ENTRIES s' = DB.ENTRIES s
      /\ DB.LINES s' = DB.LINES s
      /\ store_keys (DB.ACCOUNTS s')
      /\ Permutation
           (DB.getAccountBalances (DB.ACCOUNTS s') (DB.LINES s'))
           (DB.getAccountBalances (DB.ACCOUNTS s) (DB.LINES s)
            ++ [balance_row (DB.LINES s) acc])
      /\ (lines_of id (DB.LINES s) = [] ->
          a_balance (DB.acct (balance_row (DB.LINES s) acc)) == 0)).
Proof.
  intros SK F NP acc s'. subst s'. unfold saveNewAccount.
  fold (new_account id acc_code acc_name acc_type acc_normal). fold acc.
  change (Text.trim_string acc_code) with (a_code acc).
  change (Text.trim_string acc_name) with (a_name acc).
  split.
  - intros [E | E]; rewrite E; cbn [String.eqb orb];
      [| rewrite orb_true_r]; reflexivity.
  - intros NC NN.
    apply String.eqb_neq in NC, NN. rewrite NC, NN. cbn [orb fst].
    assert (A : DB.ACCOUNTS (DB.saveAccount s acc) = DB.ACCOUNTS s ++ [acc]).
    { cbn [DB.saveAccount DB.ACCOUNTS]. apply put_fresh. exact F. }
    assert (SK' : store_keys (DB.ACCOUNTS (DB.saveAccount s acc))).
    { apply saveAccount_keeps_keys; [exact SK | exact NP]. }
    split; [rewrite A; apply Permutation_sym, Permutation_cons_append |].
    split; [reflexivity |]. split; [reflexivity |].
    split; [exact SK' |]. split.
    + cbn [DB.saveAccount DB.LINES].
      etransitivity; [apply getAccountBalances_perm, SK' |].
      rewrite A, map_app. cbn [map].
      apply Permutation_app_tail. symmetry.
      apply getAccountBalances_perm, SK.
    + intros L. unfold balance_row. rewrite normalize_bump_balance.
      apply lines_of_nil_balance. exact L.
Qed.

Lemma saveNewAccount_adds_one_row_witness :
  store_keys (DB.ACCOUNTS small_books)
  /\ ~ In "acc_1050" (map a_id (DB.ACCOUNTS small_books))
  /\ "acc_1050" <> "__proto__"
  /\ Permutation
       (DB.ACCOUNTS
          (fst (saveNewAccount "acc_1050" " 1050 " "Petty Cash" Asset Debit
                               small_books)))
       (mkAccount "acc_1050" "1050" "Petty Cash" Asset Debit 0
        :: DB.ACCOUNTS small_books).
Proof.
  assert (K : store_keys (DB.ACCOUNTS small_books)) by distinct_keys.
  assert (F : ~ In "acc_1050" (map a_id (DB.ACCOUNTS small_books)))
    by (simpl; intuition discriminate).
  assert (P : "acc_1050" <> "__proto__") by discriminate.
  split; [exact K |]. split; [exact F |]. split; [exact P |].
  apply (proj2 (saveNewAccount_adds_one_row "acc_1050" " 1050 " "Petty Cash"
                  Asset Debit small_books K F P)); discriminate.
Defined.

(** X9: [saveEditAccount]. The edit fails exactly when no account has
    the id. Otherwise it changes the account stored under the id and no
    other: the ids of the chart and their order, the stored balance of
    the account, the entries and the lines are as before, and the account
    now has the trimmed code and name and the chosen type and normal
    side, whatever they are. *)
Theorem saveEditAccount_changes_one_account (id edit_code edit_name : string)
    (edit_type : AccountType) (edit_normal : NormalSide) (s : DB.Store) :
  (saveEditAccount id edit_code edit_name edit_type edit_normal s = None
   <-> ~ In id (map a_id (DB.ACCOUNTS s)))
  /\ forall s' toast,
       saveEditAccount id edit_code edit_name edit_type edit_normal s
       = Some (s', toast) ->
       map a_id (DB.ACCOUNTS s') = map a_id (DB.ACCOUNTS s)
       /\ DB.ENTRIES s' = DB.ENTRIES s
       /\ DB.LINES s' = DB.LINES s
       /\ (exists old,
             DB.getAccount s id = Some old
             /\ DB.getAccount s' id
                = Some (mkAccount id (Text.trim_string edit_code)
                                  (Text.trim_string edit_name) edit_type
                                  edit_normal (a_balance old)))
       /\ (forall other, other <> id ->
             DB.getAccount s' other = DB.getAccount s other).
Proof.
  unfold saveEditAccount, DB.getAccount. split.
  - rewrite <- (get_None a_id). destruct (DB.get a_id (DB.ACCOUNTS s) id);
      split; intros H; congruence.
  - intros s' toast H.
    destruct (DB.get a_id (DB.ACCOUNTS s) id) as [acc |] eqn:G;
      [| discriminate].
    injection H as <- _.
    destruct (get_Some _ _ _ _ G) as [Hin Hid].
    cbn [DB.saveAccount DB.ACCOUNTS DB.ENTRIES DB.LINES]. rewrite Hid.
    split.
    { rewrite put_keys. cbn [a_id].
      destruct (in_dec string_dec id (map a_id (DB.ACCOUNTS s))) as [_ | N];
        [reflexivity |].
      exfalso. apply N. rewrite <- Hid. apply in_map, Hin. }
    split; [reflexivity |]. split; [reflexivity |]. split.
    { exists acc. split; [reflexivity |].
      exact (get_put_same a_id (DB.ACCOUNTS s)
               (mkAccount id (Text.trim_string edit_code)
                          (Text.trim_string edit_name) edit_type edit_normal
                          (a_balance acc))). }
    intros other N. apply get_put_other. cbn [a_id]. exact N.
Qed.

Lemma saveEditAccount_changes_one_account_witness :
  map a_id
      (DB.ACCOUNTS
         (DB.saveAccount small_books
            (mkAccount "acc_5200" "5250" "Rent" Expense Debit 0)))
  = map a_id (DB.ACCOUNTS small_books).
Proof.
  apply (proj2 (saveEditAccount_changes_one_account "acc_5200" "5250 " " Rent"
                  Expense Debit small_books)
           _ (ToastSuccess "Account updated")).
  reflexivity.
Defined.

(* ================================================================== *)
(** * The entry form *)

Lemma updateJournalLine_length (idx : nat) (field : LineField)
    (value : string) (ls ls' : list DraftLine) :
  updateJournalLine idx field value ls = Some ls' ->
  List.length ls' = List.length ls.
Proof.
  revert idx ls'. induction ls as [| l rest IH]; intros idx ls' H;
    cbn [updateJournalLine] in H; [discriminate |].
  destruct idx as [| k].
  - injection H as <-. reflexivity.
  - destruct (updateJournalLine k field value rest) as [r |] eqn:E;
      [| discriminate].
    injection H as <-. cbn [List.length]. f_equal. eapply IH, E.
Qed.

Lemma updateJournalLine_range (idx : nat) (field : LineField)
    (value : string) (ls : list DraftLine) :
  updateJournalLine idx field value ls = None
  <-> (List.length ls <= idx)%nat.
Proof.
  revert idx. induction ls as [| l rest IH]; intros idx;
    cbn [updateJournalLine List.length].
  - split; [lia | reflexivity].
  - destruct idx as [| k]; [split; [discriminate | lia] |].
    specialize (IH k).
    destruct (updateJournalLine k field value rest); cbn [option_map].
    + split; [discriminate |]. intros H.
      assert (X : (List.length rest <= k)%nat) by lia.
      apply IH in X. discriminate.
    + split; [| reflexivity]. intros _.
      assert (X : (List.length rest <= k)%nat) by (apply IH; reflexivity).
      lia.
Qed.

Lemma removeJournalLine_length (idx : nat) (ls : list DraftLine) :
  List.length (removeJournalLine idx ls)
  = if (List.length ls <=? 2)%nat then List.length ls
    else if (idx <? List.length ls)%nat then (List.length ls - 1)%nat
         else List.length ls.
Proof.
  unfold removeJournalLine.
  destruct (List.length ls <=? 2)%nat eqn:E; [reflexivity |].
  rewrite length_app, length_firstn, length_skipn.
  destruct (idx <? List.length ls)%nat eqn:E'.
  - apply Nat.ltb_lt in E'. lia.
  - apply Nat.ltb_ge in E'. lia.
Qed.

Lemma form_step_two_lines (d : Draft) (e : FormEvent) :
  (2 <= List.length (journalLines d))%nat ->
  (2 <= List.length (journalLines (form_step d e)))%nat.
Proof.
  intros H. destruct e as [| idx | idx field value | today];
    cbn [form_step].
  - cbn [with_lines journalLines]. unfold addJournalLine.
    rewrite length_app. lia.
  - cbn [with_lines journalLines]. rewrite removeJournalLine_length.
    destruct (List.length (journalLines d) <=? 2)%nat eqn:E; [exact H |].
    apply Nat.leb_gt in E.
    destruct (idx <? List.length (journalLines d))%nat; lia.
  - destruct (updateJournalLine idx field value (journalLines d)) as [ls |]
      eqn:E; [| exact H].
    cbn [with_lines journalLines].
    rewrite (updateJournalLine_length _ _ _ _ _ E). exact H.
  - cbn. lia.
Qed.

(** X10: the entry form never has fewer than two lines. Starting from a
    form with at least two lines (as [renderJournal] and [clearJournal]
    leave it), no sequence of adding, removing, editing and clearing
    brings it below two; a removal takes out one line when there are more
    than two and the index is in range, and nothing otherwise; an edit
    throws exactly when there is no line at the index. *)
Theorem form_keeps_two_lines (events : list FormEvent) (d : Draft) :
  (2 <= List.length (journalLines d))%nat ->
  (2 <= List.length (journalLines (fold_left form_step events d)))%nat
  /\ (forall idx,
        List.length (removeJournalLine idx (journalLines d))
        = if (List.length (journalLines d) <=? 2)%nat
          then List.length (journalLines d)
          else if (idx <? List.length (journalLines d))%nat
               then (List.length (journalLines d) - 1)%nat
               else List.length (journalLines d))
  /\ (forall idx field value,
        updateJournalLine idx field value (journalLines d) = None
        <-> (List.length (journalLines d) <= idx)%nat).
Proof.
  intros H. split; [| split].
  - revert d H. induction events as [| e events IH]; intros d H;
      cbn [fold_left]; [exact H |].
    apply IH, form_step_two_lines, H.
  - intros idx. apply removeJournalLine_length.
  - intros idx field value. apply updateJournalLine_range.
Qed.

Lemma form_keeps_two_lines_witness :
  (2 <= List.length (journalLines (clearJournal "2024-03-01" draft_scenario_B)))%nat
  /\ (2 <= List.length
             (journalLines
                (fold_left form_step
                   [AddLine; RemoveLine 0; RemoveLine 0; RemoveLine 5;
                    UpdateLine 1 FieldDebit "12.50"]
                   (clearJournal "2024-03-01" draft_scenario_B))))%nat.
Proof.
  assert (H : (2 <= List.length
                      (journalLines (clearJournal "2024-03-01" draft_scenario_B)))%nat)
    by (cbn; lia).
  split; [exact H |].
  exact (proj1 (form_keeps_two_lines
                  [AddLine; RemoveLine 0; RemoveLine 0; RemoveLine 5;
                   UpdateLine 1 FieldDebit "12.50"]
                  (clearJournal "2024-03-01" draft_scenario_B) H)).
Defined.

(* ================================================================== *)
(** * What a posting writes *)

Lemma save_lines_append (f : Fresh) (vl : list DraftLine) :
  forall (s : DB.Store) (i : nat),
    (forall k, (k < List.length vl)%nat ->
       ~ In (fresh_lineId f (i + k)) (map l_id (DB.LINES s))) ->
    (forall j k, (j < k < List.length vl)%nat ->
       fresh_lineId f (i + j) <> fresh_lineId f (i + k)) ->
    save_lines s f i vl
    = DB.mkStore (DB.ACCOUNTS s) (DB.ENTRIES s)
                 (DB.LINES s ++ posted_lines f i vl).
Proof.
  induction vl as [| l rest IH]; intros s i F D;
    cbn [save_lines posted_lines].
  - rewrite app_nil_r. destruct s; reflexivity.
  - rewrite IH.
    + cbn [DB.saveLine DB.ACCOUNTS DB.ENTRIES DB.LINES].
      rewrite put_fresh.
      * rewrite <- app_assoc. reflexivity.
      * cbn [l_id]. specialize (F 0%nat). rewrite Nat.add_0_r in F.
        apply F. cbn. lia.
    + intros k Hk. cbn [DB.saveLine DB.LINES].
      rewrite put_fresh.
      * rewrite map_app, in_app_iff. cbn [map l_id In].
        intros [Hin | [Heq | []]].
        -- apply (F (S k)); [cbn; lia |].
           rewrite Nat.add_succ_r. exact Hin.
        -- apply (D 0%nat (S k)); [cbn; lia |].
           rewrite Nat.add_0_r, Nat.add_succ_r. exact Heq.
      * cbn [l_id]. specialize (F 0%nat). rewrite Nat.add_0_r in F.
        apply F. cbn. lia.
    + intros j k Hjk. cbn [Nat.add].
      rewrite <- !Nat.add_succ_r. apply D. cbn. lia.
Qed.

Lemma parsed_positive_or0 (t : string) :
  Text.parsed_positive t = true -> 0 < Text.parsed_or0 t.
Proof.
  unfold Text.parsed_positive, Text.parsed_or0.
  destruct (Text.parseFloat t) as [q |]; [| discriminate].
  intros H. apply Qgtb_gt in H. rewrite or0_eq. exact H.
Qed.

Lemma posted_lines_valid (f : Fresh) (vl : list DraftLine) :
  forall (i : nat) (l : JournalLine),
    In l (posted_lines f i (validLines_of vl)) ->
    l_entryId l = fresh_entryId f
    /\ l_accountId l <> ""
    /\ (0 < l_debit l \/ 0 < l_credit l).
Proof.
  unfold validLines_of.
  induction vl as [| d rest IH]; intros i l H; cbn [filter] in H;
    [contradiction |].
  destruct (negb (String.eqb (d_accountId d) "")
            && (Text.parsed_positive (d_debit d)
                || Text.parsed_positive (d_credit d))) eqn:E.
  - cbn [posted_lines] in H. destruct H as [<- | H]; [| eapply IH, H].
    apply andb_true_iff in E. destruct E as [EA EP].
    apply negb_true_iff, String.eqb_neq in EA.
    cbn [l_entryId l_accountId l_debit l_credit].
    split; [reflexivity |]. split; [exact EA |].
    apply orb_true_iff in EP.
    destruct EP as [P | P]; [left | right]; apply parsed_positive_or0, P.
  - eapply IH, H.
Qed.

Lemma posted_lines_length (f : Fresh) (vl : list DraftLine) (i : nat) :
  List.length (posted_lines f i vl) = List.length vl.
Proof.
  revert i. induction vl as [| l rest IH]; intros i; cbn; [reflexivity |].
  f_equal. apply IH.
Qed.

Lemma postJournalEntry_store (f : Fresh) (s : DB.Store) (d : Draft) :
  snd (postJournalEntry f s d) = Posted ->
  fresh_for f (List.length (validLines_of (journalLines d))) s ->
  fst (postJournalEntry f s d)
  = DB.mkStore (DB.ACCOUNTS s) (DB.ENTRIES s ++ [posted_entry f d])
      (DB.LINES s ++ posted_lines f 0 (validLines_of (journalLines d))).
Proof.
  intros P [FE [_ [FL FD]]].
  destruct (postJournalEntry_posted f s d P) as [_ [_ [_ ->]]].
  fold (posted_entry f d).
  rewrite save_lines_append.
  - cbn [DB.saveEntry DB.ACCOUNTS DB.ENTRIES DB.LINES].
    rewrite put_fresh; [reflexivity | exact FE].
  - intros k Hk. cbn [DB.saveEntry DB.LINES Nat.add]. apply FL, Hk.
  - intros j k Hjk. cbn [Nat.add]. apply FD, Hjk.
Qed.

(** X11: a posting only adds. When [postJournalEntry] posts with ids new
    to the store, the accounts are untouched, the entries gain the new
    entry and the lines gain one line for each valid form line, with
    nothing changed or removed (whatever the order in which the store
    returns its records); every line written has the new entry id, an
    account id and a positive debit or a positive credit. *)
Theorem posting_only_adds (f : Fresh) (s : DB.Store) (d : Draft) :
  snd (postJournalEntry f s d) = Posted ->
  fresh_for f (List.length (validLines_of (journalLines d))) s ->
  let s' := fst (postJournalEntry f s d) in
  let written := posted_lines f 0 (validLines_of (journalLines d)) in
  DB.ACCOUNTS s' = DB.ACCOUNTS s
  /\ Permutation (DB.ENTRIES s') (posted_entry f d :: DB.ENTRIES s)
  /\ Permutation (DB.LINES s') (written ++ DB.LINES s)
  /\ List.length written = List.length (validLines_of (journalLines d))
  /\ (2 <= List.length written)%nat
  /\ (forall l, In l written ->
        l_entryId l = fresh_entryId f
        /\ l_accountId l <> ""
        /\ (0 < l_debit l \/ 0 < l_credit l)).
Proof.
  intros P F s' written. subst s' written.
  rewrite (postJournalEntry_store f s d P F).
  cbn [DB.ACCOUNTS DB.ENTRIES DB.LINES].
  split; [reflexivity |].
  split; [apply Permutation_sym, Permutation_cons_append |].
  split; [apply Permutation_app_comm |].
  split; [apply posted_lines_length |]. split.
  - rewrite posted_lines_length.
    apply (postJournalEntry_posted f s d P).
  - intros l. apply posted_lines_valid.
Qed.

Lemma posted_lines_seq (f : Fresh) (vl : list DraftLine) :
  forall i l, In l (posted_lines f i vl) -> (Z.of_nat i + 1 <= l_seq l)%Z.
Proof.
  induction vl as [| d rest IH]; intros i l H; cbn [posted_lines] in H;
    [contradiction |].
  destruct H as [<- | H]; [cbn [l_seq]; lia |].
  apply IH in H. lia.
Qed.

Lemma posted_lines_sorted (f : Fresh) (vl : list DraftLine) (i : nat) :
  StronglySorted by_seq (posted_lines f i vl).
Proof.
  revert i. induction vl as [| d rest IH]; intros i; cbn [posted_lines];
    constructor; [apply IH |].
  apply Forall_forall. intros l Hl. apply posted_lines_seq in Hl.
  unfold by_seq. cbn [l_seq]. lia.
Qed.

Lemma posted_lines_numbers (f : Fresh) (vl : list DraftLine) (i : nat) :
  map l_seq (posted_lines f i vl)
  = map (fun i => (Z.of_nat i + 1)%Z) (seq i (List.length vl)).
Proof.
  revert i. induction vl as [| l rest IH]; intros i;
    cbn [posted_lines map seq List.length l_seq]; [reflexivity |].
  f_equal. apply IH.
Qed.

Lemma entry_lines_all (entryId : string) (ls : list JournalLine) :
  (forall l, In l ls -> l_entryId l = entryId) -> entry_lines entryId ls = ls.
Proof.
  unfold entry_lines. induction ls as [| l rest IH]; intros H; cbn [filter];
    [reflexivity |].
  rewrite (proj2 (String.eqb_eq _ _) (H l (or_introl eq_refl))).
  f_equal. apply IH. intros x Hx. apply H. right. exact Hx.
Qed.

Lemma entry_lines_none (entryId : string) (ls : list JournalLine) :
  (forall l, In l ls -> l_entryId l <> entryId) -> entry_lines entryId ls = [].
Proof.
  unfold entry_lines. induction ls as [| l rest IH]; intros H; cbn [filter];
    [reflexivity |].
  rewrite (proj2 (String.eqb_neq _ _) (H l (or_introl eq_refl))).
  apply IH. intros x Hx. apply H. right. exact Hx.
Qed.

(** X12: a posted entry reads back as written. After a posting with ids
    new to the store, [getEntry] finds the new entry and
    [getLinesForEntry] returns exactly the lines written, in form order,
    numbered from 1. *)
Theorem posted_entry_reads_back (f : Fresh) (s : DB.Store) (d : Draft) :
  snd (postJournalEntry f s d) = Posted ->
  fresh_for f (List.length (validLines_of (journalLines d))) s ->
  let s' := fst (postJournalEntry f s d) in
  DB.getEntry s' (fresh_entryId f) = Some (posted_entry f d)
  /\ DB.getLinesForEntry s' (fresh_entryId f)
     = posted_lines f 0 (validLines_of (journalLines d))
  /\ map l_seq (DB.getLinesForEntry s' (fresh_entryId f))
     = map (fun i => (Z.of_nat i + 1)%Z)
           (seq 0 (List.length (validLines_of (journalLines d)))).
Proof.
  intros P F s'. subst s'.
  rewrite (postJournalEntry_store f s d P F).
  destruct F as [FE [FO _]].
  assert (G : DB.getLinesForEntry
                (DB.mkStore (DB.ACCOUNTS s) (DB.ENTRIES s ++ [posted_entry f d])
                   (DB.LINES s
                    ++ posted_lines f 0 (validLines_of (journalLines d))))
                (fresh_entryId f)
              = posted_lines f 0 (validLines_of (journalLines d))).
  { unfold DB.getLinesForEntry. cbn [DB.LINES].
    rewrite filter_app.
    fold (entry_lines (fresh_entryId f) (DB.LINES s)).
    fold (entry_lines (fresh_entryId f)
            (posted_lines f 0 (validLines_of (journalLines d)))).
    rewrite (entry_lines_none _ _ FO). cbn [app].
    rewrite entry_lines_all by (intros l Hl; eapply posted_lines_valid, Hl).
    apply sort_by_seq_id, posted_lines_sorted. }
  split; [| split].
  - unfold DB.getEntry. cbn [DB.ENTRIES].
    rewrite <- (put_fresh e_id (DB.ENTRIES s) (posted_entry f d)) by exact FE.
    exact (get_put_same e_id (DB.ENTRIES s) (posted_entry f d)).
  - exact G.
  - rewrite G. apply posted_lines_numbers.
Qed.

Lemma draft_rent_fresh :
  fresh_for fresh0 (List.length (validLines_of (journalLines draft_rent)))
            seeded.
Proof.
  assert (E : List.length (validLines_of (journalLines draft_rent)) = 2%nat)
    by (vm_compute; reflexivity).
  rewrite E. repeat split.
  - cbn. tauto.
  - intros l [].
  - intros i _. cbn. tauto.
  - intros i j H. assert (X : i = 0%nat /\ j = 1%nat) by lia.
    destruct X as [-> ->]. vm_compute. discriminate.
Qed.

Lemma draft_rent_posted :
  snd (postJournalEntry fresh0 seeded draft_rent) = Posted.
Proof. vm_compute. reflexivity. Qed.

Lemma posting_only_adds_witness :
  snd (postJournalEntry fresh0 seeded draft_rent) = Posted
  /\ fresh_for fresh0 (List.length (validLines_of (journalLines draft_rent)))
               seeded
  /\ DB.ACCOUNTS (fst (postJournalEntry fresh0 seeded draft_rent))
     = DB.ACCOUNTS seeded.
Proof.
  split; [exact draft_rent_posted |]. split; [exact draft_rent_fresh |].
  exact (proj1 (posting_only_adds fresh0 seeded draft_rent draft_rent_posted
                  draft_rent_fresh)).
Defined.

Lemma posted_entry_reads_back_witness :
  snd (postJournalEntry fresh0 seeded draft_rent) = Posted
  /\ fresh_for fresh0 (List.length (validLines_of (journalLines draft_rent)))
               seeded
  /\ DB.getEntry (fst (postJournalEntry fresh0 seeded draft_rent)) "je_new"
     = Some (posted_entry fresh0 draft_rent).
Proof.
  split; [exact draft_rent_posted |]. split; [exact draft_rent_fresh |].
  exact (proj1 (posted_entry_reads_back fresh0 seeded draft_rent
                  draft_rent_posted draft_rent_fresh)).
Defined.

(* ================================================================== *)
(** * Importing candidates *)

Lemma put_In {R : Type} (key : R -> string) (all : list R) (record x : R) :
  In x (DB.put key all record) -> In x all \/ x = record.
Proof.
  induction all as [| r rest IH]; cbn [DB.put]; intros H.
  - destruct H as [<- | []]. right. reflexivity.
  - destruct (String.eqb (key r) (key record)).
    + destruct H as [<- | H]; [right; reflexivity | left; right; exact H].
    + destruct H as [<- | H]; [left; left; reflexivity |].
      destruct (IH H) as [H' | H']; [left; right; exact H' | right; exact H'].
Qed.

Lemma ticked_In (checked : nat -> bool) (l : list CandidateEntry) :
  forall idx e, In e (ticked checked idx l) -> In e l.
Proof.
  induction l as [| x rest IH]; intros idx e H; cbn [ticked] in H;
    [contradiction |].
  destruct (checked idx).
  - destruct H as [<- | H]; [left; reflexivity | right; eapply IH, H].
  - right. eapply IH, H.
Qed.

Lemma import_one_frame (f : ImportFresh) (s : DB.Store) (k : nat)
    (e : CandidateEntry) :
  DB.ACCOUNTS (import_one f s k e) = DB.ACCOUNTS s
  /\ forall l, In l (DB.LINES (import_one f s k e)) ->
       In l (DB.LINES s) \/ In l (import_lines f k e).
Proof.
  unfold import_one, import_lines.
  destruct (debitAccount e) as [dr |]; [| split; auto].
  destruct (creditAccount e) as [cr |]; [| split; auto].
  cbn [DB.saveLine DB.saveEntry DB.ACCOUNTS DB.LINES].
  split; [reflexivity |]. intros l H.
  apply put_In in H. destruct H as [H | ->]; [| right; right; left; reflexivity].
  apply put_In in H. destruct H as [H | ->]; [left; exact H |].
  right. left. reflexivity.
Qed.

Lemma import_loop_frame (f : ImportFresh) (selected : list CandidateEntry) :
  forall (s : DB.Store) (k : nat),
    DB.ACCOUNTS (import_loop f s k selected) = DB.ACCOUNTS s
    /\ forall l, In l (DB.LINES (import_loop f s k selected)) ->
         In l (DB.LINES s) \/ In l (imported_lines f k selected).
Proof.
  induction selected as [| e rest IH]; intros s k;
    cbn [import_loop imported_lines]; [split; auto |].
  destruct (IH (import_one f s k e) (S k)) as [A L].
  destruct (import_one_frame f s k e) as [A1 L1].
  split; [congruence |].
  intros l H. destruct (L l H) as [H' | H'].
  - destruct (L1 l H') as [H'' | H'']; [left; exact H'' |].
    right. apply in_or_app. left. exact H''.
  - right. apply in_or_app. right. exact H'.
Qed.

Lemma imported_lines_In (f : ImportFresh) (selected : list CandidateEntry) :
  forall (k : nat) (l : JournalLine),
    In l (imported_lines f k selected) ->
    exists e i, In e selected /\ In l (import_lines f i e).
Proof.
  induction selected as [| e rest IH]; intros k l H;
    cbn [imported_lines] in H; [contradiction |].
  apply in_app_or in H. destruct H as [H | H].
  - exists e, k. split; [left; reflexivity | exact H].
  - destruct (IH _ _ H) as [e' [i [He Hl]]].
    exists e', i. split; [right; exact He | exact Hl].
Qed.

Lemma or_first_In (found : option Account) (accounts : list Account)
    (a : Account) :
  (forall x, found = Some x -> In x accounts) ->
  PDFParser.or_first found accounts = Some a -> In a accounts.
Proof.
  intros F. unfold PDFParser.or_first. destruct found as [x |].
  - intros H. injection H as <-. apply F. reflexivity.
  - destruct accounts as [| y ys]; cbn; [discriminate |].
    intros H. injection H as <-. left. reflexivity.
Qed.

Lemma default_accounts_In (category : Category) (accounts : list Account)
    (a : Account) :
  fst (PDFParser.default_accounts category accounts) = Some a
  \/ snd (PDFParser.default_accounts category accounts) = Some a ->
  In a accounts.
Proof.
  assert (F : forall p x, find p accounts = Some x -> In x accounts).
  { intros p x H. apply find_some in H. apply H. }
  destruct category; cbn [PDFParser.default_accounts fst snd];
    intros [H | H];
    try (eapply F; exact H);
    (eapply or_first_In; [| exact H]; intros x Hx; eapply F; exact Hx).
Qed.

Lemma mapToJournalEntries_accounts (classified : list ClassifiedItem)
    (accounts : list Account) (e : CandidateEntry) (a : Account) :
  In e (PDFParser.mapToJournalEntries classified accounts) ->
  debitAccount e = Some a \/ creditAccount e = Some a ->
  In a accounts.
Proof.
  unfold PDFParser.mapToJournalEntries. intros H.
  apply in_map_iff in H. destruct H as [item [<- _]].
  destruct (PDFParser.default_accounts (c_category item) accounts)
    as [dr cr] eqn:D.
  cbn [debitAccount creditAccount]. intros Ha.
  apply (default_accounts_In (c_category item)). rewrite D. exact Ha.
Qed.

(** X13: candidates mapped from the chart are imported onto the chart.
    When the preview holds the candidates [mapToJournalEntries] made from
    the accounts of the store, [importSelectedEntries] leaves the accounts
    as they are and every line it writes carries the id of one of them:
    books in which every line has its account stay so. *)
Theorem import_creates_no_orphans (f : ImportFresh) (checked : nat -> bool)
    (classified : list ClassifiedItem) (s : DB.Store) :
  no_orphans (DB.ACCOUNTS s) (DB.LINES s) ->
  let r :=
    importSelectedEntries f checked
      (PDFParser.mapToJournalEntries classified (DB.ACCOUNTS s)) s in
  DB.ACCOUNTS (imported_store r) = DB.ACCOUNTS s
  /\ no_orphans (DB.ACCOUNTS (imported_store r)) (DB.LINES (imported_store r)).
Proof.
  intros O r. subst r. unfold importSelectedEntries.
  destruct (ticked checked 0
              (PDFParser.mapToJournalEntries classified (DB.ACCOUNTS s)))
    as [| e0 rest] eqn:T; cbn [imported_store]; [split; auto |].
  destruct (import_loop_frame f (e0 :: rest) s 0) as [A L].
  split; [exact A |]. rewrite A.
  intros l Hl. destruct (L l Hl) as [H | H]; [apply O, H |].
  apply imported_lines_In in H. destruct H as [e [i [He Hi]]].
  rewrite <- T in He. apply ticked_In in He.
  unfold import_lines in Hi.
  destruct (debitAccount e) as [dr |] eqn:Dr; [| contradiction].
  destruct (creditAccount e) as [cr |] eqn:Cr; [| contradiction].
  destruct Hi as [<- | [<- | []]]; cbn [l_accountId]; apply in_map;
    eapply mapToJournalEntries_accounts; eauto.
Qed.

Lemma import_creates_no_orphans_witness :
  no_orphans (DB.ACCOUNTS small_books) (DB.LINES small_books)
  /\ DB.ACCOUNTS
       (imported_store
          (importSelectedEntries import_fresh0 (fun _ => true)
             (PDFParser.mapToJournalEntries [rent_item]
                (DB.ACCOUNTS small_books))
             small_books))
     = DB.ACCOUNTS small_books.
Proof.
  split; [exact small_books_no_orphans |].
  exact (proj1 (import_creates_no_orphans import_fresh0 (fun _ => true)
                  [rent_item] small_books small_books_no_orphans)).
Defined.

Lemma import_loop_skips (f : ImportFresh) (selected : list CandidateEntry) :
  (forall e, In e selected -> debitAccount e = None \/ creditAccount e = None) ->
  forall (s : DB.Store) (k : nat), import_loop f s k selected = s.
Proof.
  induction selected as [| e rest IH]; intros H s k; cbn [import_loop];
    [reflexivity |].
  assert (E : import_one f s k e = s).
  { unfold import_one.
    destruct (H e (or_introl eq_refl)) as [-> | ->];
      [reflexivity | destruct (debitAccount e); reflexivity]. }
  rewrite E. apply IH. intros x Hx. apply H. right. exact Hx.
Qed.

Lemma no_cash_no_side (classified : list ClassifiedItem)
    (accounts : list Account) (e : CandidateEntry) :
  (forall a, In a accounts -> a_code a <> "1000") ->
  In e (PDFParser.mapToJournalEntries classified accounts) ->
  debitAccount e = None \/ creditAccount e = None.
Proof.
  intros NC H. unfold PDFParser.mapToJournalEntries in H.
  apply in_map_iff in H. destruct H as [item [<- _]].
  assert (F : find (PDFParser.code_is "1000") accounts = None).
  { destruct (find (PDFParser.code_is "1000") accounts) as [a |] eqn:F;
      [| reflexivity].
    apply find_some in F. destruct F as [Ha E].
    unfold PDFParser.code_is in E. apply String.eqb_eq in E.
    exfalso. exact (NC a Ha E). }
  destruct (c_category item); cbn [PDFParser.default_accounts];
    rewrite F; cbn [debitAccount creditAccount]; auto.
Qed.

(** X14: importing without a cash account. When no account has the code
    1000, every candidate of [mapToJournalEntries] lacks one side, so
    [importSelectedEntries] writes nothing to the store; its success
    message still reports the number of candidates selected. *)
Theorem import_without_cash_account (f : ImportFresh) (checked : nat -> bool)
    (classified : list ClassifiedItem) (s : DB.Store) :
  (forall a, In a (DB.ACCOUNTS s) -> a_code a <> "1000") ->
  let preview := PDFParser.mapToJournalEntries classified (DB.ACCOUNTS s) in
  let r := importSelectedEntries f checked preview s in
  imported_store r = s
  /\ imported_count r
     = match ticked checked 0 preview with
       | [] => None
       | selected => Some (List.length selected)
       end.
Proof.
  intros NC preview r. subst r. unfold importSelectedEntries.
  destruct (ticked checked 0 preview) as [| e0 rest] eqn:T;
    cbn [imported_store imported_count]; [split; reflexivity |].
  split; [| reflexivity].
  apply import_loop_skips. intros e He.
  rewrite <- T in He. apply ticked_In in He.
  eapply no_cash_no_side; eauto.
Qed.

Lemma import_without_cash_account_witness :
  (forall a, In a (DB.ACCOUNTS (DB.mkStore chart_without_cash [] [])) ->
     a_code a <> "1000")
  /\ imported_count
       (importSelectedEntries import_fresh0 (fun _ => true)
          (PDFParser.mapToJournalEntries [rent_item] chart_without_cash)
          (DB.mkStore chart_without_cash [] []))
     = Some 1%nat.
Proof.
  assert (NC : forall a,
             In a (DB.ACCOUNTS (DB.mkStore chart_without_cash [] [])) ->
             a_code a <> "1000").
  { intros a [<- | [<- | []]]; discriminate. }
  split; [exact NC |].
  exact (proj2 (import_without_cash_account import_fresh0 (fun _ => true)
                  [rent_item] (DB.mkStore chart_without_cash [] []) NC)).
Defined.

Lemma import_line_ids_S (f : ImportFresh) (k n : nat) :
  import_line_ids f k (S n)
  = imp_debitLineId f k :: imp_creditLineId f k :: import_line_ids f (S k) n.
Proof. reflexivity. Qed.

Lemma import_one_lines (f : ImportFresh) (s : DB.Store) (k : nat)
    (e : CandidateEntry) :
  imp_debitLineId f k <> imp_creditLineId f k ->
  ~ In (imp_debitLineId f k) (map l_id (DB.LINES s)) ->
  ~ In (imp_creditLineId f k) (map l_id (DB.LINES s)) ->
  DB.LINES (import_one f s k e) = DB.LINES s ++ import_lines f k e.
Proof.
  intros D F1 F2. unfold import_one, import_lines.
  destruct (debitAccount e) as [dr |]; [| rewrite app_nil_r; reflexivity].
  destruct (creditAccount e) as [cr |]; [| rewrite app_nil_r; reflexivity].
  cbn [DB.saveLine DB.saveEntry DB.LINES].
  rewrite (put_fresh l_id (DB.LINES s)) by exact F1.
  rewrite put_fresh.
  - rewrite <- app_assoc. reflexivity.
  - cbn [l_id]. rewrite map_app, in_app_iff. cbn [map l_id In].
    intros [H | [H | []]]; [exact (F2 H) | exact (D H)].
Qed.

Lemma import_lines_ids (f : ImportFresh) (k : nat) (e : CandidateEntry)
    (id : string) :
  In id (map l_id (import_lines f k e)) ->
  id = imp_debitLineId f k \/ id = imp_creditLineId f k.
Proof.
  unfold import_lines.
  destruct (debitAccount e); [| contradiction].
  destruct (creditAccount e); [| contradiction].
  cbn. intuition.
Qed.

Lemma import_loop_lines (f : ImportFresh) (selected : list CandidateEntry) :
  forall (s : DB.Store) (k : nat),
    import_fresh f k (List.length selected) (DB.LINES s) ->
    DB.LINES (import_loop f s k selected)
    = DB.LINES s ++ imported_lines f k selected.
Proof.
  induction selected as [| e rest IH]; intros s k [ND F];
    cbn [import_loop imported_lines List.length] in *.
  - rewrite app_nil_r. reflexivity.
  - rewrite import_line_ids_S in ND, F.
    inversion ND as [| ? ? N1 ND1]; subst.
    inversion ND1 as [| ? ? N2 ND2]; subst.
    assert (E : DB.LINES (import_one f s k e)
                = DB.LINES s ++ import_lines f k e).
    { apply import_one_lines.
      - intros H. apply N1. left. symmetry. exact H.
      - apply F. left. reflexivity.
      - apply F. right. left. reflexivity. }
    rewrite IH.
    + rewrite E, <- app_assoc. reflexivity.
    + split; [exact ND2 |]. intros id Hid. rewrite E, map_app, in_app_iff.
      intros [H | H].
      * apply (F id); [right; right; exact Hid | exact H].
      * apply import_lines_ids in H. destruct H as [-> | ->].
        -- apply N1. right. exact Hid.
        -- apply N2. exact Hid.
Qed.

Lemma entry_lines_app (entryId : string) (l1 l2 : list JournalLine) :
  entry_lines entryId (l1 ++ l2)
  = entry_lines entryId l1 ++ entry_lines entryId l2.
Proof. unfold entry_lines. apply filter_app. Qed.

Lemma every_entry_balances_app (l1 l2 : list JournalLine) :
  every_entry_balances l1 -> every_entry_balances l2 ->
  every_entry_balances (l1 ++ l2).
Proof.
  intros B1 B2 entryId. rewrite entry_lines_app, !map_app, !sumQ_app.
  rewrite (B1 entryId), (B2 entryId). reflexivity.
Qed.

Lemma import_lines_balanced (f : ImportFresh) (k : nat) (e : CandidateEntry) :
  every_entry_balances (import_lines f k e).
Proof.
  intros entryId. unfold import_lines, entry_lines.
  destruct (debitAccount e); [| reflexivity].
  destruct (creditAccount e); [| reflexivity].
  cbn [filter l_entryId].
  destruct (String.eqb (imp_entryId f k) entryId);
    cbn [map sumQ fold_right l_debit l_credit]; ring.
Qed.

Lemma imported_lines_balanced (f : ImportFresh)
    (selected : list CandidateEntry) (k : nat) :
  every_entry_balances (imported_lines f k selected).
Proof.
  revert k. induction selected as [| e rest IH]; intros k;
    cbn [imported_lines].
  - intros entryId. reflexivity.
  - apply every_entry_balances_app; [apply import_lines_balanced | apply IH].
Qed.

(** X15: an import keeps the books balanced. With line ids new to the
    store, [importSelectedEntries] adds, for every selected candidate
    that has both accounts, a debit line and a credit line of the
    candidate's amount under one entry id, and changes no line that was
    there (whatever the order in which the store returns its records); if
    every entry balanced before, every entry balances after. *)
Theorem import_keeps_entries_balanced (f : ImportFresh)
    (checked : nat -> bool) (pdfPreviewData : list CandidateEntry)
    (s : DB.Store) :
  import_fresh f 0 (List.length (ticked checked 0 pdfPreviewData))
               (DB.LINES s) ->
  let r := importSelectedEntries f checked pdfPreviewData s in
  Permutation
    (DB.LINES (imported_store r))
    (imported_lines f 0 (ticked checked 0 pdfPreviewData) ++ DB.LINES s)
  /\ every_entry_balances (imported_lines f 0 (ticked checked 0 pdfPreviewData))
  /\ (every_entry_balances (DB.LINES s) ->
      every_entry_balances (DB.LINES (imported_store r))).
Proof.
  intros F r. subst r.
  assert (L : DB.LINES (imported_store
                          (importSelectedEntries f checked pdfPreviewData s))
              = DB.LINES s
                ++ imported_lines f 0 (ticked checked 0 pdfPreviewData)).
  { unfold importSelectedEntries.
    destruct (ticked checked 0 pdfPreviewData) as [| e0 rest] eqn:T;
      cbn [imported_store].
    - cbn [imported_lines]. rewrite app_nil_r. reflexivity.
    - apply import_loop_lines. exact F. }
  split; [rewrite L; apply Permutation_app_comm |].
  split; [apply imported_lines_balanced |].
  intros B. rewrite L.
  apply every_entry_balances_app; [exact B | apply imported_lines_balanced].
Qed.

Lemma import_fresh0_small :
  import_fresh import_fresh0 0
    (List.length
       (ticked (fun _ => true) 0
          (PDFParser.mapToJournalEntries [rent_item] small_chart)))
    (DB.LINES small_books).
Proof.
  split.
  - vm_compute. repeat constructor; simpl; intuition discriminate.
  - cbn. intros id [<- | [<- | []]]; intuition discriminate.
Qed.

Lemma import_keeps_entries_balanced_witness :
  import_fresh import_fresh0 0
    (List.length
       (ticked (fun _ => true) 0
          (PDFParser.mapToJournalEntries [rent_item] small_chart)))
    (DB.LINES small_books)
  /\ every_entry_balances
       (imported_lines import_fresh0 0
          (ticked (fun _ => true) 0
             (PDFParser.mapToJournalEntries [rent_item] small_chart))).
Proof.
  split; [exact import_fresh0_small |].
  exact (proj1 (proj2
    (import_keeps_entries_balanced import_fresh0 (fun _ => true)
       (PDFParser.mapToJournalEntries [rent_item] small_chart)
       small_books import_fresh0_small))).
Defined.

(* ================================================================== *)
(** * The dashboard *)

Lemma stored_balance_display (accounts : list Account)
    (lines : list JournalLine) (r : DB.BalanceRow) :
  In r (DB.getAccountBalances accounts lines) ->
  a_balance (DB.acct r) == displayBalance (DB.acct r) lines.
Proof.
  intros Hr. destruct (getAccountBalances_In _ _ _ Hr) as [a [_ ->]].
  rewrite normalize_bump_balance. reflexivity.
Qed.

Lemma stored_total_type_total (t : AccountType) (accounts : list Account)
    (lines : list JournalLine) :
  stored_total t (DB.getAccountBalances accounts lines)
  == type_total t (DB.getAccountBalances accounts lines) lines.
Proof.
  unfold stored_total, type_total.
  rewrite (fold_left_add (fun a => a_balance (DB.acct a))), Qplus_0_l.
  apply sumQ_map_ext. intros r Hr.
  apply (stored_balance_display accounts lines).
  apply of_type_In in Hr. apply Hr.
Qed.

(** X16: the balance line of the dashboard does not depend on the books.
    The dashboard takes its equity to be total assets minus total
    liabilities, so both tests of its balance line, the highlight and the
    label, succeed for every chart and every journal. *)
Theorem dashboard_always_reads_balanced (cmp : string -> string -> Z)
    (accounts : list DB.BalanceRow) (entries : list JournalEntry) :
  let d := renderDashboard cmp accounts entries in
  dash_balanced d = true
  /\ dash_highlight d = true
  /\ dash_equity d == dash_totalAssets d - dash_totalLiab d
  /\ dash_netIncome d == dash_totalRev d - dash_totalExp d.
Proof.
  cbn [renderDashboard dash_balanced dash_highlight dash_equity
       dash_totalAssets dash_totalLiab dash_netIncome dash_totalRev
       dash_totalExp].
  set (A := stored_total Asset accounts).
  set (B := stored_total Liability accounts).
  split; [| split; [| split; reflexivity]].
  - apply Qltb_lt.
    assert (E : A - (B + (A - B)) == 0) by ring.
    rewrite E. reflexivity.
  - apply Qltb_lt.
    assert (E : A - B - (A - B) == 0) by ring.
    rewrite E. reflexivity.
Qed.

(** X17: the dashboard and the balance sheet show the same totals. In
    exact arithmetic: fed with the rows of the balance engine, the
    dashboard's total assets, total liabilities and net income, which it
    adds up from the stored [balance] fields, equal the figures the
    balance sheet view and its PDF export compute from the lines; at most
    seven recent entries are listed. *)
Theorem dashboard_matches_balance_sheet (cmp : string -> string -> Z)
    (accounts : list Account) (entries : list JournalEntry)
    (lines : list JournalLine) :
  let rows := DB.getAccountBalances accounts lines in
  let d := renderDashboard cmp rows entries in
  let bs := renderBalanceSheet cmp rows lines in
  let pdf := PDFReport.generate_balance rows lines in
  dash_totalAssets d == bs_totalAssets bs
  /\ dash_totalLiab d == bs_totalLiab bs
  /\ dash_netIncome d == bs_netInc bs
  /\ dash_totalAssets d == PDFReport.bal_totalAssets pdf
  /\ dash_totalLiab d == PDFReport.bal_totalLiab pdf
  /\ (List.length (dash_recentEntries d) <= 7)%nat
  /\ (List.length (dash_recentEntries d) <= List.length entries)%nat.
Proof.
  intros rows d bs pdf.
  destruct (renderBalanceSheet_totals cmp rows lines) as [TA [TL [TN _]]].
  destruct (generate_balance_totals rows lines) as [PA [PL _]].
  fold bs in TA, TL, TN. fold pdf in PA, PL.
  subst d. cbn [renderDashboard dash_totalAssets dash_totalLiab
                dash_netIncome dash_recentEntries].
  subst rows.
  split; [rewrite TA; apply stored_total_type_total |].
  split; [rewrite TL; apply stored_total_type_total |].
  split; [rewrite TN, !stored_total_type_total; reflexivity |].
  split; [rewrite PA; apply stored_total_type_total |].
  split; [rewrite PL; apply stored_total_type_total |].
  split; [apply firstn_le_length |].
  rewrite length_firstn.
  rewrite (Permutation_length (sort_perm _ entries)). lia.
Qed.

Lemma small_journal_balances : every_entry_balances (DB.LINES small_books).
Proof.
  intros e. unfold entry_lines, small_books, small_journal.
  cbn [DB.LINES filter l_entryId].
  destruct (String.eqb "je_1" e), (String.eqb "je_2" e); reflexivity.
Qed.

Lemma small_chart_natural : naturally_sided (DB.ACCOUNTS small_books).
Proof.
  intros a Ha. cbn in Ha.
  repeat (destruct Ha as [<- | Ha]; [reflexivity |]). contradiction.
Qed.

Lemma small_chart_keys : store_keys (DB.ACCOUNTS small_books).
Proof. distinct_keys. Qed.

(** X18: the equity of the dashboard against the equity of the balance
    sheet. The dashboard shows total assets minus total liabilities; the
    balance sheet shows the equity accounts plus net income. In exact
    arithmetic they are the same figure when the account ids are distinct,
    no account is a contra account, every line has its account and every
    entry balances. *)
Theorem dashboard_equity_matches_sheet (cmp : string -> string -> Z)
    (accounts : list Account) (entries : list JournalEntry)
    (lines : list JournalLine) :
  store_keys accounts ->
  naturally_sided accounts ->
  no_orphans accounts lines ->
  every_entry_balances lines ->
  let rows := DB.getAccountBalances accounts lines in
  dash_equity (renderDashboard cmp rows entries)
  == bs_totalEquity (renderBalanceSheet cmp rows lines).
Proof.
  intros K NS NO B rows.
  destruct (accounting_equation cmp accounts lines K NS NO B) as [E _].
  destruct (renderBalanceSheet_totals cmp rows lines) as [TA [TL [_ [_ TLE]]]].
  fold rows in E. cbv zeta in E, TA, TL, TLE.
  cbn [renderDashboard dash_equity]. subst rows.
  rewrite !stored_total_type_total, <- TA, <- TL.
  rewrite TLE in E.
  set (a := bs_totalAssets _) in *. set (b := bs_totalLiab _) in *.
  set (c := bs_totalEquity _) in *.
  assert (X : c == (a - b) - (a - (b + c))) by ring.
  rewrite X, E. ring.
Qed.

Lemma dashboard_equity_matches_sheet_witness :
  store_keys (DB.ACCOUNTS small_books)
  /\ naturally_sided (DB.ACCOUNTS small_books)
  /\ no_orphans (DB.ACCOUNTS small_books) (DB.LINES small_books)
  /\ every_entry_balances (DB.LINES small_books)
  /\ dash_equity
       (renderDashboard codeUnitCompare
          (DB.getAccountBalances (DB.ACCOUNTS small_books)
                                 (DB.LINES small_books))
          (DB.ENTRIES small_books))
     == bs_totalEquity
          (renderBalanceSheet codeUnitCompare
             (DB.getAccountBalances (DB.ACCOUNTS small_books)
                                    (DB.LINES small_books))
             (DB.LINES small_books)).
Proof.
  split; [exact small_chart_keys |]. split; [exact small_chart_natural |].
  split; [exact small_books_no_orphans |].
  split; [exact small_journal_balances |].
  exact (dashboard_equity_matches_sheet codeUnitCompare
           (DB.ACCOUNTS small_books) (DB.ENTRIES small_books)
           (DB.LINES small_books) small_chart_keys small_chart_natural
           small_books_no_orphans small_journal_balances).
Defined.

(* ================================================================== *)
(** * The chart page *)

Lemma of_type_partition (rows : list DB.BalanceRow) :
  Permutation
    (PDFReport.of_type Asset rows ++ PDFReport.of_type Liability rows
     ++ PDFReport.of_type Equity rows ++ PDFReport.of_type Revenue rows
     ++ PDFReport.of_type Expense rows)
    rows.
Proof.
  unfold PDFReport.of_type. induction rows as [| r rest IH]; cbn [filter];
    [reflexivity |].
  symmetry in IH.
  destruct (a_type (DB.acct r)); cbn [AccountType_eqb app]; symmetry.
  - constructor. exact IH.
  - apply Permutation_cons_app. exact IH.
  - rewrite (app_assoc (filter _ rest) (filter _ rest) (r :: _)).
    apply Permutation_cons_app. rewrite <- app_assoc. exact IH.
  - rewrite (app_assoc (filter _ rest) (filter _ rest) (_ ++ r :: _)).
    rewrite (app_assoc (_ ++ _) (filter _ rest) (r :: _)).
    apply Permutation_cons_app. rewrite <- !app_assoc. exact IH.
  - rewrite (app_assoc (filter _ rest) (filter _ rest) (_ ++ _ ++ r :: _)).
    rewrite (app_assoc (_ ++ _) (filter _ rest) (_ ++ r :: _)).
    rewrite (app_assoc ((_ ++ _) ++ _) (filter _ rest) (r :: _)).
    apply Permutation_cons_app. rewrite <- !app_assoc. exact IH.
Qed.

Lemma coa_group (cmp : string -> string -> Z) (type : AccountType)
    (accounts : list DB.BalanceRow) :
  flat_map snd
    (match sort (rowByCode cmp) (PDFReport.of_type type accounts) with
     | [] => []
     | typeAccts => [(type, typeAccts)]
     end)
  = sort (rowByCode cmp) (PDFReport.of_type type accounts).
Proof.
  destruct (sort (rowByCode cmp) (PDFReport.of_type type accounts));
    cbn [flat_map snd app]; [| rewrite app_nil_r]; reflexivity.
Qed.

(** X19: the chart page lists every account once. The groups of
    [renderCOA] together hold exactly the rows it was given; a group is
    never empty, holds the accounts of its type and of no other, and the
    groups come in the order Asset, Liability, Equity, Revenue, Expense
    without repetition. *)
Theorem renderCOA_lists_every_account_once (cmp : string -> string -> Z)
    (accounts : list DB.BalanceRow) :
  Permutation (flat_map snd (renderCOA cmp accounts)) accounts
  /\ (forall type typeAccts, In (type, typeAccts) (renderCOA cmp accounts) ->
        typeAccts <> []
        /\ Permutation typeAccts (PDFReport.of_type type accounts))
  /\ (exists keep,
        map fst (renderCOA cmp accounts)
        = filter keep [Asset; Liability; Equity; Revenue; Expense]).
Proof.
  unfold renderCOA. split; [| split].
  - cbn [flat_map]. rewrite !flat_map_app, !coa_group.
    cbn [flat_map]. rewrite app_nil_r.
    etransitivity; [| apply of_type_partition].
    repeat (apply Permutation_app; [apply sort_perm |]). apply sort_perm.
  - intros type typeAccts H. apply in_flat_map in H.
    destruct H as [t [_ H]].
    pose proof (sort_perm (rowByCode cmp) (PDFReport.of_type t accounts)) as P.
    destruct (sort (rowByCode cmp) (PDFReport.of_type t accounts))
      as [| x xs]; [contradiction |].
    destruct H as [H | []]. injection H as <- <-.
    split; [discriminate | exact P].
  - exists (fun t => negb (Nat.eqb
                             (List.length (PDFReport.of_type t accounts)) 0)).
    cbn [flat_map filter].
    assert (G : forall t rest,
               map fst
                 (match sort (rowByCode cmp) (PDFReport.of_type t accounts) with
                  | [] => []
                  | typeAccts => [(t, typeAccts)]
                  end ++ rest)
               = (if negb (Nat.eqb
                             (List.length (PDFReport.of_type t accounts)) 0)
                  then [t] else []) ++ map fst rest).
    { intros t rest.
      pose proof (Permutation_length
                    (sort_perm (rowByCode cmp) (PDFReport.of_type t accounts)))
        as L.
      destruct (sort (rowByCode cmp) (PDFReport.of_type t accounts));
        destruct (PDFReport.of_type t accounts); cbn in L |- *;
        try discriminate; reflexivity. }
    rewrite !G. cbn [map app].
    repeat (match goal with
            | |- context [negb (Nat.eqb ?n 0)] =>
                destruct (negb (Nat.eqb n 0))
            end); reflexivity.
Qed.

(* ================================================================== *)
(** * The closing balance of a ledger section *)

Lemma renderGLData_In (cmp : string -> string -> Z)
    (filterAcct fromDate toDate : string) (accounts : list Account)
    (entries : list JournalEntry) (allLines : list JournalLine)
    (s : GLSection) :
  In s (renderGLData cmp filterAcct fromDate toDate accounts entries allLines) ->
  exists acc,
    In acc accounts
    /\ (filterAcct <> "" -> a_id acc = filterAcct)
    /\ ledger_lines fromDate toDate entries (a_id acc) allLines <> []
    /\ s = mkGLSection acc
             (gl_rows_from (entryMap_of entries) acc 0
                (ledger_lines fromDate toDate entries (a_id acc) allLines))
             (fold_left (fun t l => t + or0 (l_debit l))
                (ledger_lines fromDate toDate entries (a_id acc) allLines) 0)
             (fold_left (fun t l => t + or0 (l_credit l))
                (ledger_lines fromDate toDate entries (a_id acc) allLines) 0).
Proof.
  unfold renderGLData. intros H. apply in_flat_map in H.
  destruct H as [acc [Hacc H]]. exists acc.
  assert (A : In acc accounts
              /\ (filterAcct <> "" -> a_id acc = filterAcct)).
  { destruct (String.eqb filterAcct "") eqn:E.
    - apply String.eqb_eq in E. split; [| congruence].
      apply (Permutation_in _ (sort_perm (byCode cmp) accounts)), Hacc.
    - apply filter_In in Hacc. destruct Hacc as [Hacc Eid].
      apply String.eqb_eq in Eid. split; [| intros _; exact Eid].
      apply (Permutation_in _ (sort_perm (byCode cmp) accounts)), Hacc. }
  destruct A as [A1 A2]. split; [exact A1 |]. split; [exact A2 |].
  unfold ledger_lines, lines_of.
  destruct (filter (fun l => String.eqb (l_accountId l) (a_id acc)) allLines)
    as [| l0 ls0] eqn:E0; [destruct H |].
  destruct (if negb (String.eqb fromDate "") || negb (String.eqb toDate "")
            then filter (in_range (entryMap_of entries) fromDate toDate)
                        (l0 :: ls0)
            else l0 :: ls0) as [| l1 ls1] eqn:E1; [destruct H |].
  destruct H as [<- | []]. split; [discriminate | reflexivity].
Qed.

Lemma running_all (accLines : list JournalLine) :
  running (List.length accLines) accLines == sumQ (map net accLines).
Proof. unfold running. rewrite firstn_all. reflexivity. Qed.

Lemma gl_rows_from_length (em : Js.obj JournalEntry) (acc : Account)
    (runBal : Q) (accLines : list JournalLine) :
  List.length (gl_rows_from em acc runBal accLines) = List.length accLines.
Proof.
  rewrite <- (gl_rows_from_lines em acc runBal accLines) at 2.
  rewrite length_map. reflexivity.
Qed.

(** X20: a ledger section closes at the balance of its account. Every
    section of [renderGLData] has at least one row and belongs to an
    account of the chart (the selected one when an account is selected);
    in exact arithmetic the balance of its last row is the section's
    debit total minus its credit total on the account's normal side, and
    without a date filter it is the balance [_getBalance] gives the
    statements. *)
Theorem ledger_closes_at_the_balance (cmp : string -> string -> Z)
    (filterAcct fromDate toDate : string) (accounts : list Account)
    (entries : list JournalEntry) (lines : list JournalLine) (s : GLSection) :
  In s (renderGLData cmp filterAcct fromDate toDate accounts entries lines) ->
  In (gl_account s) accounts
  /\ (filterAcct <> "" -> a_id (gl_account s) = filterAcct)
  /\ exists row,
       closing_row s = Some row
       /\ g_dispBal row
          == signed (a_normal (gl_account s)) (gl_totalDr s - gl_totalCr s)
       /\ (fromDate = "" -> toDate = "" ->
           g_dispBal row == PDFReport._getBalance (gl_account s) lines).
Proof.
  intros H. destruct (renderGLData_In _ _ _ _ _ _ _ _ H)
    as [acc [A1 [A2 [NE ->]]]].
  cbn [gl_account gl_rows gl_totalDr gl_totalCr].
  split; [exact A1 |]. split; [exact A2 |].
  unfold closing_row. cbn [gl_rows].
  set (accLines := ledger_lines fromDate toDate entries (a_id acc) lines) in *.
  set (rows := gl_rows_from (entryMap_of entries) acc 0 accLines).
  assert (L : List.length rows = List.length accLines)
    by apply gl_rows_from_length.
  assert (P : (0 < List.length accLines)%nat).
  { destruct accLines; [congruence | cbn; lia]. }
  destruct (nth_error rows (List.length rows - 1)) as [row |] eqn:N.
  2:{ apply nth_error_None in N. lia. }
  exists row. split; [reflexivity |].
  assert (D : g_dispBal row == signed (a_normal acc) (sumQ (map net accLines))).
  { rewrite (gl_rows_from_running _ _ _ _ _ _ N).
    replace (S (List.length rows - 1)) with (List.length accLines) by lia.
    rewrite running_all, Qplus_0_l. reflexivity. }
  split.
  - rewrite D, !fold_left_or0, !Qplus_0_l, sumQ_net. reflexivity.
  - intros -> ->. rewrite D, _getBalance_display.
    unfold displayBalance. rewrite rawBalance_net.
    subst accLines. unfold ledger_lines. cbn. reflexivity.
Qed.

Lemma ledger_closes_at_the_balance_witness :
  In (mkGLSection sales [mkGLRow sale_line "" "" 500] 0 500)
     (renderGLData codeUnitCompare "" "" "" [sales] [] [sale_line])
  /\ In sales [sales].
Proof.
  assert (H : In (mkGLSection sales [mkGLRow sale_line "" "" 500] 0 500)
                 (renderGLData codeUnitCompare "" "" "" [sales] []
                               [sale_line])).
  { vm_compute. left. reflexivity. }
  split; [exact H |].
  exact (proj1 (ledger_closes_at_the_balance codeUnitCompare "" "" "" [sales]
                  [] [sale_line] _ H)).
Defined.

(* ================================================================== *)
(** * What the classifier returns *)

Lemma firstn_In {A : Type} (n : nat) (l : list A) (x : A) :
  In x (firstn n l) -> In x l.
Proof.
  revert l. induction n as [| n IH]; intros l H; cbn [firstn] in H;
    [contradiction |].
  destruct l as [| y r]; [contradiction |].
  destruct H as [<- | H]; [left; reflexivity | right; apply IH, H].
Qed.

Lemma drop_while_In (p : ascii -> bool) (s : list ascii) (c : ascii) :
  In c (Text.drop_while p s) -> In c s.
Proof.
  induction s as [| x r IH]; cbn [Text.drop_while]; [auto |].
  destruct (p x); [intros H; right; apply IH, H | auto].
Qed.

Lemma trim_In (s : list ascii) (c : ascii) : In c (Text.trim s) -> In c s.
Proof.
  unfold Text.trim, Text.trim_end, Text.trim_start. intros H.
  apply in_rev, drop_while_In, in_rev in H.
  apply drop_while_In in H. exact H.
Qed.

Lemma collapse_In (s : list ascii) :
  forall (in_space : bool) (c : ascii),
    In c (PDFParser.collapse in_space s) ->
    c = space \/ (In c s /\ Text.is_space c = false).
Proof.
  induction s as [| x r IH]; intros b c H; cbn [PDFParser.collapse] in H;
    [contradiction |].
  destruct (Text.is_space x) eqn:E.
  - destruct b.
    + destruct (IH _ _ H) as [-> | [H1 H2]]; [left; reflexivity |].
      right. split; [right; exact H1 | exact H2].
    + destruct H as [<- | H]; [left; reflexivity |].
      destruct (IH _ _ H) as [-> | [H1 H2]]; [left; reflexivity |].
      right. split; [right; exact H1 | exact H2].
  - destruct H as [<- | H]; [right; split; [left; reflexivity | exact E] |].
    destruct (IH _ _ H) as [-> | [H1 H2]]; [left; reflexivity |].
    right. split; [right; exact H1 | exact H2].
Qed.

Lemma match_amount_none_head (c : ascii) (r : list ascii) :
  PDFParser.match_amount (c :: r) = None -> PDFParser.tokchar c = false.
Proof.
  destruct (PDFParser.tokchar c) eqn:T; [| reflexivity].
  intros H. exfalso. unfold PDFParser.match_amount in H.
  assert (D : Ascii.eqb c "$"%char = false).
  { destruct (Ascii.eqb c "$"%char) eqn:E; [| reflexivity].
    apply Ascii.eqb_eq in E. subst c. discriminate T. }
  rewrite D in H. cbn [skipn] in H.
  pose proof (tokchar_not_space c T) as S.
  cbn [Text.drop_while Text.take_while] in H. rewrite S in H.
  rewrite T in H. discriminate H.
Qed.

Lemma strip_amounts_In (s : list ascii) :
  forall (skip : nat) (c : ascii),
    In c (PDFParser.strip_amounts skip s) ->
    In c s /\ PDFParser.tokchar c = false.
Proof.
  induction s as [| x r IH]; intros skip c H;
    cbn [PDFParser.strip_amounts] in H; [contradiction |].
  destruct skip as [| k].
  - destruct (PDFParser.match_amount (x :: r)) as [[g len] |] eqn:M.
    + destruct (IH _ _ H) as [H1 H2]. split; [right; exact H1 | exact H2].
    + destruct H as [<- | H].
      * split; [left; reflexivity | eapply match_amount_none_head, M].
      * destruct (IH _ _ H) as [H1 H2]. split; [right; exact H1 | exact H2].
  - destruct (IH _ _ H) as [H1 H2]. split; [right; exact H1 | exact H2].
Qed.

Lemma description_of_chars (line : list ascii) (c : ascii) :
  In c (PDFParser.description_of line) ->
  PDFParser.tokchar c = false
  /\ (Text.is_space c = true -> c = space)
  /\ (c = space \/ In c line).
Proof.
  unfold PDFParser.description_of. intros H.
  apply firstn_In, collapse_In in H.
  destruct H as [-> | [H S]].
  - split; [reflexivity |]. split; [reflexivity | left; reflexivity].
  - apply trim_In, strip_amounts_In in H. destruct H as [H T].
    split; [exact T |]. split; [congruence | right; exact H].
Qed.

Lemma classify_In (text : string) (item : ClassifiedItem) :
  In item (PDFParser.classify text) ->
  exists line,
    In line (map Text.trim (PDFParser.split_lines [] (chars text)))
    /\ line <> []
    /\ PDFParser.classify_line line = Some item.
Proof.
  unfold PDFParser.classify. intros H. apply in_flat_map in H.
  destruct H as [line [Hl H]]. exists line.
  apply filter_In in Hl. destruct Hl as [Hl NE].
  split; [exact Hl |]. split.
  - intros ->. discriminate NE.
  - destruct (PDFParser.classify_line line) as [i |]; [| contradiction].
    destruct H as [<- | []]. reflexivity.
Qed.

Lemma classify_line_fields (line : list ascii) (item : ClassifiedItem) :
  PDFParser.classify_line line = Some item ->
  chars (c_description item) = PDFParser.description_of line
  /\ chars (c_originalLine item) = line
  /\ (3 < List.length (PDFParser.description_of line))%nat
  /\ PDFParser.category_of line = Some (c_category item).
Proof.
  unfold PDFParser.classify_line.
  destruct (PDFParser.amounts_of line) as [| first others];
    [discriminate |].
  destruct (PDFParser.category_of line) as [cat |]; [| discriminate].
  destruct (Qle_bool 1 (last (first :: others) 0)); [| discriminate].
  destruct (3 <? _)%nat eqn:L; [| discriminate].
  intros H. injection H as <-.
  cbn [c_description c_originalLine c_category]. unfold chars.
  rewrite !list_ascii_of_string_of_list_ascii.
  apply Nat.ltb_lt in L. auto.
Qed.

(** X21: what an item of the classifier looks like. Every item
    [classify] returns has an amount of at least 1 and a description of 4
    to 60 characters; its original line is a non-empty line of the text,
    and classifying that line alone gives the item again. *)
Theorem classified_items_are_bounded (text : string) (item : ClassifiedItem) :
  In item (PDFParser.classify text) ->
  1 <= c_amount item
  /\ (3 < List.length (chars (c_description item)) <= 60)%nat
  /\ chars (c_originalLine item) <> []
  /\ PDFParser.classify_line (chars (c_originalLine item)) = Some item.
Proof.
  intros H. destruct (classify_In _ _ H) as [line [_ [NE C]]].
  destruct (classify_line_fields _ _ C) as [D [O [L _]]].
  destruct (classify_line_amount _ _ C) as [_ [_ A]].
  rewrite D, O. split; [exact A |]. split; [| split; [exact NE | exact C]].
  split; [exact L |].
  unfold PDFParser.description_of. rewrite length_firstn. lia.
Qed.

Lemma classified_items_are_bounded_witness :
  In two_amounts_item
     (PDFParser.classify "Office rent 9,000.00 1,250.00")
  /\ 1 <= c_amount two_amounts_item.
Proof.
  assert (H : In two_amounts_item
                 (PDFParser.classify "Office rent 9,000.00 1,250.00")).
  { vm_compute. left. reflexivity. }
  split; [exact H |].
  exact (proj1 (classified_items_are_bounded _ _ H)).
Defined.

(** X22: a description carries no amount. The description of an item
    holds no digit and no comma, and its only white space is the single
    space character; every other character of it comes from the original
    line. *)
Theorem descriptions_carry_no_amount (text : string) (item : ClassifiedItem)
    (c : ascii) :
  In item (PDFParser.classify text) ->
  In c (chars (c_description item)) ->
  Js.is_digit c = false
  /\ c <> ","%char
  /\ (Text.is_space c = true -> c = space)
  /\ (c = space \/ In c (chars (c_originalLine item))).
Proof.
  intros H Hc. destruct (classify_In _ _ H) as [line [_ [_ C]]].
  destruct (classify_line_fields _ _ C) as [D [O _]].
  rewrite D in Hc. rewrite O.
  destruct (description_of_chars _ _ Hc) as [T [S I]].
  unfold PDFParser.tokchar in T. apply orb_false_iff in T.
  destruct T as [T1 T2].
  split; [exact T1 |]. split; [| split; [exact S | exact I]].
  intros ->. discriminate T2.
Qed.

Lemma descriptions_carry_no_amount_witness :
  In two_amounts_item
     (PDFParser.classify "Office rent 9,000.00 1,250.00")
  /\ In "O"%char (chars (c_description two_amounts_item))
  /\ Js.is_digit "O"%char = false.
Proof.
  assert (H : In two_amounts_item
                 (PDFParser.classify "Office rent 9,000.00 1,250.00")).
  { vm_compute. left. reflexivity. }
  assert (Hc : In "O"%char (chars (c_description two_amounts_item))).
  { left. reflexivity. }
  split; [exact H |]. split; [exact Hc |].
  exact (proj1 (descriptions_carry_no_amount _ _ _ H Hc)).
Defined.

Lemma take_while_In (p : ascii -> bool) (s : list ascii) (c : ascii) :
  In c (Text.take_while p s) -> In c s /\ p c = true.
Proof.
  induction s as [| x r IH]; cbn [Text.take_while]; [contradiction |].
  destruct (p x) eqn:E; [| contradiction].
  intros [<- | H]; [split; [left; reflexivity | exact E] |].
  destruct (IH H) as [H1 H2]. split; [right; exact H1 | exact H2].
Qed.

Lemma skipn_In {A : Type} (n : nat) (l : list A) (x : A) :
  In x (skipn n l) -> In x l.
Proof.
  revert l. induction n as [| n IH]; intros l H; cbn [skipn] in H;
    [exact H |].
  destruct l as [| y ys]; [contradiction | right; apply IH, H].
Qed.

Lemma amount_token_no_digits (s : list ascii) :
  (forall c, In c s -> Js.is_digit c = false) ->
  PDFParser.remove_commas (PDFParser.amount_token s) = [].
Proof.
  intros ND. unfold PDFParser.amount_token.
  assert (R : PDFParser.remove_commas (Text.take_while PDFParser.tokchar s)
              = []).
  { unfold PDFParser.remove_commas.
    assert (A : forall c, In c (Text.take_while PDFParser.tokchar s) ->
                  negb (Ascii.eqb c ","%char) = false).
    { intros c Hc. apply take_while_In in Hc. destruct Hc as [Hc T].
      unfold PDFParser.tokchar in T. rewrite (ND c Hc) in T.
      cbn [orb] in T. rewrite T. reflexivity. }
    induction (Text.take_while PDFParser.tokchar s) as [| x r IH];
      cbn [filter]; [reflexivity |].
    rewrite (A x (or_introl eq_refl)). apply IH.
    intros c Hc. apply A. right. exact Hc. }
  destruct (Text.drop_while PDFParser.tokchar s) as [| dot [| d1 [| d2 t]]]
    eqn:D; try exact R.
  assert (I : In d1 s).
  { apply (drop_while_In PDFParser.tokchar). rewrite D.
    right. left. reflexivity. }
  rewrite (ND d1 I), andb_false_r. cbn [andb]. exact R.
Qed.

Lemma match_amount_no_digits (s g : list ascii) (len : nat) :
  (forall c, In c s -> Js.is_digit c = false) ->
  PDFParser.match_amount s = Some (g, len) ->
  PDFParser.remove_commas g = [].
Proof.
  intros ND. unfold PDFParser.match_amount.
  set (dollar := match s with
                 | c :: _ => if Ascii.eqb c "$"%char then 1%nat else 0%nat
                 | [] => 0%nat
                 end).
  destruct (Text.drop_while Text.is_space (skipn dollar s)) as [| c r] eqn:D;
    [discriminate |].
  destruct (PDFParser.tokchar c); [| discriminate].
  intros H. injection H as <- _.
  apply amount_token_no_digits. intros x Hx. apply ND.
  assert (X : In x (Text.drop_while Text.is_space (skipn dollar s)))
    by (rewrite D; exact Hx).
  apply drop_while_In in X. eapply skipn_In, X.
Qed.

Lemma exec_all_no_digits (s : list ascii) :
  (forall c, In c s -> Js.is_digit c = false) ->
  forall (skip : nat) (g : list ascii),
    In g (PDFParser.exec_all skip s) -> PDFParser.remove_commas g = [].
Proof.
  induction s as [| x r IH]; intros ND skip g H;
    cbn [PDFParser.exec_all] in H; [contradiction |].
  assert (ND' : forall c, In c r -> Js.is_digit c = false)
    by (intros c Hc; apply ND; right; exact Hc).
  destruct skip as [| k]; [| exact (IH ND' _ _ H)].
  destruct (PDFParser.match_amount (x :: r)) as [[g0 len] |] eqn:M;
    [| exact (IH ND' _ _ H)].
  destruct H as [<- | H]; [| exact (IH ND' _ _ H)].
  exact (match_amount_no_digits _ _ _ ND M).
Qed.

Lemma amounts_of_no_digits (line : list ascii) :
  (forall c, In c line -> Js.is_digit c = false) ->
  PDFParser.amounts_of line = [].
Proof.
  intros ND. unfold PDFParser.amounts_of.
  pose proof (exec_all_no_digits line ND 0) as G.
  induction (PDFParser.exec_all 0 line) as [| g gs IH]; cbn [flat_map];
    [reflexivity |].
  rewrite (G g (or_introl eq_refl)). cbn [app].
  apply IH. intros g' Hg. apply G. right. exact Hg.
Qed.

Lemma split_lines_In (s : list ascii) :
  forall (cur line : list ascii) (c : ascii),
    In line (PDFParser.split_lines cur s) -> In c line ->
    In c cur \/ In c s.
Proof.
  induction s as [| x r IH]; intros cur line c Hl Hc;
    cbn [PDFParser.split_lines] in Hl.
  - destruct Hl as [<- | []]. left. apply in_rev. exact Hc.
  - destruct (Ascii.eqb x "010"%char).
    + destruct Hl as [<- | Hl]; [left; apply in_rev; exact Hc |].
      destruct (IH _ _ _ Hl Hc) as [[] | H]. right. right. exact H.
    + destruct (IH _ _ _ Hl Hc) as [[<- | H] | H].
      * right. left. reflexivity.
      * left. exact H.
      * right. right. exact H.
Qed.

(** X23: a text without digits yields no item. The classifier returns the
    empty list for every text in which no digit occurs, the empty text
    among them: commas alone match the amount pattern but have no value. *)
Theorem text_without_digits_yields_nothing (text : string) :
  (forall c, In c (chars text) -> Js.is_digit c = false) ->
  PDFParser.classify text = [].
Proof.
  intros ND. unfold PDFParser.classify.
  assert (G : forall line,
             In line (filter (fun l => negb (Nat.eqb (List.length l) 0))
                        (map Text.trim
                           (PDFParser.split_lines []
                              (list_ascii_of_string text)))) ->
             PDFParser.classify_line line = None).
  { intros line Hl. apply filter_In in Hl. destruct Hl as [Hl _].
    apply in_map_iff in Hl. destruct Hl as [raw [<- Hraw]].
    unfold PDFParser.classify_line. rewrite amounts_of_no_digits;
      [reflexivity |].
    intros c Hc. apply trim_In in Hc.
    destruct (split_lines_In _ _ _ _ Hraw Hc) as [[] | H]. apply ND, H. }
  induction (filter _ _) as [| l ls IH]; cbn [flat_map]; [reflexivity |].
  rewrite (G l (or_introl eq_refl)). cbn [app].
  apply IH. intros l' Hl'. apply G. right. exact Hl'.
Qed.

Lemma text_without_digits_yields_nothing_witness :
  (forall c, In c (chars "Cash, bank and rent") -> Js.is_digit c = false)
  /\ PDFParser.classify "Cash, bank and rent" = [].
Proof.
  assert (ND : forall c, In c (chars "Cash, bank and rent") ->
                 Js.is_digit c = false).
  { intros c Hc. cbn in Hc.
    repeat (destruct Hc as [<- | Hc]; [reflexivity |]). contradiction. }
  split; [exact ND |].
  exact (text_without_digits_yields_nothing "Cash, bank and rent" ND).
Defined.

Lemma split_lines_app (la lb : list ascii) :
  forall cur,
    PDFParser.split_lines cur (la ++ newline :: lb)
    = PDFParser.split_lines cur la ++ PDFParser.split_lines [] lb.
Proof.
  induction la as [| x r IH]; intros cur; cbn [app PDFParser.split_lines].
  - reflexivity.
  - destruct (Ascii.eqb x "010"%char); [cbn [app]; f_equal |]; apply IH.
Qed.

Lemma chars_append (a b : string) :
  chars (String.append a b) = chars a ++ chars b.
Proof.
  unfold chars. induction a as [| c r IH]; cbn; [reflexivity |].
  f_equal. exact IH.
Qed.

(** X24: the classifier works line by line. The items of two texts
    joined by a line feed are the items of the first followed by the items
    of the second: nothing is carried from one line to the next. *)
Theorem classify_is_line_by_line (a b : string) :
  PDFParser.classify (String.append a (String newline b))
  = PDFParser.classify a ++ PDFParser.classify b.
Proof.
  unfold PDFParser.classify.
  change (list_ascii_of_string (String.append a (String newline b)))
    with (chars (String.append a (String newline b))).
  rewrite chars_append.
  change (chars (String newline b)) with (newline :: chars b).
  rewrite split_lines_app, map_app, filter_app, flat_map_app.
  reflexivity.
Qed.

(* ================================================================== *)
(** * Posting a form whose amounts all have an account *)










(* ================================================================== *)
(** * The rows of the trial balance *)

(** X27: the trial balance lists the accounts that have a positive total.
    With distinct account ids, the rows of [renderTrialBalance] are the
    totals records of the accounts of the chart whose debit total or
    credit total is above zero, each once; an account without lines is not
    listed. *)
Theorem trial_balance_lists_active_accounts (cmp : string -> string -> Z)
    (accounts : list Account) (lines : list JournalLine) :
  store_keys accounts ->
  let tb := renderTrialBalance cmp accounts lines in
  Permutation (tb_activeAccounts tb)
              (filter active_totals (map (totals_of lines) accounts))
  /\ (forall t, In t (tb_activeAccounts tb) ->
        In (t_account t) accounts /\ (0 < totalDr t \/ 0 < totalCr t))
  /\ (forall a, In a accounts -> lines_of (a_id a) lines = [] ->
        ~ In (totals_of lines a) (tb_activeAccounts tb)).
Proof.
  intros K tb.
  assert (P : Permutation (tb_activeAccounts tb)
                (filter active_totals (map (totals_of lines) accounts))).
  { subst tb. cbn [renderTrialBalance tb_activeAccounts].
    etransitivity; [apply sort_perm |].
    apply filter_perm. apply acctTotals_perm, K. }
  assert (A : forall t, In t (tb_activeAccounts tb) ->
                active_totals t = true /\ exists a, In a accounts
                                                    /\ t = totals_of lines a).
  { intros t Ht. apply (Permutation_in _ P) in Ht.
    apply filter_In in Ht. destruct Ht as [Ht E]. split; [exact E |].
    apply in_map_iff in Ht. destruct Ht as [a [<- Ha]]. exists a. auto. }
  split; [exact P |]. split.
  - intros t Ht. destruct (A t Ht) as [E [a [Ha ->]]].
    split; [exact Ha |]. unfold active_totals in E.
    apply orb_true_iff in E.
    destruct E as [E | E]; apply Qgtb_gt in E; auto.
  - intros a Ha L Hin. destruct (A _ Hin) as [E _].
    unfold active_totals, totals_of in E. cbn [totalDr totalCr] in E.
    rewrite L in E. cbn in E. discriminate E.
Qed.

Lemma trial_balance_lists_active_accounts_witness :
  store_keys (DB.ACCOUNTS small_books)
  /\ Permutation
       (tb_activeAccounts
          (renderTrialBalance codeUnitCompare (DB.ACCOUNTS small_books)
                              (DB.LINES small_books)))
       (filter active_totals
          (map (totals_of (DB.LINES small_books)) (DB.ACCOUNTS small_books))).
Proof.
  split; [exact small_chart_keys |].
  exact (proj1 (trial_balance_lists_active_accounts codeUnitCompare
                  (DB.ACCOUNTS small_books) (DB.LINES small_books)
                  small_chart_keys)).
Defined.

(* ================================================================== *)
(** * From a document to the trial balance *)

Lemma trial_balance_balanced (cmp : string -> string -> Z)
    (accounts : list Account) (lines : list JournalLine) :
  store_keys accounts ->
  nonnegative lines ->
  no_orphans accounts lines ->
  every_entry_balances lines ->
  tb_totalDr (renderTrialBalance cmp accounts lines)
  == tb_totalCr (renderTrialBalance cmp accounts lines)
  /\ tb_balanced (renderTrialBalance cmp accounts lines) = true.
Proof.
  intros K NN NO B.
  destruct (renderTrialBalance_totals cmp accounts lines K NN) as [D C].
  rewrite (posted_to_all _ _ NO) in D, C.
  pose proof (balanced_entries_net lines B) as N. rewrite sumQ_net in N.
  assert (E : tb_totalDr (renderTrialBalance cmp accounts lines)
              == tb_totalCr (renderTrialBalance cmp accounts lines)).
  { rewrite D, C.
    set (x := sumQ (map l_debit lines)) in *.
    set (y := sumQ (map l_credit lines)) in *.
    assert (X : x == (x - y) + y) by ring. rewrite X, N. ring. }
  split; [exact E |].
  apply (renderTrialBalance_flag cmp). rewrite E.
  set (y := tb_totalCr _).
  assert (X : y - y == 0) by ring. rewrite X. reflexivity.
Qed.

Lemma classified_amount_positive (text : string) (accounts : list Account)
    (e : CandidateEntry) :
  In e (PDFParser.mapToJournalEntries (PDFParser.classify text) accounts) ->
  1 <= ce_amount e.
Proof.
  unfold PDFParser.mapToJournalEntries. intros H.
  apply in_map_iff in H. destruct H as [item [<- Hi]].
  destruct (PDFParser.default_accounts (c_category item) accounts).
  cbn [ce_amount].
  destruct (classify_In _ _ Hi) as [line [_ [_ C]]].
  destruct (classify_line_amount _ _ C) as [_ [_ A]]. exact A.
Qed.

(** X28: a document imported into balanced books leaves the trial balance
    balanced. Starting from books with distinct account ids, amounts that
    are not negative, every line on an account and every entry in
    balance, classifying a text, mapping its items onto the chart and
    importing any selection of the candidates with new line ids gives
    books with the same four properties, whose trial balance, in exact
    arithmetic, has equal totals and is flagged balanced. *)
Theorem imported_document_keeps_trial_balance (cmp : string -> string -> Z)
    (f : ImportFresh) (checked : nat -> bool) (text : string) (s : DB.Store) :
  let preview :=
    PDFParser.mapToJournalEntries (PDFParser.classify text) (DB.ACCOUNTS s) in
  store_keys (DB.ACCOUNTS s) ->
  nonnegative (DB.LINES s) ->
  no_orphans (DB.ACCOUNTS s) (DB.LINES s) ->
  every_entry_balances (DB.LINES s) ->
  import_fresh f 0 (List.length (ticked checked 0 preview)) (DB.LINES s) ->
  let s' := imported_store (importSelectedEntries f checked preview s) in
  let tb := renderTrialBalance cmp (DB.ACCOUNTS s') (DB.LINES s') in
  (store_keys (DB.ACCOUNTS s')
   /\ nonnegative (DB.LINES s')
   /\ no_orphans (DB.ACCOUNTS s') (DB.LINES s')
   /\ every_entry_balances (DB.LINES s'))
  /\ tb_totalDr tb == tb_totalCr tb
  /\ tb_balanced tb = true.
Proof.
  intros preview K NN NO B F s' tb.
  assert (A : DB.ACCOUNTS s' = DB.ACCOUNTS s).
  { subst s'. unfold importSelectedEntries.
    destruct (ticked checked 0 preview) as [| e0 rest];
      cbn [imported_store]; [reflexivity |].
    apply import_loop_frame. }
  assert (L : DB.LINES s'
              = DB.LINES s ++ imported_lines f 0 (ticked checked 0 preview)).
  { subst s'. unfold importSelectedEntries.
    destruct (ticked checked 0 preview) as [| e0 rest] eqn:T;
      cbn [imported_store].
    - cbn [imported_lines]. rewrite app_nil_r. reflexivity.
    - apply import_loop_lines. exact F. }
  assert (I : forall l, In l (imported_lines f 0 (ticked checked 0 preview)) ->
                exists e i, In e preview /\ In l (import_lines f i e)).
  { intros l Hl. destruct (imported_lines_In _ _ _ _ Hl) as [e [i [He Hi]]].
    exists e, i. split; [eapply ticked_In, He | exact Hi]. }
  assert (K' : store_keys (DB.ACCOUNTS s')) by (rewrite A; exact K).
  assert (NN' : nonnegative (DB.LINES s')).
  { rewrite L. intros l Hl. apply in_app_or in Hl.
    destruct Hl as [Hl | Hl]; [apply NN, Hl |].
    destruct (I l Hl) as [e [i [He Hi]]].
    pose proof (classified_amount_positive _ _ _ He) as P.
    assert (Z : 0 <= ce_amount e).
    { apply Qle_trans with 1; [discriminate | exact P]. }
    unfold import_lines in Hi.
    destruct (debitAccount e); [| contradiction].
    destruct (creditAccount e); [| contradiction].
    destruct Hi as [<- | [<- | []]]; cbn [l_debit l_credit];
      split; try exact Z; apply Qle_refl. }
  assert (NO' : no_orphans (DB.ACCOUNTS s') (DB.LINES s')).
  { rewrite A, L. intros l Hl. apply in_app_or in Hl.
    destruct Hl as [Hl | Hl]; [apply NO, Hl |].
    destruct (I l Hl) as [e [i [He Hi]]].
    unfold import_lines in Hi.
    destruct (debitAccount e) as [dr |] eqn:Dr; [| contradiction].
    destruct (creditAccount e) as [cr |] eqn:Cr; [| contradiction].
    destruct Hi as [<- | [<- | []]]; cbn [l_accountId]; apply in_map;
      eapply mapToJournalEntries_accounts; eauto. }
  assert (B' : every_entry_balances (DB.LINES s')).
  { rewrite L. apply every_entry_balances_app;
      [exact B | apply imported_lines_balanced]. }
  split; [exact (conj K' (conj NN' (conj NO' B'))) |].
  subst tb. apply trial_balance_balanced; assumption.
Qed.

Lemma imported_document_fresh :
  import_fresh import_fresh0 0
    (List.length
       (ticked (fun _ => true) 0
          (PDFParser.mapToJournalEntries
             (PDFParser.classify "Office Rent Expense $1,250.00")
             (DB.ACCOUNTS small_books))))
    (DB.LINES small_books).
Proof.
  split.
  - vm_compute. repeat constructor; simpl; intuition discriminate.
  - vm_compute. intros id [<- | [<- | []]]; intuition discriminate.
Qed.

Lemma imported_document_keeps_trial_balance_witness :
  store_keys (DB.ACCOUNTS small_books)
  /\ nonnegative (DB.LINES small_books)
  /\ no_orphans (DB.ACCOUNTS small_books) (DB.LINES small_books)
  /\ every_entry_balances (DB.LINES small_books)
  /\ tb_balanced
       (renderTrialBalance codeUnitCompare
          (DB.ACCOUNTS
             (imported_store
                (importSelectedEntries import_fresh0 (fun _ => true)
                   (PDFParser.mapToJournalEntries
                      (PDFParser.classify "Office Rent Expense $1,250.00")
                      (DB.ACCOUNTS small_books))
                   small_books)))
          (DB.LINES
             (imported_store
                (importSelectedEntries import_fresh0 (fun _ => true)
                   (PDFParser.mapToJournalEntries
                      (PDFParser.classify "Office Rent Expense $1,250.00")
                      (DB.ACCOUNTS small_books))
                   small_books))))
     = true.
Proof.
  split; [exact small_chart_keys |].
  split; [exact small_journal_nonnegative |].
  split; [exact small_books_no_orphans |].
  split; [exact small_journal_balances |].
  exact (proj2 (proj2 (imported_document_keeps_trial_balance codeUnitCompare
                         import_fresh0 (fun _ => true)
                         "Office Rent Expense $1,250.00" small_books
                         small_chart_keys small_journal_nonnegative
                         small_books_no_orphans small_journal_balances
                         imported_document_fresh))).
Defined.

(* ================================================================== *)
(** * Escaping text for the pages *)

Lemma text_markup_plain (c : ascii) :
  Ascii.eqb c "&"%char = false ->
  forall rest,
    starts_with (chars "&amp;") (c :: rest) = false
    /\ starts_with (chars "&lt;") (c :: rest) = false
    /\ starts_with (chars "&gt;") (c :: rest) = false
    /\ starts_with (chars "&nbsp;") (c :: rest) = false.
Proof.
  intros N rest. rewrite Ascii.eqb_sym in N.
  cbn [chars list_ascii_of_string starts_with]. rewrite N.
  repeat split; reflexivity.
Qed.

Lemma unescape_markup (s : list ascii) :
  unescape 0 (flat_map text_markup s) = s.
Proof.
  induction s as [| c r IH]; cbn [flat_map]; [reflexivity |].
  unfold text_markup at 1.
  destruct (Ascii.eqb c "&"%char) eqn:E1.
  { apply Ascii.eqb_eq in E1. subst c. cbn. f_equal. exact IH. }
  destruct (Ascii.eqb c "<"%char) eqn:E2.
  { apply Ascii.eqb_eq in E2. subst c. cbn. f_equal. exact IH. }
  destruct (Ascii.eqb c ">"%char) eqn:E3.
  { apply Ascii.eqb_eq in E3. subst c. cbn. f_equal. exact IH. }
  destruct (Ascii.eqb c "160"%char) eqn:E4.
  { apply Ascii.eqb_eq in E4. subst c. cbn. f_equal. exact IH. }
  cbn [app unescape].
  destruct (text_markup_plain c E1 (flat_map text_markup r)) as [A [B [C D]]].
  rewrite A, B, C, D. f_equal. exact IH.
Qed.

Lemma text_markup_no_brackets (c x : ascii) :
  In x (text_markup c) -> x <> "<"%char /\ x <> ">"%char.
Proof.
  unfold text_markup.
  destruct (Ascii.eqb c "&"%char);
    [cbn; intuition (subst; discriminate) |].
  destruct (Ascii.eqb c "<"%char) eqn:E2;
    [cbn; intuition (subst; discriminate) |].
  destruct (Ascii.eqb c ">"%char) eqn:E3;
    [cbn; intuition (subst; discriminate) |].
  destruct (Ascii.eqb c "160"%char);
    [cbn; intuition (subst; discriminate) |].
  intros [<- | []]. apply Ascii.eqb_neq in E2, E3. auto.
Qed.

(** X29: [escHtml] loses nothing and lets no tag through. Reading the
    character references of [escHtml s] back gives [s], so two different
    texts are never escaped to the same markup; the result holds no angle
    bracket; a text without ampersand, angle bracket and no-break space,
    its quotation marks included, is returned as it is. *)
Theorem escHtml_round_trip (s : string) :
  unescape 0 (chars (escHtml s)) = chars s
  /\ (forall t, escHtml s = escHtml t -> s = t)
  /\ (forall c, In c (chars (escHtml s)) -> c <> "<"%char /\ c <> ">"%char)
  /\ ((forall c, In c (chars s) -> text_markup c = [c]) -> escHtml s = s).
Proof.
  assert (R : forall u, unescape 0 (chars (escHtml u)) = chars u).
  { intros u. unfold escHtml, chars.
    rewrite list_ascii_of_string_of_list_ascii. apply unescape_markup. }
  split; [apply R |]. split; [| split].
  - intros t E. rewrite <- (string_of_list_ascii_of_string s),
      <- (string_of_list_ascii_of_string t).
    f_equal. change (chars s = chars t). rewrite <- (R s), <- (R t), E.
    reflexivity.
  - intros c Hc. unfold escHtml, chars in Hc.
    rewrite list_ascii_of_string_of_list_ascii in Hc.
    apply in_flat_map in Hc. destruct Hc as [x [_ Hx]].
    eapply text_markup_no_brackets, Hx.
  - intros P. unfold escHtml.
    rewrite <- (string_of_list_ascii_of_string s) at 2. f_equal.
    unfold chars in P.
    induction (list_ascii_of_string s) as [| c r IH]; cbn [flat_map];
      [reflexivity |].
    rewrite (P c (or_introl eq_refl)). cbn [app]. f_equal.
    apply IH. intros x Hx. apply P. right. exact Hx.
Qed.

(* ================================================================== *)
(** * Net income on the income statement *)

Lemma find_hd_filter {A : Type} (p : A -> bool) (l : list A) :
  find p l = hd_error (filter p l).
Proof.
  induction l as [| x r IH]; cbn [find filter]; [reflexivity |].
  destruct (p x); [reflexivity | exact IH].
Qed.

Lemma sumQ_filter_split {A : Type} (p : A -> bool) (g : A -> Q) (l : list A) :
  sumQ (map g l)
  == sumQ (map g (filter p l)) + sumQ (map g (filter (fun x => negb (p x)) l)).
Proof.
  induction l as [| x r IH]; cbn [filter map sumQ fold_right]; [ring |].
  unfold sumQ in IH.
  destruct (p x); cbn [negb map sumQ fold_right]; rewrite IH; ring.
Qed.

(** X30: net income when at most one Expense account has the code 5000.
    The income statement view then counts every Expense account once,
    as cost of goods sold or as operating expense: in exact arithmetic its
    net income is the total of the Revenue accounts minus the total of the
    Expense accounts, the figure the balance sheet adds to equity. *)
Theorem income_statement_net_income (cmp : string -> string -> Z)
    (rows : list DB.BalanceRow) (lines : list JournalLine) :
  (List.length (cogs_accounts rows) <= 1)%nat ->
  let st := renderIncomeStatement cmp rows lines in
  is_totalCOGS st + is_totalOpEx st == type_total Expense rows lines
  /\ is_netIncome st
     == type_total Revenue rows lines - type_total Expense rows lines
  /\ is_netIncome st == bs_netInc (renderBalanceSheet cmp rows lines)
  /\ (cogs_accounts rows = [] -> is_totalCOGS st == 0 /\ is_cogsRows st = []).
Proof.
  intros U st.
  set (E := sort (rowByCode cmp) (PDFReport.of_type Expense rows)).
  set (g := fun r : DB.BalanceRow => displayBalance (DB.acct r) lines).
  assert (PE : Permutation E (PDFReport.of_type Expense rows))
    by apply sort_perm.
  assert (PC : Permutation (filter (PDFReport.has_code "5000") E)
                           (cogs_accounts rows))
    by (apply filter_perm, PE).
  assert (C : is_totalCOGS st
              == sumQ (map g (filter (PDFReport.has_code "5000") E))).
  { subst st. cbn [renderIncomeStatement is_totalCOGS]. fold E.
    rewrite find_hd_filter.
    pose proof (Permutation_length PC) as L.
    destruct (filter (PDFReport.has_code "5000") E) as [| c [| c' t]];
      cbn [hd_error map sumQ fold_right].
    - reflexivity.
    - rewrite _getBalance_display. unfold g. ring.
    - cbn [List.length] in L. lia. }
  assert (O : is_totalOpEx st
              == sumQ (map g (filter (fun r => negb (PDFReport.has_code "5000" r))
                                     E))).
  { subst st. cbn [renderIncomeStatement is_totalOpEx]. fold E.
    apply balance_total_sum. }
  assert (T : is_totalCOGS st + is_totalOpEx st
              == type_total Expense rows lines).
  { rewrite C, O, <- sumQ_filter_split. unfold type_total.
    apply sumQ_map_perm, PE. }
  assert (R : is_totalRev st == type_total Revenue rows lines).
  { subst st. cbn [renderIncomeStatement is_totalRev].
    apply balance_total_sort. }
  assert (N : is_netIncome st
              == type_total Revenue rows lines - type_total Expense rows lines).
  { rewrite <- T, <- R. subst st.
    cbn [renderIncomeStatement is_netIncome is_totalRev is_totalCOGS
         is_totalOpEx]. ring. }
  split; [exact T |]. split; [exact N |]. split.
  - rewrite N.
    destruct (renderBalanceSheet_totals cmp rows lines) as [_ [_ [TN _]]].
    rewrite TN. reflexivity.
  - intros Z. rewrite Z in PC. apply Permutation_sym, Permutation_nil in PC.
    subst st. cbn [renderIncomeStatement is_totalCOGS is_cogsRows]. fold E.
    rewrite find_hd_filter, PC. cbn [hd_error]. split; reflexivity.
Qed.

Lemma income_statement_net_income_witness :
  (List.length (cogs_accounts small_rows) <= 1)%nat
  /\ is_netIncome (renderIncomeStatement codeUnitCompare small_rows
                                         small_journal)
     == type_total Revenue small_rows small_journal
        - type_total Expense small_rows small_journal.
Proof.
  assert (U : (List.length (cogs_accounts small_rows) <= 1)%nat)
    by (vm_compute; repeat constructor).
  split; [exact U |].
  exact (proj1 (proj2 (income_statement_net_income codeUnitCompare small_rows
                         small_journal U))).
Defined.
